(** * PokemonAI: goal tree, navigator and battle tracker

    A shallow embedding of the three rule-based components of the agent,

      - [src/agent/core/navigator.py]        (class [Navigator]),
      - [src/agent/core/battle_manager.py]   (class [BattleManager]),
      - [src/agent/planning/goal_planner.py] (class [GoalPlanner]),

    followed by the properties established about them.

    Conventions of the embedding.
      - A Python [int] is a [Z]; a Python [float] is a binary64 [float]
        (Rocq's primitive floats, same format as CPython's).
      - A method [m(self, a, b)] that mutates [self] becomes a function that
        takes the object and returns the result together with the new object.
      - [None] is [None]; a Python value used as a condition is tested by an
        explicit truthiness function.
      - A [dict] that is only looked up is a [gmap]; the goal dictionary,
        which is also iterated, carries its insertion order next to the map.
      - Calls to [logger] have no effect on the modelled state. *)

From Stdlib Require Import Floats ZArith Lia DecimalString.
From Stdlib Require Import DecimalZ DecimalPos.
From stdpp Require Import gmap strings list.

Open Scope Z_scope.

(** ** Python primitives *)

Module py.

(** [str(n)] for an [int]: decimal digits, with a leading minus sign. *)
Definition str (n : Z) : string := NilZero.string_of_int (Z.to_int n).

(** Truthiness of a [str]: only the empty string is falsy. *)
Definition truthy (s : string) : bool :=
  match s with
  | EmptyString => false
  | String _ _ => true
  end.

(** Truthiness of a [str | None]. *)
Definition truthy_opt (o : option string) : bool :=
  match o with
  | None => false
  | Some s => truthy s
  end.

(** Truthiness of a [dict]: only the empty dictionary is falsy. *)
Definition dict_truthy {V} (d : gmap string V) : bool :=
  negb (bool_decide (size d = 0%nat)).

End py.

(** ** Order of binary64 values

    [x < y] and [x <= y] on floats, read off the comparison of their
    decoded forms; both are false as soon as one side is a NaN. *)

Module float_order.

Definition sf_lt (a b : spec_float) : Prop := SFcompare a b = Some Lt.

Definition sf_le (a b : spec_float) : Prop :=
  SFcompare a b = Some Lt ∨ SFcompare a b = Some Eq.

Definition is_nan (x : float) : Prop := Prim2SF x = S754_nan.

End float_order.

(** ** navigator.py *)

Module navigator.

Inductive Direction := UP | DOWN | LEFT | RIGHT.

(** One landmark of [data/warp_data.json]: [{"x": .., "y": .., "label": ..}];
    the label may be absent. *)
Record Landmark := {
  lm_x : Z;
  lm_y : Z;
  lm_label : option string
}.

(** One map entry of [data/warp_data.json]: [{"name": .., "landmarks": {..}}];
    either key may be absent. *)
Record MapData := {
  md_name : option string;
  md_landmarks : option (gmap string Landmark)
}.

(** [not map_data]: the entry is the empty dictionary. *)
Definition map_data_falsy (md : MapData) : bool :=
  match md_name md, md_landmarks md with
  | None, None => true
  | _, _ => false
  end.

(** The attributes of a [Navigator] object. *)
Record Navigator := {
  warp_data : gmap string MapData;
  target : option (Z * Z);
  target_label : string;
  target_map : Z;
  active : bool;
  _prev_x : Z;
  _prev_y : Z;
  _stuck_count : Z;
  _stuck_dir_idx : Z;
  _detour_dir : option Direction;
  _detour_ticks : Z;
  _total_stuck : Z
}.

(** [Navigator.__init__], given the registry read by [_load_warp_data]. *)
Definition init (data : gmap string MapData) : Navigator := {|
  warp_data := data;
  target := None;
  target_label := "";
  target_map := -1;
  active := false;
  _prev_x := -1;
  _prev_y := -1;
  _stuck_count := 0;
  _stuck_dir_idx := 0;
  _detour_dir := None;
  _detour_ticks := 0;
  _total_stuck := 0
|}.

(** [Navigator.set_target] *)
Definition set_target (self : Navigator) (map_id : Z) (landmark_key : string)
  : bool * Navigator :=
  match warp_data self !! py.str map_id with
  | None => (false, self)
  | Some map_data =>
    if map_data_falsy map_data then (false, self)
    else
      match default ∅ (md_landmarks map_data) !! landmark_key with
      | None => (false, self)
      | Some landmark =>
        (true,
         {| warp_data := warp_data self;
            target := Some (lm_x landmark, lm_y landmark);
            target_label := default landmark_key (lm_label landmark);
            target_map := map_id;
            active := true;
            _prev_x := -1;
            _prev_y := -1;
            _stuck_count := 0;
            _stuck_dir_idx := 0;
            _detour_dir := None;
            _detour_ticks := 0;
            _total_stuck := 0 |})
      end
  end.

(** [Navigator.cancel] *)
Definition cancel (self : Navigator) : Navigator := {|
  warp_data := warp_data self;
  target := None;
  target_label := "";
  target_map := -1;
  active := false;
  _prev_x := _prev_x self;
  _prev_y := _prev_y self;
  _stuck_count := _stuck_count self;
  _stuck_dir_idx := _stuck_dir_idx self;
  _detour_dir := None;
  _detour_ticks := 0;
  _total_stuck := 0
|}.

(** Assignments to single attributes. *)
Definition set_prev (x y : Z) (self : Navigator) : Navigator := {|
  warp_data := warp_data self; target := target self;
  target_label := target_label self; target_map := target_map self;
  active := active self;
  _prev_x := x; _prev_y := y;
  _stuck_count := _stuck_count self; _stuck_dir_idx := _stuck_dir_idx self;
  _detour_dir := _detour_dir self; _detour_ticks := _detour_ticks self;
  _total_stuck := _total_stuck self
|}.

Definition set_stuck_count (n : Z) (self : Navigator) : Navigator := {|
  warp_data := warp_data self; target := target self;
  target_label := target_label self; target_map := target_map self;
  active := active self;
  _prev_x := _prev_x self; _prev_y := _prev_y self;
  _stuck_count := n; _stuck_dir_idx := _stuck_dir_idx self;
  _detour_dir := _detour_dir self; _detour_ticks := _detour_ticks self;
  _total_stuck := _total_stuck self
|}.

Definition set_stuck_dir_idx (n : Z) (self : Navigator) : Navigator := {|
  warp_data := warp_data self; target := target self;
  target_label := target_label self; target_map := target_map self;
  active := active self;
  _prev_x := _prev_x self; _prev_y := _prev_y self;
  _stuck_count := _stuck_count self; _stuck_dir_idx := n;
  _detour_dir := _detour_dir self; _detour_ticks := _detour_ticks self;
  _total_stuck := _total_stuck self
|}.

Definition set_detour_dir (d : option Direction) (self : Navigator) : Navigator := {|
  warp_data := warp_data self; target := target self;
  target_label := target_label self; target_map := target_map self;
  active := active self;
  _prev_x := _prev_x self; _prev_y := _prev_y self;
  _stuck_count := _stuck_count self; _stuck_dir_idx := _stuck_dir_idx self;
  _detour_dir := d; _detour_ticks := _detour_ticks self;
  _total_stuck := _total_stuck self
|}.

Definition set_detour_ticks (n : Z) (self : Navigator) : Navigator := {|
  warp_data := warp_data self; target := target self;
  target_label := target_label self; target_map := target_map self;
  active := active self;
  _prev_x := _prev_x self; _prev_y := _prev_y self;
  _stuck_count := _stuck_count self; _stuck_dir_idx := _stuck_dir_idx self;
  _detour_dir := _detour_dir self; _detour_ticks := n;
  _total_stuck := _total_stuck self
|}.

Definition set_total_stuck (n : Z) (self : Navigator) : Navigator := {|
  warp_data := warp_data self; target := target self;
  target_label := target_label self; target_map := target_map self;
  active := active self;
  _prev_x := _prev_x self; _prev_y := _prev_y self;
  _stuck_count := _stuck_count self; _stuck_dir_idx := _stuck_dir_idx self;
  _detour_dir := _detour_dir self; _detour_ticks := _detour_ticks self;
  _total_stuck := n
|}.

Definition set_active (b : bool) (self : Navigator) : Navigator := {|
  warp_data := warp_data self; target := target self;
  target_label := target_label self; target_map := target_map self;
  active := b;
  _prev_x := _prev_x self; _prev_y := _prev_y self;
  _stuck_count := _stuck_count self; _stuck_dir_idx := _stuck_dir_idx self;
  _detour_dir := _detour_dir self; _detour_ticks := _detour_ticks self;
  _total_stuck := _total_stuck self
|}.

(** [Navigator._start_detour] *)
Definition _start_detour (self : Navigator) (dx dy : Z)
  : option Direction * Navigator :=
  let detour_len := Z.min (3 + _total_stuck self * 2) 12 in
  let options :=
    if decide (Z.abs dx >= Z.abs dy) then [UP; DOWN] else [LEFT; RIGHT] in
  let dir := options !! Z.to_nat (_stuck_dir_idx self `mod` Z.of_nat (length options)) in
  let self := set_detour_dir dir self in
  let self := set_detour_ticks detour_len self in
  let self := set_stuck_count 0 self in
  (_detour_dir self, self).

(** The last statement of [get_next_direction]: close the larger gap first. *)
Definition greedy_step (dx dy : Z) : Direction :=
  if decide (Z.abs dx > Z.abs dy) then
    (if decide (dx > 0) then RIGHT else LEFT)
  else if decide (Z.abs dy > 0) then
    (if decide (dy > 0) then DOWN else UP)
  else
    (if decide (dx > 0) then RIGHT else LEFT).

(** [get_next_direction] from the comment "Stuck detection" to the end. *)
Definition stuck_detection (self : Navigator) (player_x player_y dx dy : Z)
  : option Direction * Navigator :=
  let self :=
    if decide (player_x = _prev_x self ∧ player_y = _prev_y self)
    then set_stuck_count (_stuck_count self + 1) self
    else set_stuck_count 0 self in
  let self := set_prev player_x player_y self in
  if decide (_stuck_count self >= 3) then
    let self := set_total_stuck (_total_stuck self + 1) self in
    _start_detour self dx dy
  else if decide (_total_stuck self >= 15) then
    (None, cancel self)
  else
    (Some (greedy_step dx dy), self).

(** [Navigator.get_next_direction] *)
Definition get_next_direction (self : Navigator) (player_x player_y current_map : Z)
  : option Direction * Navigator :=
  match target self with
  | None => (None, self)
  | Some (tx, ty) =>
    if negb (active self) then (None, self)
    else if decide (current_map ≠ target_map self) then (None, cancel self)
    else
      let dx := tx - player_x in
      let dy := ty - player_y in
      if decide (Z.abs dx <= 1 ∧ Z.abs dy <= 1) then
        (None, set_total_stuck 0 (set_active false self))
      else if decide (_detour_ticks self > 0) then
        if decide (player_x = _prev_x self ∧ player_y = _prev_y self) then
          let self := set_detour_ticks 0 self in
          let self := set_stuck_dir_idx (_stuck_dir_idx self + 1) self in
          let self := set_stuck_count 3 self in
          let self := set_prev player_x player_y self in
          _start_detour self dx dy
        else
          let self := set_detour_ticks (_detour_ticks self - 1) self in
          let self := set_prev player_x player_y self in
          if decide (_detour_ticks self > 0) then (_detour_dir self, self)
          else stuck_detection self player_x player_y dx dy
      else stuck_detection self player_x player_y dx dy
  end.

(** [Navigator.distance_remaining] *)
Definition distance_remaining (self : Navigator) (player_x player_y : Z) : Z :=
  match target self with
  | None => 0
  | Some (tx, ty) => Z.abs (tx - player_x) + Z.abs (ty - player_y)
  end.

(** Feeding a list of successive player positions on one map to
    [get_next_direction], keeping the last answer. *)
Fixpoint walk (self : Navigator) (current_map : Z) (positions : list (Z * Z))
  : option Direction * Navigator :=
  match positions with
  | [] => (None, self)
  | [(x, y)] => get_next_direction self x y current_map
  | (x, y) :: rest => walk (snd (get_next_direction self x y current_map)) current_map rest
  end.

(** *** Conditions used to state the properties *)

(** Navigation is under way: [self.active and self.target]. *)
Definition navigating (self : Navigator) : Prop :=
  active self = true ∧ target self ≠ None.

(** Chebyshev distance from the player to the target, [0] without target. *)
Definition chebyshev (self : Navigator) (player_x player_y : Z) : Z :=
  match target self with
  | None => 0
  | Some (tx, ty) => Z.max (Z.abs (tx - player_x)) (Z.abs (ty - player_y))
  end.

(** The value of [_stuck_count] after the stuck-detection step. *)
Definition stuck_count_after (self : Navigator) (player_x player_y : Z) : Z :=
  if decide (player_x = _prev_x self ∧ player_y = _prev_y self)
  then _stuck_count self + 1 else 0.

(** The call reaches the give-up test: it neither continues a detour nor
    starts one.  A detour in its last tick that is not blocked ends in this
    call, after [_prev_x, _prev_y] were set to the player position. *)
Definition no_detour_this_call (self : Navigator) (player_x player_y : Z) : Prop :=
  if decide (_detour_ticks self > 0)
  then ¬ (player_x = _prev_x self ∧ player_y = _prev_y self)
       ∧ _detour_ticks self = 1 ∧ _stuck_count self + 1 < 3
  else stuck_count_after self player_x player_y < 3.

(** The landmark stored under a map and a key, when both lookups hit. *)
Definition registry_lookup (data : gmap string MapData) (map_id : Z) (key : string)
  : option Landmark :=
  map_data ← data !! py.str map_id;
  landmarks ← md_landmarks map_data;
  landmarks !! key.

(** A running detour has a direction. *)
Definition detour_wf (self : Navigator) : Prop :=
  _detour_ticks self > 0 → is_Some (_detour_dir self).

(** The detour length prescribed for a cumulative stuck count. *)
Definition detour_length (total_stuck : Z) : Z := Z.min (3 + 2 * total_stuck) 12.

(** *** A walk that ends in the give-up branch

    The registry has one map, "1", with one landmark at (10, 0).  The player
    starts at (0, 0) and either stands still or steps to the left. *)

Definition demo_registry : gmap string MapData :=
  {[ "1" := {| md_name := Some "Pallet Town";
               md_landmarks :=
                 Some {[ "lab" := {| lm_x := 10; lm_y := 0; lm_label := None |} ]} |} ]}.

Definition demo_start : Navigator := snd (set_target (init demo_registry) 1 "lab").

Fixpoint positions_from (x : Z) (moves : list bool) : list (Z * Z) :=
  match moves with
  | [] => []
  | b :: rest =>
    let x' := if b : bool then x - 1 else x in
    (x', 0) :: positions_from x' rest
  end.

(** Stand still until the first detour starts; then, fourteen times, walk
    for the whole detour and stand still twice, which starts the next one;
    at last walk eleven of the twelve ticks of the fifteenth detour. *)
Definition give_up_moves : list bool :=
  replicate 4 false ++
  concat (map (λ k, replicate (Z.to_nat (detour_length k)) true ++ [false; false])
              (map Z.of_nat (seq 1 14))) ++
  replicate 11 true.

Definition give_up_state : Navigator :=
  snd (walk demo_start 1 (positions_from 0 give_up_moves)).

(** *** Further methods and notions *)

(** A running detour is blocked: the player is where the previous call
    recorded it, the first branch under "If mid-detour". *)
Definition detour_blocked (self : Navigator) (player_x player_y : Z) : Prop :=
  _detour_ticks self > 0 ∧ player_x = _prev_x self ∧ player_y = _prev_y self.

(** The call reaches the test [self._stuck_count >= 3] and passes it.  With
    no detour running, the count is increased if the player has not moved.
    A running detour that is not blocked must end in this call; the position
    has then just been recorded, so the count is increased. *)
Definition stuck_three_calls (self : Navigator) (player_x player_y : Z) : Prop :=
  if decide (_detour_ticks self > 0)
  then ¬ (player_x = _prev_x self ∧ player_y = _prev_y self)
       ∧ _detour_ticks self - 1 <= 0 ∧ _stuck_count self + 1 >= 3
  else stuck_count_after self player_x player_y >= 3.

(** The call runs [_start_detour]: navigation is under way on the target's
    map, more than one tile from the target, and the running detour is
    blocked or the stuck test is passed. *)
Definition starts_detour (self : Navigator) (player_x player_y current_map : Z) : Prop :=
  navigating self ∧ current_map = target_map self
  ∧ chebyshev self player_x player_y > 1
  ∧ (detour_blocked self player_x player_y ∨ stuck_three_calls self player_x player_y).

(** The states that a navigator goes through: it is constructed, and then
    any of its three state-changing methods is called any number of times. *)
Inductive reachable : Navigator → Prop :=
| reachable_init data : reachable (init data)
| reachable_set_target self map_id landmark_key :
    reachable self → reachable (snd (set_target self map_id landmark_key))
| reachable_get_next_direction self x y current_map :
    reachable self → reachable (snd (get_next_direction self x y current_map))
| reachable_cancel self :
    reachable self → reachable (cancel self).

(** What holds in every reachable state. *)
Definition bounded (self : Navigator) : Prop :=
  0 <= _detour_ticks self <= 12
  ∧ 0 <= _total_stuck self <= 15
  ∧ 0 <= _stuck_count self <= 2
  ∧ (_detour_ticks self > 0 → _stuck_count self = 0 ∧ is_Some (_detour_dir self))
  ∧ (active self = true → target self ≠ None)
  ∧ (active self = true → _total_stuck self >= 15 → _detour_ticks self > 0).

(** The other direction of a perpendicular pair. *)
Definition opposite (d : Direction) : Direction :=
  match d with
  | UP => DOWN
  | DOWN => UP
  | LEFT => RIGHT
  | RIGHT => LEFT
  end.

(** The player is at [(x, y)] on the target's map, more than one tile from
    the target, and either no detour runs and fewer than 15 stuck events are
    counted, or a detour runs and the player stands where it stood at the
    previous call. *)
Definition standing (self : Navigator) (x y current_map : Z) : Prop :=
  navigating self
  ∧ current_map = target_map self
  ∧ chebyshev self x y > 1
  ∧ ((_detour_ticks self <= 0 ∧ _total_stuck self < 15)
     ∨ (_detour_ticks self > 0 ∧ x = _prev_x self ∧ y = _prev_y self)).

(** [standing] in a walk that began at [set_target]: at most one stuck event
    is counted, and none before the first detour. *)
Definition standing_still (self : Navigator) (x y current_map : Z) : Prop :=
  standing self x y current_map
  ∧ 0 <= _total_stuck self <= 1
  ∧ (_detour_ticks self <= 0 → _total_stuck self = 0).

End navigator.

(** ** battle_manager.py *)

Module battle_manager.

(** [SPECIES_TYPES]: species name to its one or two types. *)
Definition SPECIES_TYPES_items : list (string * list string) :=
  [ ("Bulbasaur", ["Grass"; "Poison"]); ("Ivysaur", ["Grass"; "Poison"]);
    ("Venusaur", ["Grass"; "Poison"]); ("Charmander", ["Fire"]);
    ("Charmeleon", ["Fire"]); ("Charizard", ["Fire"; "Flying"]); ("Squirtle", ["Water"]);
    ("Wartortle", ["Water"]); ("Blastoise", ["Water"]); ("Caterpie", ["Bug"]);
    ("Metapod", ["Bug"]); ("Butterfree", ["Bug"; "Flying"]);
    ("Weedle", ["Bug"; "Poison"]); ("Kakuna", ["Bug"; "Poison"]);
    ("Beedrill", ["Bug"; "Poison"]); ("Pidgey", ["Normal"; "Flying"]);
    ("Pidgeotto", ["Normal"; "Flying"]); ("Pidgeot", ["Normal"; "Flying"]);
    ("Rattata", ["Normal"]); ("Raticate", ["Normal"]); ("Spearow", ["Normal"; "Flying"]);
    ("Fearow", ["Normal"; "Flying"]); ("Ekans", ["Poison"]); ("Arbok", ["Poison"]);
    ("Pikachu", ["Electric"]); ("Raichu", ["Electric"]); ("Sandshrew", ["Ground"]);
    ("Sandslash", ["Ground"]); ("Nidoran-F", ["Poison"]); ("Nidorina", ["Poison"]);
    ("Nidoqueen", ["Poison"; "Ground"]); ("Nidoran-M", ["Poison"]);
    ("Nidorino", ["Poison"]); ("Nidoking", ["Poison"; "Ground"]);
    ("Clefairy", ["Normal"]); ("Clefable", ["Normal"]); ("Vulpix", ["Fire"]);
    ("Ninetales", ["Fire"]); ("Jigglypuff", ["Normal"]); ("Wigglytuff", ["Normal"]);
    ("Zubat", ["Poison"; "Flying"]); ("Golbat", ["Poison"; "Flying"]);
    ("Oddish", ["Grass"; "Poison"]); ("Gloom", ["Grass"; "Poison"]);
    ("Vileplume", ["Grass"; "Poison"]); ("Paras", ["Bug"; "Grass"]);
    ("Parasect", ["Bug"; "Grass"]); ("Venonat", ["Bug"; "Poison"]);
    ("Venomoth", ["Bug"; "Poison"]); ("Diglett", ["Ground"]); ("Dugtrio", ["Ground"]);
    ("Meowth", ["Normal"]); ("Persian", ["Normal"]); ("Psyduck", ["Water"]);
    ("Golduck", ["Water"]); ("Mankey", ["Fighting"]); ("Primeape", ["Fighting"]);
    ("Growlithe", ["Fire"]); ("Arcanine", ["Fire"]); ("Poliwag", ["Water"]);
    ("Poliwhirl", ["Water"]); ("Poliwrath", ["Water"; "Fighting"]);
    ("Abra", ["Psychic"]); ("Kadabra", ["Psychic"]); ("Alakazam", ["Psychic"]);
    ("Machop", ["Fighting"]); ("Machoke", ["Fighting"]); ("Machamp", ["Fighting"]);
    ("Bellsprout", ["Grass"; "Poison"]); ("Weepinbell", ["Grass"; "Poison"]);
    ("Victreebel", ["Grass"; "Poison"]); ("Tentacool", ["Water"; "Poison"]);
    ("Tentacruel", ["Water"; "Poison"]); ("Geodude", ["Rock"; "Ground"]);
    ("Graveler", ["Rock"; "Ground"]); ("Golem", ["Rock"; "Ground"]);
    ("Ponyta", ["Fire"]); ("Rapidash", ["Fire"]); ("Slowpoke", ["Water"; "Psychic"]);
    ("Slowbro", ["Water"; "Psychic"]); ("Magnemite", ["Electric"; "Steel"]);
    ("Magneton", ["Electric"; "Steel"]); ("Farfetch'd", ["Normal"; "Flying"]);
    ("Doduo", ["Normal"; "Flying"]); ("Dodrio", ["Normal"; "Flying"]);
    ("Seel", ["Water"]); ("Dewgong", ["Water"; "Ice"]); ("Grimer", ["Poison"]);
    ("Muk", ["Poison"]); ("Shellder", ["Water"]); ("Cloyster", ["Water"; "Ice"]);
    ("Gastly", ["Ghost"; "Poison"]); ("Haunter", ["Ghost"; "Poison"]);
    ("Gengar", ["Ghost"; "Poison"]); ("Onix", ["Rock"; "Ground"]);
    ("Drowzee", ["Psychic"]); ("Hypno", ["Psychic"]); ("Krabby", ["Water"]);
    ("Kingler", ["Water"]); ("Voltorb", ["Electric"]); ("Electrode", ["Electric"]);
    ("Exeggcute", ["Grass"; "Psychic"]); ("Exeggutor", ["Grass"; "Psychic"]);
    ("Cubone", ["Ground"]); ("Marowak", ["Ground"]); ("Hitmonlee", ["Fighting"]);
    ("Hitmonchan", ["Fighting"]); ("Lickitung", ["Normal"]); ("Koffing", ["Poison"]);
    ("Weezing", ["Poison"]); ("Rhyhorn", ["Ground"; "Rock"]);
    ("Rhydon", ["Ground"; "Rock"]); ("Chansey", ["Normal"]); ("Tangela", ["Grass"]);
    ("Kangaskhan", ["Normal"]); ("Horsea", ["Water"]); ("Seadra", ["Water"]);
    ("Goldeen", ["Water"]); ("Seaking", ["Water"]); ("Staryu", ["Water"]);
    ("Starmie", ["Water"; "Psychic"]); ("Mr. Mime", ["Psychic"]);
    ("Scyther", ["Bug"; "Flying"]); ("Jynx", ["Ice"; "Psychic"]);
    ("Electabuzz", ["Electric"]); ("Magmar", ["Fire"]); ("Pinsir", ["Bug"]);
    ("Tauros", ["Normal"]); ("Magikarp", ["Water"]); ("Gyarados", ["Water"; "Flying"]);
    ("Lapras", ["Water"; "Ice"]); ("Ditto", ["Normal"]); ("Eevee", ["Normal"]);
    ("Vaporeon", ["Water"]); ("Jolteon", ["Electric"]); ("Flareon", ["Fire"]);
    ("Porygon", ["Normal"]); ("Omanyte", ["Rock"; "Water"]);
    ("Omastar", ["Rock"; "Water"]); ("Kabuto", ["Rock"; "Water"]);
    ("Kabutops", ["Rock"; "Water"]); ("Aerodactyl", ["Rock"; "Flying"]);
    ("Snorlax", ["Normal"]); ("Articuno", ["Ice"; "Flying"]);
    ("Zapdos", ["Electric"; "Flying"]); ("Moltres", ["Fire"; "Flying"]);
    ("Dratini", ["Dragon"]); ("Dragonair", ["Dragon"]);
    ("Dragonite", ["Dragon"; "Flying"]); ("Mewtwo", ["Psychic"]); ("Mew", ["Psychic"]) ].

Definition SPECIES_TYPES : gmap string (list string) := list_to_map SPECIES_TYPES_items.

(** [MOVE_TYPES]: move name to its type. *)
Definition MOVE_TYPES_items : list (string * string) :=
  [ ("Tackle", "Normal"); ("Scratch", "Normal"); ("Pound", "Normal"); ("Slam", "Normal");
    ("Body Slam", "Normal"); ("Take Down", "Normal"); ("Double-Edge", "Normal");
    ("Hyper Beam", "Normal"); ("Quick Attack", "Normal"); ("Slash", "Normal");
    ("Headbutt", "Normal"); ("Strength", "Normal"); ("Cut", "Normal");
    ("Swift", "Normal"); ("Ember", "Fire"); ("Flamethrower", "Fire");
    ("Fire Blast", "Fire"); ("Fire Punch", "Fire"); ("Fire Spin", "Fire");
    ("Flame Wheel", "Fire"); ("Water Gun", "Water"); ("Surf", "Water");
    ("Hydro Pump", "Water"); ("Bubble", "Water"); ("Bubble Beam", "Water");
    ("Waterfall", "Water"); ("Water Pulse", "Water"); ("Thunder Shock", "Electric");
    ("Thunderbolt", "Electric"); ("Thunder", "Electric"); ("Thunder Punch", "Electric");
    ("Thunder Wave", "Electric"); ("Spark", "Electric"); ("Vine Whip", "Grass");
    ("Razor Leaf", "Grass"); ("Solar Beam", "Grass"); ("Mega Drain", "Grass");
    ("Giga Drain", "Grass"); ("Absorb", "Grass"); ("Leech Seed", "Grass");
    ("Bullet Seed", "Grass"); ("Leaf Blade", "Grass"); ("Ice Beam", "Ice");
    ("Blizzard", "Ice"); ("Ice Punch", "Ice"); ("Aurora Beam", "Ice");
    ("Powder Snow", "Ice"); ("Icy Wind", "Ice"); ("Karate Chop", "Fighting");
    ("Low Kick", "Fighting"); ("Submission", "Fighting"); ("Seismic Toss", "Fighting");
    ("Cross Chop", "Fighting"); ("Brick Break", "Fighting"); ("Mach Punch", "Fighting");
    ("Dynamic Punch", "Fighting"); ("Poison Sting", "Poison"); ("Sludge", "Poison");
    ("Sludge Bomb", "Poison"); ("Toxic", "Poison"); ("Acid", "Poison");
    ("Poison Powder", "Poison"); ("Earthquake", "Ground"); ("Dig", "Ground");
    ("Mud-Slap", "Ground"); ("Bone Club", "Ground"); ("Bonemerang", "Ground");
    ("Mud Shot", "Ground"); ("Gust", "Flying"); ("Wing Attack", "Flying");
    ("Fly", "Flying"); ("Drill Peck", "Flying"); ("Peck", "Flying");
    ("Aerial Ace", "Flying"); ("Sky Attack", "Flying"); ("Confusion", "Psychic");
    ("Psychic", "Psychic"); ("Psybeam", "Psychic"); ("Hypnosis", "Psychic");
    ("Dream Eater", "Psychic"); ("Extrasensory", "Psychic"); ("Leech Life", "Bug");
    ("Pin Missile", "Bug"); ("Twineedle", "Bug"); ("Signal Beam", "Bug");
    ("Silver Wind", "Bug"); ("Rock Throw", "Rock"); ("Rock Slide", "Rock");
    ("Rock Tomb", "Rock"); ("Ancient Power", "Rock"); ("Rock Blast", "Rock");
    ("Lick", "Ghost"); ("Shadow Ball", "Ghost"); ("Night Shade", "Ghost");
    ("Shadow Punch", "Ghost"); ("Astonish", "Ghost"); ("Dragon Rage", "Dragon");
    ("Dragon Breath", "Dragon"); ("Dragon Claw", "Dragon"); ("Outrage", "Dragon");
    ("Twister", "Dragon"); ("Bite", "Dark"); ("Crunch", "Dark"); ("Pursuit", "Dark");
    ("Thief", "Dark"); ("Faint Attack", "Dark"); ("Steel Wing", "Steel");
    ("Iron Tail", "Steel"); ("Metal Claw", "Steel"); ("Meteor Mash", "Steel");
    ("Iron Defense", "Steel") ].

Definition MOVE_TYPES : gmap string string := list_to_map MOVE_TYPES_items.

(** An entry of [GameState.party], with the keys that [BattleManager] reads.
    [memory_reader.GameState.read] stores every one of them, so the defaults
    of [p.get(key, default)] are never used. *)
Record PartyMember := {
  species_name : string;
  hp_current : Z;
  hp_max : Z;
  moves : list string
}.

(** The attributes of [memory_reader.GameState] that [BattleManager] reads.
    [update] compares [in_battle] with integers (0 none, 1 wild, 2 trainer);
    a Python [bool] is the integer 0 or 1. *)
Record GameState := {
  gs_in_battle : Z;
  gs_party : list PartyMember;
  gs_money : Z
}.

(** The attributes of a [BattleManager] object.  [type_chart] is the content
    of [data/type_chart.json]: attacking type, then defending type, to the
    multiplier. *)
Record BattleManager := {
  in_battle : bool;
  battle_type : Z;
  battle_turns : Z;
  battles_won : Z;
  battles_fled : Z;
  whiteouts : Z;
  prev_money : Z;
  prev_party_hp : list (Z * Z);
  type_chart : gmap string (gmap string float)
}.

(** [BattleManager.__init__], given the table read by [_load_type_chart]
    (empty when the file cannot be read). *)
Definition init (chart : gmap string (gmap string float)) : BattleManager := {|
  in_battle := false;
  battle_type := 0;
  battle_turns := 0;
  battles_won := 0;
  battles_fled := 0;
  whiteouts := 0;
  prev_money := 0;
  prev_party_hp := [];
  type_chart := chart
|}.

(** [all(p.get("hp_current", 0) == 0 for p in party) if party else False] *)
Definition all_fainted (party : list PartyMember) : bool :=
  match party with
  | [] => false
  | _ => forallb (λ p, bool_decide (hp_current p = 0)) party
  end.

(** [BattleManager.update]; the result is the [events] dictionary. *)
Definition update (self : BattleManager) (game_state : GameState)
  : gmap string string * BattleManager :=
  let new_battle := gs_in_battle game_state in
  if negb (in_battle self) && bool_decide (new_battle > 0) then
    ({[ "battle_start" := if decide (new_battle = 1) then "wild" else "trainer" ]},
     {| in_battle := true;
        battle_type := new_battle;
        battle_turns := 0;
        battles_won := battles_won self;
        battles_fled := battles_fled self;
        whiteouts := whiteouts self;
        prev_money := gs_money game_state;
        prev_party_hp := map (λ p, (hp_current p, hp_max p)) (gs_party game_state);
        type_chart := type_chart self |})
  else if in_battle self && bool_decide (new_battle = 0) then
    if all_fainted (gs_party game_state)
       || bool_decide (gs_money game_state < prev_money self) then
      ({[ "battle_end" := "whiteout" ]},
       {| in_battle := false;
          battle_type := 0;
          battle_turns := battle_turns self;
          battles_won := battles_won self;
          battles_fled := battles_fled self;
          whiteouts := whiteouts self + 1;
          prev_money := prev_money self;
          prev_party_hp := prev_party_hp self;
          type_chart := type_chart self |})
    else
      ({[ "battle_end" := "won" ]},
       {| in_battle := false;
          battle_type := 0;
          battle_turns := battle_turns self;
          battles_won := battles_won self + 1;
          battles_fled := battles_fled self;
          whiteouts := whiteouts self;
          prev_money := prev_money self;
          prev_party_hp := prev_party_hp self;
          type_chart := type_chart self |})
  else if in_battle self then
    (∅,
     {| in_battle := in_battle self;
        battle_type := battle_type self;
        battle_turns := battle_turns self + 1;
        battles_won := battles_won self;
        battles_fled := battles_fled self;
        whiteouts := whiteouts self;
        prev_money := prev_money self;
        prev_party_hp := prev_party_hp self;
        type_chart := type_chart self |})
  else (∅, self).

(** [BattleManager.get_type_effectiveness].  [multiplier *= matchups[dtype]]
    is a binary64 multiplication. *)
Definition get_type_effectiveness (self : BattleManager)
    (attack_type : string) (defend_types : list string) : float :=
  if negb (py.dict_truthy (type_chart self)) || negb (py.truthy attack_type) then 1%float
  else
    let matchups := default ∅ (type_chart self !! attack_type) in
    fold_left
      (λ multiplier dtype,
         match matchups !! dtype with
         | Some factor => (multiplier * factor)%float
         | None => multiplier
         end)
      defend_types 1%float.

(** The value of [f"Use {best_move} (super effective x{best_effectiveness}!)"],
    kept as the two values that the format string prints. *)
Record Suggestion := {
  sg_move : string;
  sg_effectiveness : float
}.

(** One iteration of the loop of [recommend_move] over [moves]; the state is
    [(best_move, best_effectiveness)]. *)
Definition consider_move (self : BattleManager) (enemy_types : list string)
    (best : option string * float) (move_name : string) : option string * float :=
  if negb (py.truthy move_name) || String.eqb move_name "---" then best
  else
    match MOVE_TYPES !! move_name with
    | None => best
    | Some move_type =>
      if negb (py.truthy move_type) then best
      else
        let effectiveness := get_type_effectiveness self move_type enemy_types in
        if (snd best <? effectiveness)%float then (Some move_name, effectiveness)
        else best
    end.

(** [BattleManager.recommend_move].  The initial [best_effectiveness = 0] is
    compared with floats only, so it is the float zero. *)
Definition recommend_move (self : BattleManager)
    (party_pokemon : PartyMember) (enemy_name : string) : option Suggestion :=
  let enemy_types := default [] (SPECIES_TYPES !! enemy_name) in
  match enemy_types with
  | [] => None
  | _ :: _ =>
    let '(best_move, best_effectiveness) :=
      fold_left (consider_move self enemy_types) (moves party_pokemon) (None, 0%float) in
    match best_move with
    | Some name =>
      if py.truthy name && (1 <? best_effectiveness)%float
      then Some {| sg_move := name; sg_effectiveness := best_effectiveness |}
      else None
    | None => None
    end
  end.

(** *** Notions used to state the properties *)

(** The multiplier that the table holds for an attacking and a defending
    type, when the row and the entry exist. *)
Definition table_factor (chart : gmap string (gmap string float))
    (attack_type dtype : string) : option float :=
  row ← chart !! attack_type; row !! dtype.

(** The product of a list of multipliers, starting from 1.0. *)
Definition product (factors : list float) : float :=
  fold_left PrimFloat.mul factors 1%float.

(** The effectiveness that [recommend_move] computes for a move slot: none
    for an empty slot and for a move whose type is not known. *)
Definition rating (self : BattleManager) (enemy_types : list string)
    (move_name : string) : option float :=
  if py.truthy move_name && negb (String.eqb move_name "---") then
    move_type ← MOVE_TYPES !! move_name;
    if py.truthy move_type
    then Some (get_type_effectiveness self move_type enemy_types)
    else None
  else None.


(** What the loop of [recommend_move] has established after the slots
    [seen]: without a best move no rated slot exceeds zero; with a best move
    [name], it sits in [seen] with its rating, which is positive, no rated
    slot before it reaches that rating and none after it exceeds it. *)
Definition best_so_far (self : BattleManager) (enemy_types : list string)
    (seen : list string) (best : option string * float) : Prop :=
  match fst best with
  | None =>
    snd best = 0%float
    ∧ ∀ m e, m ∈ seen → rating self enemy_types m = Some e → (0 <? e)%float = false
  | Some name =>
    (0 <? snd best)%float = true
    ∧ ∃ before after,
        seen = before ++ name :: after
        ∧ rating self enemy_types name = Some (snd best)
        ∧ (∀ m e, m ∈ before → rating self enemy_types m = Some e →
             (snd best <=? e)%float = false)
        ∧ (∀ m e, m ∈ after → rating self enemy_types m = Some e →
             (snd best <? e)%float = false)
  end.

(** *** Sample data *)

(** A table with the two entries Water/Fire and Water/Flying. *)
Definition water_chart : gmap string (gmap string float) :=
  {[ "Water" := {[ "Fire" := 2%float; "Flying" := 1%float ]} ]}.


(** *** Runs of snapshots *)

(** The tracker after a run of snapshots, one [update] each, with the
    events of every call. *)
Fixpoint run (self : BattleManager) (snapshots : list GameState)
  : list (gmap string string) * BattleManager :=
  match snapshots with
  | [] => ([], self)
  | game_state :: rest =>
    let '(events, self) := update self game_state in
    let '(more, self) := run self rest in
    (events :: more, self)
  end.

(** The number of calls whose events have the given key. *)
Definition count_events (key : string) (log : list (gmap string string)) : Z :=
  Z.of_nat (length (filter (λ events, is_Some (events !! key)) log)).

End battle_manager.

(** ** goal_planner.py *)

Module goal_planner.

Inductive GoalStatus := PENDING | ACTIVE | IN_PROGRESS | COMPLETED | FAILED | BLOCKED.

#[global] Instance GoalStatus_eq_dec : EqDecision GoalStatus.
Proof. solve_decision. Defined.

(** The dataclass [Goal].  A timestamp is the ordinal of the reading of
    [time.time()] that produced it. *)
Record Goal := {
  id : string;
  name : string;
  description : string;
  status : GoalStatus;
  priority : Z;
  parent_id : option string;
  children_ids : list string;
  prerequisites : list string;
  notes : list string;
  attempts : Z;
  max_attempts : Z;
  created_at : nat;
  completed_at : option nat
}.

(** Assignments to single attributes of a goal. *)
Definition set_status (s : GoalStatus) (g : Goal) : Goal := {|
  id := id g; name := name g; description := description g;
  status := s;
  priority := priority g; parent_id := parent_id g;
  children_ids := children_ids g; prerequisites := prerequisites g;
  notes := notes g; attempts := attempts g; max_attempts := max_attempts g;
  created_at := created_at g; completed_at := completed_at g
|}.

Definition set_completed_at (t : option nat) (g : Goal) : Goal := {|
  id := id g; name := name g; description := description g;
  status := status g;
  priority := priority g; parent_id := parent_id g;
  children_ids := children_ids g; prerequisites := prerequisites g;
  notes := notes g; attempts := attempts g; max_attempts := max_attempts g;
  created_at := created_at g; completed_at := t
|}.

Definition set_attempts (n : Z) (g : Goal) : Goal := {|
  id := id g; name := name g; description := description g;
  status := status g;
  priority := priority g; parent_id := parent_id g;
  children_ids := children_ids g; prerequisites := prerequisites g;
  notes := notes g; attempts := n; max_attempts := max_attempts g;
  created_at := created_at g; completed_at := completed_at g
|}.

(** [g.notes.append(note)] *)
Definition append_note (note : string) (g : Goal) : Goal := {|
  id := id g; name := name g; description := description g;
  status := status g;
  priority := priority g; parent_id := parent_id g;
  children_ids := children_ids g; prerequisites := prerequisites g;
  notes := notes g ++ [note]; attempts := attempts g; max_attempts := max_attempts g;
  created_at := created_at g; completed_at := completed_at g
|}.

(** [g.children_ids.append(cid)] *)
Definition append_child (cid : string) (g : Goal) : Goal := {|
  id := id g; name := name g; description := description g;
  status := status g;
  priority := priority g; parent_id := parent_id g;
  children_ids := children_ids g ++ [cid]; prerequisites := prerequisites g;
  notes := notes g; attempts := attempts g; max_attempts := max_attempts g;
  created_at := created_at g; completed_at := completed_at g
|}.

(** The document that [_save] writes to [PLANS_FILE]: the counter and every
    goal, in the order of the dictionary. *)
Record Document := {
  doc_counter : Z;
  doc_goals : gmap string Goal;
  doc_order : list string
}.

(** A [GoalPlanner] object with its environment: the dictionary [goals]
    (the map and the insertion order of its keys), the id counter, the
    content of [PLANS_FILE] ([None] while the file does not exist) and the
    number of readings of the clock so far. *)
Record GoalPlanner := {
  goals : gmap string Goal;
  order : list string;
  _id_counter : Z;
  plans_file : option Document;
  clock : nat
}.

(** [GoalPlanner.__init__] when [PLANS_FILE] does not exist. *)
Definition empty : GoalPlanner := {|
  goals := ∅; order := []; _id_counter := 0; plans_file := None; clock := 0
|}.

(** [self.goals.values()], each value with its key. *)
Definition entries (self : GoalPlanner) : list (string * Goal) :=
  omap (λ k, g ← goals self !! k; Some (k, g)) (order self).

(** [self.goals[k] = g]: a new key goes to the end of the order. *)
Definition dict_set (k : string) (g : Goal) (self : GoalPlanner) : GoalPlanner := {|
  goals := <[k := g]> (goals self);
  order := match goals self !! k with
           | Some _ => order self
           | None => order self ++ [k]
           end;
  _id_counter := _id_counter self;
  plans_file := plans_file self;
  clock := clock self
|}.

(** An assignment to attributes of the goal object stored under [k]. *)
Definition update_goal (k : string) (g : Goal) (self : GoalPlanner) : GoalPlanner := {|
  goals := <[k := g]> (goals self);
  order := order self;
  _id_counter := _id_counter self;
  plans_file := plans_file self;
  clock := clock self
|}.

(** [time.time()] *)
Definition time_time (self : GoalPlanner) : nat * GoalPlanner :=
  (clock self,
   {| goals := goals self; order := order self; _id_counter := _id_counter self;
      plans_file := plans_file self; clock := S (clock self) |}).

(** [GoalPlanner._save] *)
Definition _save (self : GoalPlanner) : GoalPlanner := {|
  goals := goals self;
  order := order self;
  _id_counter := _id_counter self;
  plans_file := Some {| doc_counter := _id_counter self;
                        doc_goals := goals self;
                        doc_order := order self |};
  clock := clock self
|}.

(** [GoalPlanner._next_id] *)
Definition _next_id (self : GoalPlanner) : string * GoalPlanner :=
  let counter := _id_counter self + 1 in
  ("goal_" +:+ py.str counter,
   {| goals := goals self; order := order self; _id_counter := counter;
      plans_file := plans_file self; clock := clock self |}).

(** [GoalPlanner.add_goal].  [prerequisites=None] is the empty list. *)
Definition add_goal (self : GoalPlanner) (name description : string) (priority : Z)
    (parent_id : option string) (prerequisites : list string) : string * GoalPlanner :=
  let '(goal_id, self) := _next_id self in
  let '(now, self) := time_time self in
  let goal := {|
    id := goal_id; name := name; description := description;
    status := PENDING; priority := priority; parent_id := parent_id;
    children_ids := []; prerequisites := prerequisites; notes := [];
    attempts := 0; max_attempts := 10;
    created_at := now; completed_at := None |} in
  let self := dict_set goal_id goal self in
  let self :=
    match parent_id with
    | Some pid =>
      if py.truthy pid then
        match goals self !! pid with
        | Some parent => update_goal pid (append_child goal_id parent) self
        | None => self
        end
      else self
    | None => self
    end in
  (goal_id, _save self).

(** [all(self.goals[cid].status == COMPLETED
         for cid in parent.children_ids if cid in self.goals)] *)
Definition children_completed (gs : gmap string Goal) (parent : Goal) : bool :=
  forallb
    (λ cid, match gs !! cid with
            | Some child => bool_decide (status child = COMPLETED)
            | None => true
            end)
    (children_ids parent).

(** [GoalPlanner.complete_goal].  [depth] is the number of nested calls that
    the interpreter still allows; the result is [None] when the recursion
    would go deeper (a [RecursionError]). *)
Fixpoint complete_goal (depth : nat) (self : GoalPlanner) (goal_id notes : string)
  : option GoalPlanner :=
  match goals self !! goal_id with
  | None => Some self
  | Some goal =>
    let goal := set_status COMPLETED goal in
    let '(now, self) := time_time self in
    let goal := set_completed_at (Some now) goal in
    let goal :=
      if py.truthy notes then append_note ("Completed: " +:+ notes) goal else goal in
    let self := update_goal goal_id goal self in
    let cascade :=
      match parent_id goal with
      | Some pid =>
        if py.truthy pid then
          match goals self !! pid with
          | Some parent =>
            if children_completed (goals self) parent then
              match depth with
              | O => None
              | S depth' => complete_goal depth' self (id parent) "All sub-goals completed"
              end
            else Some self
          | None => Some self
          end
        else Some self
      | None => Some self
      end in
    match cascade with
    | Some self => Some (_save self)
    | None => None
    end
  end.

(** [GoalPlanner.fail_goal] *)
Definition fail_goal (self : GoalPlanner) (goal_id reason : string) : GoalPlanner :=
  match goals self !! goal_id with
  | None => self
  | Some goal =>
    let goal := set_attempts (attempts goal + 1) goal in
    let goal :=
      if decide (attempts goal >= max_attempts goal) then
        append_note ("Failed permanently: " +:+ reason) (set_status FAILED goal)
      else
        append_note ("Attempt " +:+ py.str (attempts goal) +:+ " failed: " +:+ reason)
                    (set_status PENDING goal) in
    _save (update_goal goal_id goal self)
  end.

(** [GoalPlanner.block_goal] *)
Definition block_goal (self : GoalPlanner) (goal_id reason : string) : GoalPlanner :=
  match goals self !! goal_id with
  | None => self
  | Some goal =>
    let goal := append_note ("Blocked: " +:+ reason) (set_status BLOCKED goal) in
    _save (update_goal goal_id goal self)
  end.

(** [GoalPlanner._prerequisites_met] *)
Definition _prerequisites_met (self : GoalPlanner) (goal : Goal) : bool :=
  forallb
    (λ prereq_id, match goals self !! prereq_id with
                  | Some prereq => bool_decide (status prereq = COMPLETED)
                  | None => false
                  end)
    (prerequisites goal).

(** [goal.status in (GoalStatus.ACTIVE, GoalStatus.IN_PROGRESS)] *)
Definition is_active (goal : Goal) : bool :=
  bool_decide (status goal = ACTIVE) || bool_decide (status goal = IN_PROGRESS).

(** The loop of [_get_next_child] over the children ids; [descend] is the
    recursive call.  The answer is the key of the goal object returned. *)
Fixpoint next_child_loop (descend : Goal → option (option string * GoalPlanner))
    (self : GoalPlanner) (cids : list string) : option (option string * GoalPlanner) :=
  match cids with
  | [] => Some (None, self)
  | cid :: rest =>
    match goals self !! cid with
    | None => next_child_loop descend self rest
    | Some child =>
      if is_active child then
        match children_ids child with
        | [] => Some (Some cid, self)
        | _ :: _ =>
          match descend child with
          | None => None
          | Some (Some deeper, self') => Some (Some deeper, self')
          | Some (None, self') => Some (Some cid, self')
          end
        end
      else if bool_decide (status child = PENDING) && _prerequisites_met self child then
        Some (Some cid, _save (update_goal cid (set_status ACTIVE child) self))
      else next_child_loop descend self rest
    end
  end.

(** [GoalPlanner._get_next_child], with the recursion bounded as in
    [complete_goal]. *)
Fixpoint _get_next_child (depth : nat) (self : GoalPlanner) (parent : Goal)
  : option (option string * GoalPlanner) :=
  next_child_loop
    (match depth with
     | O => λ _, None
     | S depth' => _get_next_child depth' self
     end)
    self (children_ids parent).

(** [candidates.sort(key=lambda g: g.priority)]: a stable sort, ascending. *)
Fixpoint insert_by_priority (x : string * Goal) (sorted : list (string * Goal))
  : list (string * Goal) :=
  match sorted with
  | [] => [x]
  | y :: rest =>
    if decide (priority (snd x) <= priority (snd y)) then x :: sorted
    else y :: insert_by_priority x rest
  end.

Definition sort_by_priority (l : list (string * Goal)) : list (string * Goal) :=
  foldr insert_by_priority [] l.

(** [GoalPlanner._select_next_goal] *)
Definition _select_next_goal (self : GoalPlanner) : option string * GoalPlanner :=
  let candidates :=
    filter (λ kg, bool_decide (status (snd kg) = PENDING)
                  && negb (py.truthy_opt (parent_id (snd kg)))
                  && _prerequisites_met self (snd kg))
           (entries self) in
  match sort_by_priority candidates with
  | [] => (None, self)
  | (key, best) :: _ =>
    (Some key, _save (update_goal key (set_status ACTIVE best) self))
  end.

(** [GoalPlanner.get_current_goal] *)
Definition get_current_goal (depth : nat) (self : GoalPlanner)
  : option (option string * GoalPlanner) :=
  match List.find (λ kg, is_active (snd kg)) (entries self) with
  | Some (key, goal) =>
    match children_ids goal with
    | [] => Some (Some key, self)
    | _ :: _ =>
      match _get_next_child depth self goal with
      | None => None
      | Some (Some child, self') => Some (Some child, self')
      | Some (None, self') => Some (Some key, self')
      end
    end
  | None => Some (_select_next_goal self)
  end.

(** *** Notions used to state the properties *)

(** The status of the goal stored under a key. *)
Definition status_of (self : GoalPlanner) (key : string) : option GoalStatus :=
  status <$> goals self !! key.

(** Every goal is stored under its own id. *)
Definition ids_consistent (self : GoalPlanner) : Prop :=
  ∀ key goal, goals self !! key = Some goal → id goal = key.



(** Successive calls of [fail_goal] on one goal, one per reason. *)
Definition fail_goal_repeatedly (self : GoalPlanner) (goal_id : string)
    (reasons : list string) : GoalPlanner :=
  fold_left (λ self reason, fail_goal self goal_id reason) reasons self.

(** What a call leaves of a dictionary: the same keys, each goal with the
    same id, parent and children, and a status that is kept or has become
    [COMPLETED]. *)
Definition completes_only (gs gs' : gmap string Goal) : Prop :=
  ∀ key,
    match gs !! key, gs' !! key with
    | Some g, Some g' =>
      id g' = id g ∧ parent_id g' = parent_id g ∧ children_ids g' = children_ids g
      ∧ (status g' = status g ∨ status g' = COMPLETED)
    | None, None => True
    | _, _ => False
    end.

(** The first statements of [complete_goal]: the goal object after the
    assignments to [status], [completed_at] and [notes], stored back. *)
Definition mark_completed (self : GoalPlanner) (goal_id notes : string) (goal : Goal)
  : GoalPlanner :=
  let goal := set_status COMPLETED goal in
  let '(now, self) := time_time self in
  let goal := set_completed_at (Some now) goal in
  let goal :=
    if py.truthy notes then append_note ("Completed: " +:+ notes) goal else goal in
  update_goal goal_id goal self.

(** The parent that [complete_goal] goes on to complete, if any. *)
Definition cascade_target (self : GoalPlanner) (goal : Goal) : option Goal :=
  match parent_id goal with
  | Some pid =>
    if py.truthy pid then
      match goals self !! pid with
      | Some parent => if children_completed (goals self) parent then Some parent else None
      | None => None
      end
    else None
  | None => None
  end.

(** [promote self key goal]: the planner after [goal.status = ACTIVE] and
    [_save()], as done by [_get_next_child] and [_select_next_goal]. *)
Definition promote (self : GoalPlanner) (key : string) (goal : Goal) : GoalPlanner :=
  _save (update_goal key (set_status ACTIVE goal) self).

(** How [get_current_goal] arrives at the goal it returns: the goal was
    already active or in progress and nothing changed, or it was pending
    with its prerequisites met and has been promoted. *)
Definition selected (self : GoalPlanner) (key : string) (self' : GoalPlanner) : Prop :=
  (self' = self ∧ ∃ goal, goals self !! key = Some goal ∧ is_active goal = true)
  ∨ (∃ goal, goals self !! key = Some goal ∧ status goal = PENDING
       ∧ _prerequisites_met self goal = true ∧ self' = promote self key goal).

(** What a call that descends the tree answers: a selected goal, or nothing
    with the planner unchanged. *)
Definition descent_ok (self : GoalPlanner) (r : option string * GoalPlanner) : Prop :=
  match r with
  | (Some key, self') => selected self key self'
  | (None, self') => self' = self
  end.

(** *** Sample trees *)

(** A single pending goal. *)
Definition one_goal : GoalPlanner := snd (add_goal empty "A" "first" 5 None []).



(** A root with one child that has two children of its own. *)
Definition three_levels : GoalPlanner :=
  let '(root, self) := add_goal empty "root" "" 1 None [] in
  let '(mid, self) := add_goal self "mid" "" 5 (Some root) [] in
  let '(_, self) := add_goal self "leaf 1" "" 5 (Some mid) [] in
  let '(_, self) := add_goal self "leaf 2" "" 5 (Some mid) [] in
  self.


(** *** Calls and reachable states *)

(** One call of a state-changing method that returns normally. *)
Inductive step : GoalPlanner → GoalPlanner → Prop :=
| step_add_goal self name description priority parent_id prerequisites :
    step self (snd (add_goal self name description priority parent_id prerequisites))
| step_complete_goal depth self goal_id notes self' :
    complete_goal depth self goal_id notes = Some self' → step self self'
| step_fail_goal self goal_id reason :
    step self (fail_goal self goal_id reason)
| step_block_goal self goal_id reason :
    step self (block_goal self goal_id reason)
| step_get_current_goal depth self result self' :
    get_current_goal depth self = Some (result, self') → step self self'.

(** The states that a planner goes through, starting without plans file. *)
Inductive reachable : GoalPlanner → Prop :=
| reachable_empty : reachable empty
| reachable_step self self' : reachable self → step self self' → reachable self'.

(** What a call keeps of a goal: who it is, with attempts that do not
    decrease and children and notes that are only appended to. *)
Definition persists (g g' : Goal) : Prop :=
  id g' = id g ∧ name g' = name g ∧ description g' = description g
  ∧ priority g' = priority g ∧ parent_id g' = parent_id g
  ∧ prerequisites g' = prerequisites g
  ∧ max_attempts g' = max_attempts g ∧ created_at g' = created_at g
  ∧ attempts g <= attempts g'
  ∧ children_ids g `prefix_of` children_ids g'
  ∧ notes g `prefix_of` notes g'.

(** Every goal of [gs] is still in [gs'], as the same goal. *)
Definition all_persist (gs gs' : gmap string Goal) : Prop :=
  ∀ key g, gs !! key = Some g → ∃ g', gs' !! key = Some g' ∧ persists g g'.

(** The keys are the ids handed out so far. *)
Definition numbered (self : GoalPlanner) : Prop :=
  0 <= _id_counter self
  ∧ ∀ key, is_Some (goals self !! key) →
      ∃ n, 1 <= n <= _id_counter self ∧ key = "goal_" +:+ py.str n.

(** The plans file holds the planner as it is; before the first write
    there are no goals. *)
Definition in_sync (self : GoalPlanner) : Prop :=
  match plans_file self with
  | Some doc =>
    doc = {| doc_counter := _id_counter self; doc_goals := goals self;
             doc_order := order self |}
  | None => goals self = ∅ ∧ order self = [] ∧ _id_counter self = 0
  end.

(** The test of [_select_next_goal] on a goal of the dictionary. *)
Definition eligible (self : GoalPlanner) (kg : string * Goal) : bool :=
  bool_decide (status (snd kg) = PENDING)
  && negb (py.truthy_opt (parent_id (snd kg)))
  && _prerequisites_met self (snd kg).

(** What a call that adds no goal keeps: the counter, the order, the keys,
    and the id, parent and children of each goal. *)
Definition same_tree (self self' : GoalPlanner) : Prop :=
  _id_counter self' = _id_counter self ∧ order self' = order self
  ∧ ∀ key,
      match goals self !! key, goals self' !! key with
      | Some g, Some g' =>
        id g' = id g ∧ parent_id g' = parent_id g ∧ children_ids g' = children_ids g
      | None, None => True
      | _, _ => False
      end.

(** The children lists and the parent attributes agree: every id in the
    children of a goal is the key of a goal whose parent is that goal. *)
Definition children_linked (gs : gmap string Goal) : Prop :=
  ∀ pid parent cid,
    gs !! pid = Some parent → cid ∈ children_ids parent →
    ∃ child, gs !! cid = Some child ∧ parent_id child = Some pid.

(** The order lists every key once. *)
Definition listed (self : GoalPlanner) : Prop :=
  NoDup (order self) ∧ ∀ key, key ∈ order self ↔ is_Some (goals self !! key).

(** The plans file has just been written. *)
Definition written (self : GoalPlanner) : Prop :=
  plans_file self = Some {| doc_counter := _id_counter self;
                            doc_goals := goals self;
                            doc_order := order self |}.

(** The goal object that [add_goal] creates. *)
Definition new_goal (self : GoalPlanner) (name description : string) (priority : Z)
    (parent_id : option string) (prerequisites : list string) : Goal := {|
  id := "goal_" +:+ py.str (_id_counter self + 1);
  name := name; description := description;
  status := PENDING; priority := priority; parent_id := parent_id;
  children_ids := []; prerequisites := prerequisites; notes := [];
  attempts := 0; max_attempts := 10;
  created_at := clock self; completed_at := None |}.

(** A goal that was given its own id as parent. *)
Definition own_parent : GoalPlanner :=
  snd (add_goal empty "A" "first" 5 (Some "goal_1") []).

End goal_planner.

(** ** memory_reader.py *)

Module memory_reader.

(** [_decode_status]: [&] is the bitwise and of unbounded integers. *)
Definition _decode_status (status_byte : Z) : string :=
  if decide (status_byte = 0) then "OK"
  else if decide (Z.land status_byte 7 ≠ 0) then "SLP"
  else if decide (Z.land status_byte 8 ≠ 0) then "PSN"
  else if decide (Z.land status_byte 16 ≠ 0) then "BRN"
  else if decide (Z.land status_byte 32 ≠ 0) then "FRZ"
  else if decide (Z.land status_byte 64 ≠ 0) then "PAR"
  else if decide (Z.land status_byte 128 ≠ 0) then "TOX"
  else "OK".

(** An entry of [GameState.party] as [GameState.read] builds it, with the
    keys read by [PlayerStats] and [BattleManager]. *)
Record PartyEntry := {
  species_name : string;
  level : Z;
  hp_current : Z;
  hp_max : Z;
  moves : list string
}.

(** The dataclass [GameState], with the attributes read by [PlayerStats]
    and [BattleManager].  [in_battle] is a [bool]: [GameState.read] sets it
    to [battle_raw in (1, 2)]. *)
Record GameState := {
  player_x : Z;
  player_y : Z;
  money : Z;
  badge_count : Z;
  party : list PartyEntry;
  in_battle : bool;
  pokedex_seen : Z;
  pokedex_caught : Z
}.

(** The same snapshot as [BattleManager] reads it; there the [bool]
    [in_battle] is compared with integers, [True] being 1 and [False] 0. *)
Definition battle_view (game_state : GameState) : battle_manager.GameState := {|
  battle_manager.gs_in_battle := Z.b2z (in_battle game_state);
  battle_manager.gs_party :=
    map (λ p, {| battle_manager.species_name := species_name p;
                 battle_manager.hp_current := hp_current p;
                 battle_manager.hp_max := hp_max p;
                 battle_manager.moves := moves p |})
        (party game_state);
  battle_manager.gs_money := money game_state
|}.

End memory_reader.

(** ** player_stats.py *)

Module player_stats.

(** An entry of [action_history].  The observation is a [str] that is
    sliced by characters, so it is kept as the list of its code points. *)
Record ActionEntry := {
  ae_tick : Z;
  ae_action : string;
  ae_observation : list N;
  ae_phase : string
}.

(** The dataclass [PlayerStats]. *)
Record PlayerStats := {
  steps_taken : Z;
  _prev_x : Z;
  _prev_y : Z;
  pokemon_caught : Z;
  _prev_pokedex_caught : Z;
  highest_level : Z;
  battles_won : Z;
  whiteouts : Z;
  badges_earned : Z;
  _prev_badges : Z;
  _prev_money : Z;
  pokedex_seen : Z;
  pokedex_caught : Z;
  total_ticks : Z;
  action_history : list ActionEntry
}.

(** [PlayerStats()] *)
Definition init : PlayerStats := {|
  steps_taken := 0; _prev_x := -1; _prev_y := -1;
  pokemon_caught := 0; _prev_pokedex_caught := 0; highest_level := 0;
  battles_won := 0; whiteouts := 0;
  badges_earned := 0; _prev_badges := 0;
  _prev_money := 0;
  pokedex_seen := 0; pokedex_caught := 0;
  total_ticks := 0;
  action_history := []
|}.

(** The loop of [update] over the party: the highest level seen so far. *)
Definition track_highest_level (highest : Z) (party : list memory_reader.PartyEntry) : Z :=
  fold_left
    (λ highest pkmn,
       if decide (memory_reader.level pkmn > highest) then memory_reader.level pkmn
       else highest)
    party highest.

(** The whiteout test of [update]. *)
Definition whiteout_detected (self : PlayerStats) (game_state : memory_reader.GameState)
  : bool :=
  match memory_reader.party game_state with
  | [] => false
  | _ :: _ =>
    forallb (λ p, bool_decide (memory_reader.hp_current p = 0))
            (memory_reader.party game_state)
    && (bool_decide (memory_reader.money game_state < _prev_money self)
        && bool_decide (_prev_money self > 0))
  end.

(** [PlayerStats.update] *)
Definition update (self : PlayerStats) (game_state : memory_reader.GameState)
  : PlayerStats := {|
  steps_taken :=
    if decide (_prev_x self >= 0 ∧ _prev_y self >= 0) then
      if decide (memory_reader.player_x game_state ≠ _prev_x self
                 ∨ memory_reader.player_y game_state ≠ _prev_y self)
      then steps_taken self + 1 else steps_taken self
    else steps_taken self;
  _prev_x := memory_reader.player_x game_state;
  _prev_y := memory_reader.player_y game_state;
  pokemon_caught :=
    if decide (memory_reader.pokedex_caught game_state > _prev_pokedex_caught self)
    then pokemon_caught self
         + (memory_reader.pokedex_caught game_state - _prev_pokedex_caught self)
    else pokemon_caught self;
  _prev_pokedex_caught := memory_reader.pokedex_caught game_state;
  highest_level := track_highest_level (highest_level self) (memory_reader.party game_state);
  battles_won := battles_won self;
  whiteouts :=
    if whiteout_detected self game_state then whiteouts self + 1 else whiteouts self;
  badges_earned :=
    if decide (memory_reader.badge_count game_state > _prev_badges self)
    then memory_reader.badge_count game_state else badges_earned self;
  _prev_badges := memory_reader.badge_count game_state;
  _prev_money := memory_reader.money game_state;
  pokedex_seen := memory_reader.pokedex_seen game_state;
  pokedex_caught := memory_reader.pokedex_caught game_state;
  total_ticks := total_ticks self + 1;
  action_history := action_history self
|}.

(** [l[-n:]] for a list and [n > 0]. *)
Definition last_items {A} (n : nat) (l : list A) : list A := drop (length l - n) l.

(** [PlayerStats.log_action].  [observation[:120]] keeps the first 120
    code points of the observation. *)
Definition log_action (self : PlayerStats) (tick : Z) (action : string)
    (observation : list N) (game_phase : string) : PlayerStats :=
  let history :=
    action_history self
    ++ [{| ae_tick := tick; ae_action := action;
           ae_observation := take 120 observation; ae_phase := game_phase |}] in
  {| steps_taken := steps_taken self; _prev_x := _prev_x self; _prev_y := _prev_y self;
     pokemon_caught := pokemon_caught self;
     _prev_pokedex_caught := _prev_pokedex_caught self;
     highest_level := highest_level self;
     battles_won := battles_won self; whiteouts := whiteouts self;
     badges_earned := badges_earned self; _prev_badges := _prev_badges self;
     _prev_money := _prev_money self;
     pokedex_seen := pokedex_seen self; pokedex_caught := pokedex_caught self;
     total_ticks := total_ticks self;
     action_history :=
       if decide (30 < length history)%nat then last_items 30 history else history |}.

(** [self.stats.battles_won += 1] *)
Definition add_battle_won (self : PlayerStats) : PlayerStats := {|
  steps_taken := steps_taken self; _prev_x := _prev_x self; _prev_y := _prev_y self;
  pokemon_caught := pokemon_caught self;
  _prev_pokedex_caught := _prev_pokedex_caught self;
  highest_level := highest_level self;
  battles_won := battles_won self + 1; whiteouts := whiteouts self;
  badges_earned := badges_earned self; _prev_badges := _prev_badges self;
  _prev_money := _prev_money self;
  pokedex_seen := pokedex_seen self; pokedex_caught := pokedex_caught self;
  total_ticks := total_ticks self;
  action_history := action_history self
|}.

(** The statistics after a run of snapshots, one [update] each. *)
Definition run (self : PlayerStats) (snapshots : list memory_reader.GameState)
  : PlayerStats :=
  fold_left update snapshots self.


End player_stats.

(** ** game_loop.py *)

Module game_loop.

(** Steps 2 and 3 of [GameLoop._tick]: the statistics and the battle
    tracker take the snapshot, and a battle that ends as won is counted in
    the statistics. *)
Definition track (stats : player_stats.PlayerStats) (battle : battle_manager.BattleManager)
    (game_state : memory_reader.GameState)
  : player_stats.PlayerStats * battle_manager.BattleManager :=
  let stats := player_stats.update stats game_state in
  let '(battle_events, battle) :=
    battle_manager.update battle (memory_reader.battle_view game_state) in
  let stats :=
    if decide (battle_events !! "battle_end" = Some "won")
    then player_stats.add_battle_won stats else stats in
  (stats, battle).

(** Steps 2 and 3 over a run of snapshots. *)
Definition track_all (stats : player_stats.PlayerStats)
    (battle : battle_manager.BattleManager) (snapshots : list memory_reader.GameState)
  : player_stats.PlayerStats * battle_manager.BattleManager :=
  fold_left (λ sb game_state, track (fst sb) (snd sb) game_state) snapshots (stats, battle).

End game_loop.

(** * Properties *)

(** ** navigator.py *)

Module navigator_facts.
Import navigator.

Lemma start_detour_is_Some self dx dy :
  is_Some (fst (_start_detour self dx dy)).
Proof.
  unfold _start_detour; cbn.
  apply lookup_lt_is_Some.
  destruct (decide (Z.abs dx >= Z.abs dy)); cbn;
    pose proof (Z.mod_pos_bound (_stuck_dir_idx self) 2); lia.
Qed.

Lemma start_detour_ticks self dx dy :
  _detour_ticks (snd (_start_detour self dx dy)) = detour_length (_total_stuck self).
Proof. unfold _start_detour, detour_length; cbn. lia. Qed.

Lemma start_detour_total self dx dy :
  _total_stuck (snd (_start_detour self dx dy)) = _total_stuck self.
Proof. reflexivity. Qed.

Lemma detour_length_le n : detour_length n <= 12.
Proof. unfold detour_length. lia. Qed.

(** The running-detour invariant holds initially and is kept by every method. *)
Lemma detour_wf_init data : detour_wf (init data).
Proof. unfold detour_wf; cbn. lia. Qed.

Lemma detour_wf_cancel self : detour_wf (cancel self).
Proof. unfold detour_wf; cbn. lia. Qed.

Lemma detour_wf_set_target self map_id key :
  detour_wf self → detour_wf (snd (set_target self map_id key)).
Proof.
  intros Hwf. unfold set_target.
  repeat case_match; cbn; try assumption; unfold detour_wf; cbn; lia.
Qed.

Lemma detour_wf_start_detour self dx dy : detour_wf (snd (_start_detour self dx dy)).
Proof. intros _. apply (start_detour_is_Some self dx dy). Qed.

Lemma detour_wf_stuck_detection self x y dx dy :
  detour_wf self → detour_wf (snd (stuck_detection self x y dx dy)).
Proof.
  intros Hwf. unfold stuck_detection.
  repeat case_decide; try apply detour_wf_start_detour; try apply detour_wf_cancel;
    exact Hwf.
Qed.

Lemma detour_wf_get_next_direction self x y m :
  detour_wf self → detour_wf (snd (get_next_direction self x y m)).
Proof.
  intros Hwf. unfold get_next_direction.
  destruct (target self) as [[tx ty]|]; [|exact Hwf].
  destruct (active self); cbn [negb]; [|exact Hwf].
  repeat case_decide;
    try apply detour_wf_start_detour; try apply detour_wf_cancel;
    try (apply detour_wf_stuck_detection; unfold detour_wf in *; cbn in *; lia);
    try exact Hwf.
  unfold detour_wf in *; cbn in *. intros _. apply Hwf. lia.
Qed.

(** The give-up state, field by field. *)
Lemma give_up_state_fields :
  give_up_state =
  {| warp_data := demo_registry; target := Some (10, 0); target_label := "lab";
     target_map := 1; active := true; _prev_x := -163; _prev_y := 0;
     _stuck_count := 0; _stuck_dir_idx := 0; _detour_dir := Some UP;
     _detour_ticks := 1; _total_stuck := 15 |}.
Proof. vm_compute. reflexivity. Qed.

(** What [stuck_detection] answers. *)
Lemma stuck_detection_None self x y dx dy :
  fst (stuck_detection self x y dx dy) = None ↔
  stuck_count_after self x y < 3 ∧ _total_stuck self >= 15.
Proof.
  unfold stuck_detection, stuck_count_after.
  set (self1 := set_prev x y _).
  assert (Hc : _stuck_count self1 =
               if decide (x = _prev_x self ∧ y = _prev_y self)
               then _stuck_count self + 1 else 0)
    by (subst self1; case_decide; reflexivity).
  assert (Ht : _total_stuck self1 = _total_stuck self)
    by (subst self1; case_decide; reflexivity).
  rewrite <- Hc, <- Ht. clearbody self1.
  destruct (decide (_stuck_count self1 >= 3)) as [H3|H3].
  - destruct (start_detour_is_Some (set_total_stuck (_total_stuck self1 + 1) self1) dx dy)
      as [d Hd].
    rewrite Hd. split; [discriminate | lia].
  - destruct (decide (_total_stuck self1 >= 15)); cbn; split; try done; lia.
Qed.

(** C9.  [set_target] looks the landmark up by map, then by key.  If either
    lookup misses it returns [False] and the navigator is left exactly as it
    was; otherwise it returns [True], the target is the landmark's
    coordinates on that map, navigation is active, and the stuck counter,
    the cumulative stuck counter, the alternation index, the detour
    direction, the detour ticks and the last position are all reset. *)
Theorem set_target_spec self map_id landmark_key :
  match registry_lookup (warp_data self) map_id landmark_key with
  | None => set_target self map_id landmark_key = (false, self)
  | Some landmark =>
    ∃ self', set_target self map_id landmark_key = (true, self')
      ∧ target self' = Some (lm_x landmark, lm_y landmark)
      ∧ target_map self' = map_id
      ∧ target_label self' = default landmark_key (lm_label landmark)
      ∧ active self' = true
      ∧ _stuck_count self' = 0 ∧ _total_stuck self' = 0
      ∧ _stuck_dir_idx self' = 0
      ∧ _detour_dir self' = None ∧ _detour_ticks self' = 0
      ∧ _prev_x self' = -1 ∧ _prev_y self' = -1
      ∧ warp_data self' = warp_data self
  end.
Proof.
  unfold registry_lookup, set_target.
  destruct (warp_data self !! py.str map_id) as [md|]; cbn; [|reflexivity].
  unfold map_data_falsy.
  destruct (md_landmarks md) as [lms|]; cbn.
  - destruct (md_name md); destruct (lms !! landmark_key); eauto 20.
  - destruct (md_name md); [|reflexivity].
    rewrite lookup_empty. reflexivity.
Qed.

(** C2, the input on which the claim fails.  After fifteen stuck events the
    navigator is active, on the target's map and 174 tiles from the target,
    and the next call answers [None]. *)
Lemma get_next_direction_gives_up :
  fst (get_next_direction give_up_state (-164) 0 1) = None
  ∧ navigating give_up_state
  ∧ 1 = target_map give_up_state
  ∧ ¬ chebyshev give_up_state (-164) 0 <= 1.
Proof.
  rewrite give_up_state_fields. unfold navigating, chebyshev; cbn.
  repeat split; [discriminate | lia].
Qed.

(** C2, as amended.  [get_next_direction] answers [None] exactly when
    navigation is not under way, or the map differs from the target's map,
    or the Chebyshev distance to the target is at most 1, or it gives up:
    the cumulative stuck counter has reached 15 and the call neither
    continues nor starts a detour. *)
Theorem get_next_direction_none_iff self player_x player_y current_map :
  detour_wf self →
  fst (get_next_direction self player_x player_y current_map) = None ↔
    ¬ navigating self
    ∨ current_map ≠ target_map self
    ∨ chebyshev self player_x player_y <= 1
    ∨ (_total_stuck self >= 15 ∧ no_detour_this_call self player_x player_y).
Proof.
  intros Hwf.
  unfold get_next_direction, navigating, chebyshev, no_detour_this_call.
  destruct (target self) as [[tx ty]|]; [|split; [left; tauto | done]].
  destruct (active self); cbn [negb fst];
    [|split; [left; intros [? _]; discriminate | done]].
  destruct (decide (current_map ≠ target_map self)) as [Hm|Hm]; [cbn; tauto|].
  destruct (decide (Z.abs (tx - player_x) <= 1 ∧ Z.abs (ty - player_y) <= 1))
    as [Ha|Ha]; [cbn; split; [right; right; left; lia | done]|].
  assert (Hfar : ¬ Z.max (Z.abs (tx - player_x)) (Z.abs (ty - player_y)) <= 1) by lia.
  assert (Hnav : ¬ ¬ (true = true ∧ Some (tx, ty) ≠ None)) by (intros H; apply H; done).
  destruct (decide (_detour_ticks self > 0)) as [Hd|Hd].
  - destruct (decide (player_x = _prev_x self ∧ player_y = _prev_y self)) as [Hp|Hp].
    + match goal with |- fst (_start_detour ?s ?a ?b) = None ↔ _ =>
        destruct (start_detour_is_Some s a b) as [d Hs]; rewrite Hs end.
      split; [discriminate | tauto].
    + cbn [_detour_ticks set_prev set_detour_ticks].
      destruct (decide (_detour_ticks self - 1 > 0)) as [Hc|Hc].
      * cbn. destruct (Hwf Hd) as [d ->].
        split; [discriminate | intros [?|[?|[?|[_ [_ [? _]]]]]]; try tauto; lia].
      * rewrite stuck_detection_None. unfold stuck_count_after; cbn.
        rewrite decide_True by done.
        split; [intros [? ?]; do 3 right; split; [lia|]; repeat split; [tauto|lia|lia]
               |intros [?|[?|[?|[? [_ [_ ?]]]]]]; try tauto; lia].
  - rewrite stuck_detection_None. unfold stuck_count_after. tauto.
Qed.

(** A state satisfying the hypothesis of [get_next_direction_none_iff]. *)
Lemma get_next_direction_none_iff_witness :
  fst (get_next_direction give_up_state (-164) 0 1) = None ↔
    ¬ navigating give_up_state
    ∨ 1 ≠ target_map give_up_state
    ∨ chebyshev give_up_state (-164) 0 <= 1
    ∨ (_total_stuck give_up_state >= 15 ∧ no_detour_this_call give_up_state (-164) 0).
Proof.
  apply (get_next_direction_none_iff give_up_state (-164) 0 1).
  rewrite give_up_state_fields. unfold detour_wf; cbn. intros _. eexists; reflexivity.
Defined.

(** The first detour after [set_target]: the player stands still for four
    calls, the cumulative stuck count becomes 1 and the detour has 5 ticks. *)
Example first_detour_five_ticks :
  let self := snd (walk demo_start 1 [(0, 0); (0, 0); (0, 0); (0, 0)]) in
  _total_stuck self = 1 ∧ _detour_ticks self = 5 ∧ _detour_dir self = Some UP.
Proof. vm_compute. auto. Qed.

Lemma stuck_detection_starts self x y dx dy :
  stuck_count_after self x y >= 3 →
  stuck_detection self x y dx dy
  = _start_detour
      (set_total_stuck (_total_stuck self + 1)
         (set_prev x y (set_stuck_count (_stuck_count self + 1) self)))
      dx dy.
Proof.
  unfold stuck_detection, stuck_count_after. intros H3.
  destruct (decide (x = _prev_x self ∧ y = _prev_y self)); [|lia].
  cbn [_stuck_count set_prev set_stuck_count]. rewrite decide_True by lia.
  reflexivity.
Qed.

Lemma stuck_detection_no_detour self x y dx dy :
  ¬ stuck_count_after self x y >= 3 →
  let self' := snd (stuck_detection self x y dx dy) in
  (_detour_ticks self' = _detour_ticks self ∨ _detour_ticks self' = 0)
  ∧ (_total_stuck self' = _total_stuck self ∨ _total_stuck self' = 0).
Proof.
  unfold stuck_detection, stuck_count_after. intros H3.
  set (self1 := set_prev x y _).
  assert (H1 : _stuck_count self1 =
               (if decide (x = _prev_x self ∧ y = _prev_y self)
                then _stuck_count self + 1 else 0)
               ∧ _detour_ticks self1 = _detour_ticks self
               ∧ _total_stuck self1 = _total_stuck self)
    by (subst self1; case_decide; cbn; auto).
  destruct H1 as (Hc & Ht & Hs). rewrite <- Hc in H3. clearbody self1.
  rewrite decide_False by exact H3.
  destruct (decide (_total_stuck self1 >= 15)); cbn; auto.
Qed.

(** C6.  A call of [get_next_direction] starts a detour exactly when
    navigation is under way on the target's map, more than one tile from
    the target, and the running detour is blocked or the player has not
    moved for three calls.  The call then answers the direction of the
    detour, and the detour has [min(3 + 2 * _total_stuck, 12)] ticks, for
    the cumulative stuck count as the call leaves it: unchanged when a
    blocked detour is restarted, one more than before otherwise.  A call
    that starts no detour leaves the ticks as they were, or one less, or
    zero.  For cumulative counts 0, 1, 2, 3, 4, 5 the lengths are
    3, 5, 7, 9, 11, 12, from 5 on the length is 12, and it never exceeds
    12. *)
Theorem detour_length_spec self x y m :
  let answer := fst (get_next_direction self x y m) in
  let self' := snd (get_next_direction self x y m) in
  (starts_detour self x y m →
     (detour_blocked self x y → _total_stuck self' = _total_stuck self)
     ∧ (¬ detour_blocked self x y → _total_stuck self' = _total_stuck self + 1)
     ∧ _detour_ticks self' = Z.min (3 + 2 * _total_stuck self') 12
     ∧ is_Some answer ∧ answer = _detour_dir self')
  ∧ (¬ starts_detour self x y m →
     (_detour_ticks self' = _detour_ticks self
      ∨ _detour_ticks self' = _detour_ticks self - 1
      ∨ _detour_ticks self' = 0)
     ∧ (_total_stuck self' = _total_stuck self ∨ _total_stuck self' = 0))
  ∧ map detour_length [0; 1; 2; 3; 4; 5] = [3; 5; 7; 9; 11; 12]
  ∧ (∀ n : nat, detour_length (5 + Z.of_nat n) = 12)
  ∧ (∀ n, detour_length n <= 12).
Proof.
  cbn zeta.
  split; [|split; [|split; [reflexivity|split; intros; unfold detour_length; lia]]].
  - (* a detour is started *)
    unfold starts_detour, navigating, chebyshev, detour_blocked, stuck_three_calls.
    intros ((Hact & Htg) & Hm & Hfar & Hwhy).
    unfold get_next_direction.
    destruct (target self) as [[tx ty]|]; [|congruence].
    rewrite Hact. cbn [negb].
    rewrite decide_False by (intros Hne; apply Hne, Hm).
    rewrite decide_False by lia.
    assert (Hstart : ∀ s dx dy,
              _detour_ticks (snd (_start_detour s dx dy))
              = Z.min (3 + 2 * _total_stuck (snd (_start_detour s dx dy))) 12
              ∧ is_Some (fst (_start_detour s dx dy))
              ∧ fst (_start_detour s dx dy) = _detour_dir (snd (_start_detour s dx dy))).
    { intros s dx dy. rewrite start_detour_ticks, start_detour_total.
      split; [reflexivity|]. split; [apply start_detour_is_Some | reflexivity]. }
    destruct (decide (_detour_ticks self > 0)) as [Hrun|Hrun].
    + destruct (decide (x = _prev_x self ∧ y = _prev_y self)) as [Hpos|Hpos].
      * split; [intros _; reflexivity|]. split; [intros Hn; exfalso; apply Hn; tauto|].
        apply Hstart.
      * destruct Hwhy as [(_ & Hx & Hy)|(_ & Hlast & Hcount)]; [tauto|].
        cbn [_detour_ticks set_prev set_detour_ticks].
        rewrite decide_False by lia.
        rewrite stuck_detection_starts
          by (unfold stuck_count_after; cbn; rewrite decide_True by done; lia).
        split; [intros (_ & Hx & Hy); tauto|]. split; [intros _; reflexivity|].
        apply Hstart.
    + destruct Hwhy as [(Hd & _)|Hcount]; [lia|].
      rewrite stuck_detection_starts by exact Hcount.
      split; [intros (Hd & _); lia|]. split; [intros _; reflexivity|].
      apply Hstart.
  - (* no detour is started *)
    unfold starts_detour, navigating, chebyshev, detour_blocked, stuck_three_calls.
    intros Hno. unfold get_next_direction.
    destruct (target self) as [[tx ty]|]; [|cbn; auto].
    destruct (active self); cbn [negb]; [|cbn; auto].
    destruct (decide (m ≠ target_map self)) as [Hm|Hm]; [cbn; auto|].
    destruct (decide (Z.abs (tx - x) <= 1 ∧ Z.abs (ty - y) <= 1)) as [Hnear|Hnear];
      [cbn; auto|].
    assert (Hcase : ¬ ((_detour_ticks self > 0 ∧ x = _prev_x self ∧ y = _prev_y self)
                       ∨ (if decide (_detour_ticks self > 0)
                          then ¬ (x = _prev_x self ∧ y = _prev_y self)
                               ∧ _detour_ticks self - 1 <= 0 ∧ _stuck_count self + 1 >= 3
                          else stuck_count_after self x y >= 3))).
    { intros Hwhy. apply Hno. split; [split; [reflexivity | discriminate]|].
      split; [destruct (decide (m = target_map self)); tauto|].
      split; [lia | exact Hwhy]. }
    destruct (decide (_detour_ticks self > 0)) as [Hrun|Hrun].
    + destruct (decide (x = _prev_x self ∧ y = _prev_y self)) as [Hpos|Hpos];
        [exfalso; apply Hcase; left; tauto|].
      cbn [_detour_ticks set_prev set_detour_ticks].
      destruct (decide (_detour_ticks self - 1 > 0)) as [Hmore|Hlast]; [cbn; auto|].
      match goal with |- context [stuck_detection ?s ?a ?b ?c ?d] =>
        pose proof (stuck_detection_no_detour s a b c d) as Hsd end.
      cbn zeta in Hsd. unfold stuck_count_after in Hsd. cbn in Hsd.
      rewrite decide_True in Hsd by done.
      destruct Hsd as [Ht Hs]; [intros H3; apply Hcase; right; split; [exact Hpos|lia]|].
      split; [destruct Ht; auto | exact Hs].
    + match goal with |- context [stuck_detection ?s ?a ?b ?c ?d] =>
        pose proof (stuck_detection_no_detour s a b c d) as Hsd end.
      cbn zeta in Hsd.
      destruct Hsd as [Ht Hs]; [intros H3; apply Hcase; right; exact H3|].
      split; [destruct Ht; auto | exact Hs].
Qed.

(** The fourth call at the starting position of the sample walk starts the
    first detour: one stuck event is counted and the detour has 5 ticks. *)
Lemma detour_length_spec_witness :
  let self := snd (walk demo_start 1 [(0, 0); (0, 0); (0, 0)]) in
  starts_detour self 0 0 1
  ∧ _total_stuck (snd (get_next_direction self 0 0 1)) = 1
  ∧ _detour_ticks (snd (get_next_direction self 0 0 1)) = 5.
Proof.
  intros self.
  assert (Hstarts : starts_detour self 0 0 1).
  { unfold starts_detour, navigating, chebyshev, detour_blocked, stuck_three_calls,
      stuck_count_after.
    vm_compute. repeat split; try discriminate. right. discriminate. }
  split; [exact Hstarts|].
  destruct (detour_length_spec self 0 0 1) as (Hstart & _).
  destruct (Hstart Hstarts) as (_ & Hcount & Hticks & _).
  assert (Htotal : _total_stuck (snd (get_next_direction self 0 0 1)) = 1).
  { rewrite Hcount; [reflexivity|]. unfold detour_blocked. vm_compute.
    intros (H & _). discriminate. }
  split; [exact Htotal|]. rewrite Hticks, Htotal. reflexivity.
Defined.

End navigator_facts.

(** ** Order of binary64 values *)

Module float_order_facts.
Import float_order.

(** Case analysis on signs and on the comparisons of exponents and
    mantissas. *)
Ltac split_cmp :=
  repeat match goal with
  | s : bool |- _ => destruct s
  end;
  cbn in *;
  change (Pos.compare_cont Eq) with Pos.compare in *;
  repeat match goal with
  | H : context [Z.compare ?a ?b] |- _ => destruct (Z.compare_spec a b)
  | |- context [Z.compare ?a ?b] => destruct (Z.compare_spec a b)
  | H : context [Pos.compare ?a ?b] |- _ => destruct (Pos.compare_spec a b)
  | |- context [Pos.compare ?a ?b] => destruct (Pos.compare_spec a b)
  end;
  cbn in *; subst; try congruence; try lia.

Lemma sf_lt_le_trans a b c : sf_lt a b → sf_le b c → sf_lt a c.
Proof.
  unfold sf_lt, sf_le.
  destruct a as [sa|sa| |sa ma ea], b as [sb|sb| |sb mb eb], c as [sc|sc| |sc mc ec];
    intros Hab [Hbc|Hbc]; split_cmp.
Qed.

Lemma sf_le_lt_trans a b c : sf_le a b → sf_lt b c → sf_lt a c.
Proof.
  unfold sf_lt, sf_le.
  destruct a as [sa|sa| |sa ma ea], b as [sb|sb| |sb mb eb], c as [sc|sc| |sc mc ec];
    intros [Hab|Hab] Hbc; split_cmp.
Qed.

Lemma sf_lt_not_le a b : sf_lt a b → ¬ sf_le b a.
Proof.
  unfold sf_lt, sf_le.
  destruct a as [sa|sa| |sa ma ea], b as [sb|sb| |sb mb eb];
    intros Hab [Hba|Hba]; split_cmp.
Qed.

Lemma sf_total a b : a ≠ S754_nan → b ≠ S754_nan → sf_lt a b ∨ sf_le b a.
Proof.
  unfold sf_lt, sf_le.
  destruct a as [sa|sa| |sa ma ea], b as [sb|sb| |sb mb eb]; intros Ha Hb;
    try congruence; split_cmp; auto.
Qed.

Lemma sf_lt_not_nan a b : sf_lt a b → a ≠ S754_nan ∧ b ≠ S754_nan.
Proof.
  unfold sf_lt. destruct a, b; cbn; intros H; split; congruence.
Qed.

(** The primitive comparisons in terms of the decoded order. *)
Lemma ltb_lt x y : (x <? y)%float = true ↔ sf_lt (Prim2SF x) (Prim2SF y).
Proof.
  rewrite ltb_spec. unfold SFltb, sf_lt.
  destruct (SFcompare (Prim2SF x) (Prim2SF y)) as [[]|]; split; congruence.
Qed.

Lemma leb_le x y : (x <=? y)%float = true ↔ sf_le (Prim2SF x) (Prim2SF y).
Proof.
  rewrite leb_spec. unfold SFleb, sf_le.
  destruct (SFcompare (Prim2SF x) (Prim2SF y)) as [[]|];
    split; try congruence; try tauto; intros [?|?]; congruence.
Qed.

Lemma ltb_leb_trans x y z :
  (x <? y)%float = true → (y <=? z)%float = true → (x <? z)%float = true.
Proof. rewrite !ltb_lt, leb_le. apply sf_lt_le_trans. Qed.

Lemma leb_ltb_trans x y z :
  (x <=? y)%float = true → (y <? z)%float = true → (x <? z)%float = true.
Proof. rewrite !ltb_lt, leb_le. apply sf_le_lt_trans. Qed.

Lemma ltb_leb x y : (x <? y)%float = true → (x <=? y)%float = true.
Proof. rewrite ltb_lt, leb_le. unfold sf_lt, sf_le. tauto. Qed.

Lemma ltb_trans x y z :
  (x <? y)%float = true → (y <? z)%float = true → (x <? z)%float = true.
Proof. intros Hxy Hyz. eapply ltb_leb_trans; [exact Hxy | apply ltb_leb, Hyz]. Qed.

Lemma ltb_leb_false x y : (x <? y)%float = true → (y <=? x)%float = false.
Proof.
  intros Hxy. apply not_true_is_false. rewrite leb_le.
  apply sf_lt_not_le. apply ltb_lt, Hxy.
Qed.

Lemma ltb_irrefl x : (x <? x)%float = false.
Proof.
  apply not_true_is_false. intros H.
  pose proof (ltb_leb_false _ _ H) as H'. rewrite (ltb_leb _ _ H) in H'. discriminate.
Qed.

Lemma ltb_not_nan x y : (x <? y)%float = true → ¬ is_nan x ∧ ¬ is_nan y.
Proof. rewrite ltb_lt. apply sf_lt_not_nan. Qed.

Lemma ltb_false_leb x y :
  ¬ is_nan x → ¬ is_nan y → (x <? y)%float = false → (y <=? x)%float = true.
Proof.
  intros Hx Hy Hxy. destruct (sf_total _ _ Hx Hy) as [H|H].
  - apply ltb_lt in H. congruence.
  - apply leb_le, H.
Qed.

Lemma one_not_nan : ¬ is_nan 1%float.
Proof. unfold is_nan. vm_compute. discriminate. Qed.

Lemma zero_lt_one : (0 <? 1)%float = true.
Proof. reflexivity. Qed.

End float_order_facts.

(** ** battle_manager.py *)

Module battle_manager_facts.
Import float_order float_order_facts battle_manager.

(** *** [update] *)





(** A trainer battle that ends with the only member at 5 of 20 HP and
    unchanged money counts as won. *)
Example update_survivor_won :
  let member hp := {| species_name := "Pikachu"; hp_current := hp; hp_max := 20;
                      moves := ["Thunder Shock"] |} in
  let start := {| gs_in_battle := 2; gs_party := [member 20]; gs_money := 100 |} in
  let finish := {| gs_in_battle := 0; gs_party := [member 5]; gs_money := 100 |} in
  let self := snd (update (init ∅) start) in
  fst (update self finish) !! "battle_end" = Some "won"
  ∧ battles_won (snd (update self finish)) = 1
  ∧ whiteouts (snd (update self finish)) = 0.
Proof. vm_compute. auto. Qed.

(** *** [get_type_effectiveness] *)

Lemma dict_falsy_empty {V} (d : gmap string V) : py.dict_truthy d = false ↔ d = ∅.
Proof.
  unfold py.dict_truthy. rewrite negb_false_iff, bool_decide_eq_true.
  apply map_size_empty_iff.
Qed.

Lemma truthy_nonempty s : py.truthy s = true ↔ s ≠ "".
Proof. destruct s; cbn; split; congruence. Qed.

Lemma fold_matchups (row : gmap string float) defend_types acc :
  fold_left
    (λ multiplier dtype,
       match row !! dtype with
       | Some factor => (multiplier * factor)%float
       | None => multiplier
       end) defend_types acc
  = fold_left PrimFloat.mul (omap (λ d, row !! d) defend_types) acc.
Proof.
  revert acc. induction defend_types as [|d ds IH]; intros acc; cbn; [reflexivity|].
  destruct (row !! d); cbn; apply IH.
Qed.

Lemma get_type_effectiveness_product self attack_type defend_types :
  attack_type ≠ "" →
  get_type_effectiveness self attack_type defend_types
  = product (omap (table_factor (type_chart self) attack_type) defend_types).
Proof.
  intros Ha. unfold get_type_effectiveness, product, table_factor.
  apply truthy_nonempty in Ha. rewrite Ha. cbn [negb].
  destruct (py.dict_truthy (type_chart self)) eqn:Hd; cbn [negb orb].
  - rewrite fold_matchups. f_equal.
    destruct (type_chart self !! attack_type) as [row|]; cbn; [reflexivity|].
    induction defend_types as [|d ds IH]; cbn; [reflexivity|].
    rewrite lookup_empty. exact IH.
  - apply dict_falsy_empty in Hd. rewrite Hd.
    induction defend_types as [|d ds IH]; cbn; [reflexivity|].
    rewrite lookup_empty. cbn. exact IH.
Qed.

Lemma get_type_effectiveness_nil self attack_type :
  get_type_effectiveness self attack_type [] = 1%float.
Proof. unfold get_type_effectiveness. case_match; reflexivity. Qed.




(** *** [recommend_move] *)

(** The two name tables are only looked up, never unfolded. *)
#[local] Opaque MOVE_TYPES SPECIES_TYPES.

(** One iteration of the loop, in terms of the rating of the slot. *)
Lemma consider_move_rating self enemy_types best move_name :
  consider_move self enemy_types best move_name
  = match rating self enemy_types move_name with
    | Some e => if (snd best <? e)%float then (Some move_name, e) else best
    | None => best
    end.
Proof.
  unfold consider_move, rating.
  destruct (py.truthy move_name), (String.eqb move_name "---"); cbn; try reflexivity.
  destruct (MOVE_TYPES !! move_name) as [t|]; cbn; [|reflexivity].
  destruct (py.truthy t); reflexivity.
Qed.

Lemma rating_truthy self enemy_types move_name e :
  rating self enemy_types move_name = Some e → py.truthy move_name = true.
Proof. unfold rating. destruct (py.truthy move_name); cbn; congruence. Qed.

(** The loop invariant is kept by one iteration. *)
Lemma best_so_far_step self enemy_types seen best move_name :
  best_so_far self enemy_types seen best →
  best_so_far self enemy_types (seen ++ [move_name])
    (consider_move self enemy_types best move_name).
Proof.
  destruct best as [[name|] be]; unfold best_so_far; cbn [fst snd].
  - intros (Hpos & before & after & -> & Hname & Hbefore & Hafter).
    rewrite consider_move_rating. cbn [snd].
    destruct (rating self enemy_types move_name) as [e|] eqn:Hr.
    + destruct (be <? e)%float eqn:Hlt; cbn [fst snd].
      * split; [eapply ltb_trans; eassumption|].
        exists (before ++ name :: after), []. split; [reflexivity|].
        split; [exact Hr|]. split; [|intros m e' Hm; inversion Hm].
        intros m e' Hm Hm'. apply not_true_is_false. intros Hle.
        apply elem_of_app in Hm as [Hm|Hm].
        -- specialize (Hbefore m e' Hm Hm').
           rewrite (ltb_leb _ _ (ltb_leb_trans _ _ _ Hlt Hle)) in Hbefore.
           discriminate.
        -- apply elem_of_cons in Hm as [->|Hm].
           ++ assert (e' = be) by congruence. subst e'.
              rewrite (ltb_leb_false _ _ Hlt) in Hle. discriminate.
           ++ pose proof (ltb_leb_trans _ _ _ Hlt Hle) as Hlt'.
              rewrite (Hafter m e' Hm Hm') in Hlt'. discriminate.
      * split; [exact Hpos|].
        exists before, (after ++ [move_name]).
        split; [rewrite <- app_assoc; reflexivity|].
        split; [exact Hname|]. split; [exact Hbefore|].
        intros m e' Hm Hm'. apply elem_of_app in Hm as [Hm|Hm]; [eauto|].
        apply list_elem_of_singleton in Hm. subst m. congruence.
    + split; [exact Hpos|].
      exists before, (after ++ [move_name]).
      split; [rewrite <- app_assoc; reflexivity|].
      split; [exact Hname|]. split; [exact Hbefore|].
      intros m e' Hm Hm'. apply elem_of_app in Hm as [Hm|Hm]; [eauto|].
      apply list_elem_of_singleton in Hm. subst m. congruence.
  - intros [-> Hseen]. rewrite consider_move_rating. cbn [snd].
    destruct (rating self enemy_types move_name) as [e|] eqn:Hr.
    + destruct (0 <? e)%float eqn:Hlt; cbn [fst snd].
      * split; [exact Hlt|].
        exists seen, []. split; [reflexivity|]. split; [exact Hr|].
        split; [|intros m e' Hm; inversion Hm].
        intros m e' Hm Hm'. apply not_true_is_false. intros Hle.
        specialize (Hseen m e' Hm Hm').
        rewrite (ltb_leb_trans _ _ _ Hlt Hle) in Hseen. discriminate.
      * split; [reflexivity|].
        intros m e' Hm Hm'. apply elem_of_app in Hm as [Hm|Hm]; [eauto|].
        apply list_elem_of_singleton in Hm. subst m. congruence.
    + split; [reflexivity|].
      intros m e' Hm Hm'. apply elem_of_app in Hm as [Hm|Hm]; [eauto|].
      apply list_elem_of_singleton in Hm. subst m. congruence.
Qed.

(** The loop invariant is kept by the whole loop. *)
Lemma best_so_far_loop self enemy_types slots seen best :
  best_so_far self enemy_types seen best →
  best_so_far self enemy_types (seen ++ slots)
    (fold_left (consider_move self enemy_types) slots best).
Proof.
  revert seen best. induction slots as [|m slots IH]; intros seen best Hinv; cbn.
  - rewrite app_nil_r. exact Hinv.
  - replace (seen ++ m :: slots) with ((seen ++ [m]) ++ slots)
      by (rewrite <- app_assoc; reflexivity).
    apply IH, best_so_far_step, Hinv.
Qed.

Lemma best_so_far_start self enemy_types :
  best_so_far self enemy_types [] (None, 0%float).
Proof. split; [reflexivity|]. intros m e Hm. inversion Hm. Qed.

(** No rated slot exceeds 1.0 when the loop ends with a best rating that
    does not. *)
Lemma best_so_far_none self enemy_types seen best :
  best_so_far self enemy_types seen best →
  (fst best = None ∨ (1 <? snd best)%float = false) →
  ∀ m e, m ∈ seen → rating self enemy_types m = Some e → (1 <? e)%float = false.
Proof.
  destruct best as [[name|] be]; unfold best_so_far; cbn [fst snd].
  - intros (Hpos & before & after & -> & Hname & Hbefore & Hafter) [?|Hbe];
      [discriminate|].
    assert (Hle : (be <=? 1)%float = true).
    { apply ltb_false_leb; [apply one_not_nan | apply (ltb_not_nan _ _ Hpos) | exact Hbe]. }
    intros m e Hm Hm'. apply not_true_is_false. intros Hlt.
    pose proof (leb_ltb_trans _ _ _ Hle Hlt) as Hlt'.
    apply elem_of_app in Hm as [Hm|Hm].
    + specialize (Hbefore m e Hm Hm').
      rewrite (ltb_leb _ _ Hlt') in Hbefore. discriminate.
    + apply elem_of_cons in Hm as [->|Hm].
      * assert (e = be) by congruence. subst e. congruence.
      * rewrite (Hafter m e Hm Hm') in Hlt'. discriminate.
  - intros [-> Hseen] _ m e Hm Hm'. apply not_true_is_false. intros Hlt.
    specialize (Hseen m e Hm Hm').
    rewrite (ltb_trans 0%float 1%float e zero_lt_one Hlt) in Hseen. discriminate.
Qed.

(** Against an opponent without known types every rating is 1.0. *)
Lemma rating_no_types self move_name e :
  rating self [] move_name = Some e → e = 1%float.
Proof.
  unfold rating. destruct (_ && _); [|discriminate].
  destruct (MOVE_TYPES !! move_name) as [t|]; cbn; [|discriminate].
  destruct (py.truthy t); [|discriminate].
  rewrite get_type_effectiveness_nil. congruence.
Qed.

(** C8.  With the opponent's types looked up by species name (none when
    the species is unknown), [recommend_move] returns a suggestion exactly
    for the first slot of highest rating, provided that rating exceeds 1.0:
    the suggested move sits in the move list with the suggested multiplier
    as its rating, the multiplier exceeds 1.0, no rated slot before it
    reaches the multiplier and no rated slot after it exceeds it.  It
    returns nothing exactly when no rated slot exceeds 1.0, whether or not
    there are moves. *)
Theorem recommend_move_spec self party_pokemon enemy_name :
  let enemy_types := default [] (SPECIES_TYPES !! enemy_name) in
  match recommend_move self party_pokemon enemy_name with
  | Some suggestion =>
    (1 <? sg_effectiveness suggestion)%float = true
    ∧ ∃ before after,
        moves party_pokemon = before ++ sg_move suggestion :: after
        ∧ rating self enemy_types (sg_move suggestion)
          = Some (sg_effectiveness suggestion)
        ∧ (∀ m e, m ∈ before → rating self enemy_types m = Some e →
             (sg_effectiveness suggestion <=? e)%float = false)
        ∧ (∀ m e, m ∈ after → rating self enemy_types m = Some e →
             (sg_effectiveness suggestion <? e)%float = false)
  | None =>
    ∀ m e, m ∈ moves party_pokemon → rating self enemy_types m = Some e →
      (1 <? e)%float = false
  end.
Proof.
  intros enemy_types. unfold recommend_move. fold enemy_types.
  destruct enemy_types as [|t ts] eqn:Het.
  { intros m e _ Hr. apply rating_no_types in Hr. subst e. reflexivity. }
  rewrite <- Het.
  pose proof (best_so_far_loop self enemy_types (moves party_pokemon) []
                (None, 0%float) (best_so_far_start self enemy_types)) as Hinv.
  cbn [app] in Hinv.
  destruct (fold_left (consider_move self enemy_types) (moves party_pokemon)
              (None, 0%float)) as [[name|] be] eqn:Hfold.
  - destruct (1 <? be)%float eqn:Hbe.
    + destruct Hinv as (_ & before & after & Hmoves & Hname & Hbefore & Hafter).
      cbn [fst snd] in *. rewrite (rating_truthy _ _ _ _ Hname). cbn.
      split; [exact Hbe|]. exists before, after. auto.
    + rewrite andb_false_r.
      eapply best_so_far_none; [exact Hinv | right; exact Hbe].
  - eapply best_so_far_none; [exact Hinv | left; reflexivity].
Qed.

End battle_manager_facts.

(** ** goal_planner.py *)

Module goal_planner_facts.
Import goal_planner.

(** *** Assignments keep the other attributes *)

Lemma save_goals self : goals (_save self) = goals self.
Proof. reflexivity. Qed.

Lemma update_goal_lookup k g self j :
  goals (update_goal k g self) !! j = if decide (k = j) then Some g else goals self !! j.
Proof. cbn. apply lookup_insert. Qed.

(** *** Unknown goal ids *)

(** C10.  For an id that is not a key of the goal dictionary,
    [complete_goal] returns normally, whatever the recursion budget, and
    [complete_goal], [fail_goal] and [block_goal] leave the planner as it
    was: the goals, their order, the counter, the saved document and the
    clock. *)
Theorem unknown_goal_unchanged depth self goal_id notes reason :
  goals self !! goal_id = None →
  complete_goal depth self goal_id notes = Some self
  ∧ fail_goal self goal_id reason = self
  ∧ block_goal self goal_id reason = self.
Proof.
  intros Hnone. unfold fail_goal, block_goal.
  destruct depth; cbn; rewrite Hnone; auto.
Qed.

(** The three calls on the single-goal tree with an id that it lacks. *)
Lemma unknown_goal_unchanged_witness :
  complete_goal 0 one_goal "goal_7" "done" = Some one_goal
  ∧ fail_goal one_goal "goal_7" "lost" = one_goal
  ∧ block_goal one_goal "goal_7" "lost" = one_goal.
Proof.
  apply (unknown_goal_unchanged 0 one_goal "goal_7" "done" "lost").
  vm_compute. reflexivity.
Defined.

(** *** [fail_goal] *)

Lemma fail_goal_step self goal_id reason goal :
  goals self !! goal_id = Some goal →
  ∃ goal', goals (fail_goal self goal_id reason) !! goal_id = Some goal'
    ∧ attempts goal' = attempts goal + 1
    ∧ max_attempts goal' = max_attempts goal
    ∧ (attempts goal' >= max_attempts goal' → status goal' = FAILED)
    ∧ (attempts goal' < max_attempts goal' → status goal' = PENDING).
Proof.
  intros Hg. unfold fail_goal. rewrite Hg. cbn [attempts max_attempts set_attempts].
  rewrite save_goals, update_goal_lookup, decide_True by reflexivity.
  eexists. split; [reflexivity|].
  case_decide; cbn; repeat split; intros; try reflexivity; lia.
Qed.

(** C3.  After any positive number of successive [fail_goal] calls on a
    goal of the tree, its attempts counter has grown by exactly the number
    of calls (by one per call), its bound is unchanged, and its status is
    [FAILED] if the counter has reached the bound and [PENDING] if it has
    not; so the status is [PENDING] after every call before the one on which
    the counter reaches the bound, and [FAILED] on that call. *)
Theorem fail_goal_attempts self goal_id goal reasons :
  goals self !! goal_id = Some goal →
  reasons ≠ [] →
  ∃ goal', goals (fail_goal_repeatedly self goal_id reasons) !! goal_id = Some goal'
    ∧ attempts goal' = attempts goal + Z.of_nat (length reasons)
    ∧ max_attempts goal' = max_attempts goal
    ∧ (attempts goal' >= max_attempts goal → status goal' = FAILED)
    ∧ (attempts goal' < max_attempts goal → status goal' = PENDING).
Proof.
  unfold fail_goal_repeatedly.
  revert self goal. induction reasons as [|reason rest IH]; intros self goal Hg Hne;
    [congruence|].
  destruct (fail_goal_step self goal_id reason goal Hg)
    as (goal1 & Hg1 & Ha1 & Hm1 & Hf1 & Hp1).
  cbn [fold_left]. destruct rest as [|reason' rest'].
  - cbn. exists goal1. rewrite Hm1 in Hf1, Hp1. repeat split; auto; lia.
  - destruct (IH (fail_goal self goal_id reason) goal1 Hg1 ltac:(discriminate))
      as (goal' & Hg' & Ha' & Hm' & Hf' & Hp').
    exists goal'. rewrite Hm1 in *. repeat split; auto.
    rewrite Ha', Ha1. cbn [length]. lia.
Qed.

(** Ten failures of the goal of the single-goal tree, whose bound is 10. *)
Lemma fail_goal_attempts_witness :
  ∃ goal', goals (fail_goal_repeatedly one_goal "goal_1" (replicate 10 "lost"))
             !! "goal_1" = Some goal'
    ∧ attempts goal' = 10 ∧ status goal' = FAILED.
Proof.
  assert (Hg : ∃ goal, goals one_goal !! "goal_1" = Some goal
                 ∧ attempts goal = 0 ∧ max_attempts goal = 10)
    by (eexists; repeat split; vm_compute; reflexivity).
  destruct Hg as (goal & Hg & Ha & Hm).
  destruct (fail_goal_attempts one_goal "goal_1" goal (replicate 10 "lost") Hg
              ltac:(discriminate))
    as (goal' & Hg' & Ha' & _ & Hf' & _).
  exists goal'. rewrite Ha in Ha'. cbn in Ha'.
  split; [exact Hg'|]. split; [exact Ha'|]. apply Hf'. lia.
Defined.

(** *** Goals are stored under their ids *)

Lemma ids_consistent_empty : ids_consistent empty.
Proof. intros key goal H. cbn in H. rewrite lookup_empty in H. discriminate. Qed.

Lemma ids_consistent_update self key goal :
  ids_consistent self → id goal = key → ids_consistent (update_goal key goal self).
Proof.
  intros Hids Hid k g. rewrite update_goal_lookup. case_decide.
  - intros [= <-]. congruence.
  - apply Hids.
Qed.

Lemma ids_consistent_add_goal self name description priority parent_id prerequisites :
  ids_consistent self →
  ids_consistent (snd (add_goal self name description priority parent_id prerequisites)).
Proof.
  intros Hids. unfold add_goal. cbn [_next_id time_time snd].
  set (goal_id := "goal_" +:+ py.str (_id_counter self + 1)).
  match goal with |- context [dict_set goal_id ?g ?s] => set (self1 := dict_set goal_id g s) end.
  assert (Hids1 : ids_consistent self1).
  { intros k g. subst self1. cbn. rewrite lookup_insert. case_decide.
    - intros [= <-]. cbn. congruence.
    - apply Hids. }
  clearbody self1.
  destruct parent_id as [pid|]; [|exact Hids1].
  destruct (py.truthy pid); [|exact Hids1].
  destruct (goals self1 !! pid) as [parent|] eqn:Hp; [|exact Hids1].
  cbn [snd]. intros k g. rewrite save_goals.
  apply ids_consistent_update; [exact Hids1 | cbn; apply Hids1, Hp].
Qed.

Lemma ids_consistent_fail_goal self goal_id reason :
  ids_consistent self → ids_consistent (fail_goal self goal_id reason).
Proof.
  intros Hids. unfold fail_goal.
  destruct (goals self !! goal_id) as [goal|] eqn:Hg; [|exact Hids].
  intros k g. rewrite save_goals. apply ids_consistent_update; [exact Hids|].
  case_decide; cbn; apply Hids, Hg.
Qed.

Lemma ids_consistent_block_goal self goal_id reason :
  ids_consistent self → ids_consistent (block_goal self goal_id reason).
Proof.
  intros Hids. unfold block_goal.
  destruct (goals self !! goal_id) as [goal|] eqn:Hg; [|exact Hids].
  intros k g. rewrite save_goals. apply ids_consistent_update; [exact Hids|].
  cbn. apply Hids, Hg.
Qed.

(** *** [complete_goal] *)

Lemma completes_only_refl gs : completes_only gs gs.
Proof. intros key. destruct (gs !! key); auto. Qed.

Lemma completes_only_trans gs1 gs2 gs3 :
  completes_only gs1 gs2 → completes_only gs2 gs3 → completes_only gs1 gs3.
Proof.
  intros H12 H23 key. specialize (H12 key). specialize (H23 key).
  destruct (gs1 !! key) as [g1|], (gs2 !! key) as [g2|], (gs3 !! key) as [g3|];
    try tauto.
  destruct H12 as (Hi & Hp & Hc & Hs), H23 as (Hi' & Hp' & Hc' & Hs').
  repeat split; try congruence.
  destruct Hs' as [Hs'|Hs']; [rewrite Hs'; exact Hs | right; exact Hs'].
Qed.

Lemma completes_only_lookup gs gs' key g :
  completes_only gs gs' → gs !! key = Some g →
  ∃ g', gs' !! key = Some g' ∧ id g' = id g ∧ parent_id g' = parent_id g
        ∧ children_ids g' = children_ids g
        ∧ (status g' = status g ∨ status g' = COMPLETED).
Proof.
  intros H Hg. specialize (H key). rewrite Hg in H.
  destruct (gs' !! key) as [g'|]; [eauto | contradiction].
Qed.


(** What [mark_completed] stores under the key. *)
Lemma mark_completed_goals self goal_id notes goal :
  ∃ goal', goals (mark_completed self goal_id notes goal) = <[goal_id := goal']> (goals self)
    ∧ id goal' = id goal ∧ parent_id goal' = parent_id goal
    ∧ children_ids goal' = children_ids goal ∧ status goal' = COMPLETED.
Proof.
  unfold mark_completed. cbn.
  destruct (py.truthy notes); eexists; (split; [reflexivity|]); cbn; auto.
Qed.

Lemma mark_completed_completes_only self goal_id notes goal :
  goals self !! goal_id = Some goal →
  completes_only (goals self) (goals (mark_completed self goal_id notes goal)).
Proof.
  intros Hg.
  destruct (mark_completed_goals self goal_id notes goal)
    as (goal' & -> & Hi & Hp & Hc & Hs).
  intros key. rewrite lookup_insert. case_decide as Hk.
  - subst key. rewrite Hg. auto.
  - destruct (goals self !! key); auto.
Qed.

Lemma mark_completed_status self goal_id notes goal :
  status_of (mark_completed self goal_id notes goal) goal_id = Some COMPLETED.
Proof.
  unfold status_of.
  destruct (mark_completed_goals self goal_id notes goal)
    as (goal' & -> & _ & _ & _ & Hs).
  rewrite lookup_insert_eq. cbn. congruence.
Qed.

(** [complete_goal], one level at a time. *)
Lemma complete_goal_unfold depth self goal_id notes :
  complete_goal depth self goal_id notes =
  match goals self !! goal_id with
  | None => Some self
  | Some goal =>
    let self1 := mark_completed self goal_id notes goal in
    match cascade_target self1 goal with
    | Some parent =>
      match depth with
      | O => None
      | S depth' =>
        _save <$> complete_goal depth' self1 (id parent) "All sub-goals completed"
      end
    | None => Some (_save self1)
    end
  end.
Proof.
  destruct depth; cbn [complete_goal];
    (destruct (goals self !! goal_id) as [goal|]; [|reflexivity]);
    unfold mark_completed, cascade_target; cbn [time_time];
    destruct (py.truthy notes); cbn;
    (destruct (parent_id goal) as [pid|]; [|reflexivity]);
    (destruct (py.truthy pid); [|reflexivity]);
    match goal with |- context [?m !! pid] => destruct (m !! pid) as [parent|] end;
    try reflexivity;
    match goal with |- context [children_completed ?m ?p] =>
      destruct (children_completed m p) end;
    try reflexivity;
    match goal with |- context [complete_goal ?d ?a ?b ?c] =>
      destruct (complete_goal d a b c) end; reflexivity.
Qed.

(** [complete_goal] keeps keys, ids, parents and children, and changes a
    status only to [COMPLETED]. *)
Lemma complete_goal_completes_only depth self goal_id notes self' :
  complete_goal depth self goal_id notes = Some self' →
  completes_only (goals self) (goals self').
Proof.
  revert self goal_id notes self'.
  induction depth as [|depth IH]; intros self goal_id notes self';
    rewrite complete_goal_unfold;
    destruct (goals self !! goal_id) as [goal|] eqn:Hg;
    try (intros [= <-]; apply completes_only_refl);
    cbn zeta;
    pose proof (mark_completed_completes_only self goal_id notes goal Hg) as Hm;
    destruct (cascade_target _ goal) as [parent|];
    try discriminate;
    try (intros [= <-]; exact Hm).
  destruct (complete_goal depth _ (id parent) _) as [self3|] eqn:Hrec; [|discriminate].
  intros [= <-]. cbn [_save goals].
  eapply completes_only_trans; [exact Hm | eapply IH, Hrec].
Qed.



Lemma completes_only_stays_completed self self' key :
  completes_only (goals self) (goals self') →
  status_of self key = Some COMPLETED → status_of self' key = Some COMPLETED.
Proof.
  unfold status_of. intros Hco Hs.
  destruct (goals self !! key) as [g|] eqn:Hg; [|discriminate].
  destruct (completes_only_lookup _ _ _ _ Hco Hg) as (g' & -> & _ & _ & _ & Hst).
  cbn in *. destruct Hst; congruence.
Qed.


Lemma children_completed_true gs parent :
  (∀ cid child, cid ∈ children_ids parent → gs !! cid = Some child →
     status child = COMPLETED) →
  children_completed gs parent = true.
Proof.
  intros H. unfold children_completed. apply forallb_forall. intros cid Hin.
  apply list_elem_of_In in Hin.
  destruct (gs !! cid) as [child|] eqn:Hc; [|reflexivity].
  apply bool_decide_eq_true. eapply H; eassumption.
Qed.

Lemma complete_goal_loops depth :
  ∀ self goal_id notes goal,
    goals self !! goal_id = Some goal →
    id goal = goal_id → parent_id goal = Some goal_id → py.truthy goal_id = true →
    (∀ cid child, cid ∈ children_ids goal → cid ≠ goal_id →
       goals self !! cid = Some child → status child = COMPLETED) →
    complete_goal depth self goal_id notes = None.
Proof.
  induction depth as [|depth IH]; intros self goal_id notes goal Hg Hid Hpid Htruthy Hch;
    rewrite complete_goal_unfold, Hg; cbn zeta;
    destruct (mark_completed_goals self goal_id notes goal)
      as (goal' & Hgoals & Hid' & Hpid' & Hch' & Hst);
    assert (Htarget : cascade_target (mark_completed self goal_id notes goal) goal
                      = Some goal')
      by (unfold cascade_target; rewrite Hpid, Htruthy, Hgoals, lookup_insert_eq;
          rewrite children_completed_true; [reflexivity|];
          intros cid child Hin; rewrite lookup_insert; case_decide as Hk;
          [intros [= <-]; exact Hst
          |rewrite Hch' in Hin; apply Hch; [exact Hin | congruence]]);
    rewrite Htarget; [reflexivity|].
  rewrite (IH _ (id goal') _ goal'); [reflexivity | | | | |].
  - rewrite Hgoals, Hid', Hid. apply lookup_insert_eq.
  - reflexivity.
  - congruence.
  - congruence.
  - intros cid child Hin Hne. rewrite Hgoals, lookup_insert_ne by congruence.
    rewrite Hch' in Hin. apply Hch; [exact Hin | congruence].
Qed.





(** *** [get_current_goal] *)

Lemma entries_lookup self key goal :
  (key, goal) ∈ entries self → goals self !! key = Some goal.
Proof.
  unfold entries. rewrite list_elem_of_omap. intros (k & _ & Hk).
  destruct (goals self !! k) as [g|] eqn:Hg; cbn in Hk; [|discriminate].
  injection Hk as <- <-. exact Hg.
Qed.

Lemma insert_by_priority_elem x y sorted :
  x ∈ insert_by_priority y sorted → x = y ∨ x ∈ sorted.
Proof.
  induction sorted as [|z rest IH]; cbn.
  - rewrite list_elem_of_singleton. auto.
  - case_decide.
    + rewrite elem_of_cons. tauto.
    + rewrite !elem_of_cons. intros [?|?]; [tauto|]. destruct IH; auto.
Qed.

Lemma sort_by_priority_elem x l : x ∈ sort_by_priority l → x ∈ l.
Proof.
  induction l as [|y l IH]; cbn; [auto|].
  intros H. apply insert_by_priority_elem in H as [->|H].
  - left.
  - right. apply IH, H.
Qed.

Lemma next_child_loop_ok descend self cids r :
  (∀ child r', descend child = Some r' → descent_ok self r') →
  next_child_loop descend self cids = Some r → descent_ok self r.
Proof.
  intros Hdesc. induction cids as [|cid rest IH]; cbn.
  - intros [= <-]. reflexivity.
  - destruct (goals self !! cid) as [child|] eqn:Hc; [|exact IH].
    destruct (is_active child) eqn:Hact.
    + destruct (children_ids child) as [|c cs].
      * intros [= <-]. left. eauto.
      * destruct (descend child) as [[[deeper|] self']|] eqn:Hd; [| |discriminate].
        -- intros [= <-]. apply (Hdesc child _ Hd).
        -- intros [= <-]. pose proof (Hdesc child _ Hd) as Hs. cbn in Hs. subst self'.
           left. eauto.
    + destruct (bool_decide (status child = PENDING) && _prerequisites_met self child)
        eqn:Hp; [|exact IH].
      apply andb_true_iff in Hp as [Hpend Hmet].
      apply bool_decide_eq_true in Hpend.
      intros [= <-]. right. exists child. auto.
Qed.

Lemma get_next_child_ok depth self parent r :
  _get_next_child depth self parent = Some r → descent_ok self r.
Proof.
  revert parent r. induction depth as [|depth IH]; intros parent r; cbn;
    apply next_child_loop_ok.
  - discriminate.
  - exact IH.
Qed.

Lemma select_next_goal_ok self : descent_ok self (_select_next_goal self).
Proof.
  unfold _select_next_goal.
  destruct (sort_by_priority _) as [|[key best] rest] eqn:Hsort; [reflexivity|].
  assert (Hin : (key, best) ∈ sort_by_priority
            (filter (λ kg, bool_decide (status (snd kg) = PENDING)
                           && negb (py.truthy_opt (parent_id (snd kg)))
                           && _prerequisites_met self (snd kg)) (entries self)))
    by (rewrite Hsort; left).
  apply sort_by_priority_elem, list_elem_of_filter in Hin as [Hcond Hin].
  apply entries_lookup in Hin. cbn in Hcond.
  apply Is_true_true, andb_true_iff in Hcond as [Hcond Hmet].
  apply andb_true_iff in Hcond as [Hpend _].
  apply bool_decide_eq_true in Hpend.
  right. exists best. auto.
Qed.

(** Every answer of [get_current_goal] is a selected goal. *)
Lemma get_current_goal_selected depth self key self' :
  get_current_goal depth self = Some (Some key, self') → selected self key self'.
Proof.
  unfold get_current_goal.
  destruct (List.find _ (entries self)) as [[k goal]|] eqn:Hfind.
  - apply find_some in Hfind as [Hin Hact]. cbn in Hact.
    apply list_elem_of_In, entries_lookup in Hin.
    destruct (children_ids goal) as [|c cs].
    + intros [= <- <-]. left. eauto.
    + destruct (_get_next_child depth self goal) as [[[child|] s]|] eqn:Hd;
        [| |discriminate].
      * intros [= <- <-]. apply (get_next_child_ok _ _ _ _ Hd).
      * intros [= <- <-]. pose proof (get_next_child_ok _ _ _ _ Hd) as Hs.
        cbn in Hs. subst s. left. eauto.
  - intros [= Hsel]. pose proof (select_next_goal_ok self) as Hok.
    rewrite Hsel in Hok. exact Hok.
Qed.

Lemma ids_consistent_get_current_goal depth self r self' :
  get_current_goal depth self = Some (r, self') →
  ids_consistent self → ids_consistent self'.
Proof.
  intros Hrun Hids. destruct r as [key|].
  - destruct (get_current_goal_selected _ _ _ _ Hrun)
      as [(-> & _)|(g & Hg & _ & _ & ->)]; [exact Hids|].
    unfold promote. intros k g'. rewrite save_goals.
    apply ids_consistent_update; [exact Hids | cbn; apply Hids, Hg].
  - revert Hrun. unfold get_current_goal.
    destruct (List.find _ (entries self)) as [[k goal]|].
    + destruct (children_ids goal); [discriminate|].
      destruct (_get_next_child depth self goal) as [[[child|] ?]|]; discriminate.
    + intros [= Hsel]. pose proof (select_next_goal_ok self) as Hok.
      rewrite Hsel in Hok. cbn in Hok. subst self'. exact Hids.
Qed.





End goal_planner_facts.

(** * Further properties *)

(** ** navigator.py *)

Module navigator_extra.
Import navigator navigator_facts.

Lemma bounded_init data : bounded (init data).
Proof. unfold bounded; cbn. repeat split; try lia; discriminate. Qed.

Lemma bounded_cancel self : bounded self → bounded (cancel self).
Proof.
  unfold bounded; cbn. intros (Ht & Hs & Hc & _). repeat split; try lia; discriminate.
Qed.

Lemma bounded_set_target self map_id key :
  bounded self → bounded (snd (set_target self map_id key)).
Proof.
  intros Hb. unfold set_target.
  repeat case_match; cbn [snd]; try exact Hb.
  unfold bounded; cbn. repeat split; try lia; discriminate.
Qed.

Lemma bounded_start_detour self dx dy :
  0 <= _total_stuck self <= 15 →
  (active self = true → target self ≠ None) →
  bounded (snd (_start_detour self dx dy)).
Proof.
  intros Hs Ha. unfold bounded.
  rewrite start_detour_ticks, start_detour_total. unfold detour_length.
  cbn [_stuck_count _start_detour snd set_stuck_count set_detour_ticks set_detour_dir
       active target].
  repeat split; try lia; try assumption.
  apply (start_detour_is_Some self dx dy).
Qed.

Lemma bounded_stuck_detection self x y dx dy :
  bounded self → active self = true → _detour_ticks self = 0 →
  bounded (snd (stuck_detection self x y dx dy)).
Proof.
  intros (Ht & Hs & Hc & Hd & Ha & Hg) Hact Hzero. unfold stuck_detection.
  set (self1 := set_prev x y _).
  assert (H1 : _stuck_count self1 = stuck_count_after self x y
               ∧ _total_stuck self1 = _total_stuck self
               ∧ _detour_ticks self1 = _detour_ticks self
               ∧ active self1 = active self ∧ target self1 = target self
               ∧ _detour_dir self1 = _detour_dir self)
    by (subst self1; unfold stuck_count_after; case_decide; cbn; auto 10).
  destruct H1 as (Hc1 & Hs1 & Ht1 & Ha1 & Htg1 & Hdir1). clearbody self1.
  assert (Hlt : _total_stuck self < 15) by (specialize (Hg Hact); lia).
  assert (Hcnt : 0 <= stuck_count_after self x y <= 3)
    by (unfold stuck_count_after; case_decide; lia).
  destruct (decide (_stuck_count self1 >= 3)).
  - apply bounded_start_detour; cbn; [lia | rewrite Ha1, Htg1; exact Ha].
  - rewrite decide_False by lia.
    unfold bounded. cbn [snd]. rewrite Hc1, Hs1, Ht1, Ha1, Htg1, Hdir1 in *.
    repeat split; try lia; try assumption; intros; lia.
Qed.

(** The call on which a detour ends: the position has just been recorded,
    so the stuck count becomes 1 and no detour starts. *)
Lemma bounded_detour_end self x y dx dy :
  bounded self → active self = true → _detour_ticks self = 1 →
  bounded (snd (stuck_detection
                  (set_prev x y (set_detour_ticks (_detour_ticks self - 1) self))
                  x y dx dy)).
Proof.
  intros (Ht & Hs & Hc & Hd & Ha & Hg) Hact Hone.
  destruct (Hd ltac:(lia)) as [Hzero Hdir].
  unfold stuck_detection. cbn.
  destruct (decide (x = x ∧ y = y)) as [_|Hn]; [|exfalso; apply Hn; split; reflexivity].
  cbn. rewrite Hzero. cbn.
  rewrite decide_False by lia.
  destruct (decide (_total_stuck self >= 15)); unfold bounded; cbn; rewrite ?Hact, ?Hone;
    repeat split; try lia; try discriminate; try (intros; lia); auto.
Qed.

Lemma bounded_get_next_direction self x y m :
  bounded self → bounded (snd (get_next_direction self x y m)).
Proof.
  intros Hb. unfold get_next_direction.
  destruct (target self) as [[tx ty]|] eqn:Htg; [|exact Hb].
  destruct (active self) eqn:Hact; cbn [negb]; [|exact Hb].
  destruct (decide (m ≠ target_map self)); [apply bounded_cancel, Hb|].
  pose proof Hb as (Ht & Hs & Hc & Hd & Ha & Hg).
  case_decide.
  { unfold bounded; cbn. rewrite Htg.
    repeat split; try lia; try apply Hd; try discriminate; assumption. }
  destruct (decide (_detour_ticks self > 0)) as [Hrun|Hrun].
  - destruct (Hd Hrun) as [Hzero Hdir]. case_decide.
    + apply bounded_start_detour; cbn; [lia | rewrite Htg; discriminate].
    + cbn [_detour_ticks set_prev set_detour_ticks]. case_decide.
      * unfold bounded; cbn. rewrite Htg, Hact.
        repeat split; try lia; try assumption; try discriminate; intros; lia.
      * apply bounded_detour_end; [exact Hb | exact Hact | lia].
  - apply bounded_stuck_detection; [exact Hb | exact Hact | lia].
Qed.

Lemma reachable_bounded self : reachable self → bounded self.
Proof.
  induction 1.
  - apply bounded_init.
  - apply bounded_set_target; assumption.
  - apply bounded_get_next_direction; assumption.
  - apply bounded_cancel; assumption.
Qed.

Lemma walk_cons self m p q rest :
  walk self m (p :: q :: rest)
  = walk (snd (get_next_direction self (fst p) (snd p) m)) m (q :: rest).
Proof. destruct p. reflexivity. Qed.

Lemma walk_one self m p :
  walk self m [p] = get_next_direction self (fst p) (snd p) m.
Proof. destruct p. reflexivity. Qed.

Lemma reachable_walk self m positions :
  reachable self → reachable (snd (walk self m positions)).
Proof.
  revert self. induction positions as [|p rest IH]; intros self Hr; [exact Hr|].
  destruct rest as [|q rest].
  - rewrite walk_one. constructor. exact Hr.
  - rewrite walk_cons. apply IH. constructor. exact Hr.
Qed.

(** X1.  In every state that a navigator reaches from its construction by
    calls of [set_target], [get_next_direction] and [cancel], the cumulative
    stuck counter is between 0 and 15, the remaining detour ticks between 0
    and 12, the no-movement counter between 0 and 2, and an active
    navigator has a target. *)
Theorem reachable_counters_bounded self :
  reachable self →
  0 <= _total_stuck self <= 15
  ∧ 0 <= _detour_ticks self <= 12
  ∧ 0 <= _stuck_count self <= 2
  ∧ (active self = true → target self ≠ None).
Proof.
  intros Hr. destruct (reachable_bounded self Hr) as (Ht & Hs & Hc & _ & Ha & _).
  auto.
Qed.

(** The bounds in the state before the give-up of the sample walk. *)
Lemma reachable_counters_bounded_witness :
  0 <= _total_stuck give_up_state <= 15
  ∧ 0 <= _detour_ticks give_up_state <= 12
  ∧ 0 <= _stuck_count give_up_state <= 2
  ∧ (active give_up_state = true → target give_up_state ≠ None).
Proof.
  apply (reachable_counters_bounded give_up_state).
  unfold give_up_state. apply reachable_walk.
  unfold demo_start. apply reachable_set_target, reachable_init.
Defined.

(** A navigator that is not under way answers [None] and stays as it is. *)
Lemma idle_get_next_direction self x y m :
  active self = false ∨ target self = None →
  get_next_direction self x y m = (None, self).
Proof.
  intros [H|H]; unfold get_next_direction; rewrite H; [|reflexivity].
  destruct (target self) as [[tx ty]|]; reflexivity.
Qed.

Lemma stuck_detection_None_state self x y dx dy :
  fst (stuck_detection self x y dx dy) = None →
  target (snd (stuck_detection self x y dx dy)) = None.
Proof.
  unfold stuck_detection. set (self1 := set_prev x y _). clearbody self1.
  destruct (decide (_stuck_count self1 >= 3)).
  - destruct (start_detour_is_Some (set_total_stuck (_total_stuck self1 + 1) self1) dx dy)
      as [d Hd].
    rewrite Hd. discriminate.
  - case_decide; [reflexivity | discriminate].
Qed.

(** X2.  The answer [None] always means that navigation is over: after a
    call of [get_next_direction] that answers [None] (in a state where a
    running detour has a direction), the navigator is not under way, and
    every further call, with any position and map, answers [None] and
    leaves the navigator unchanged, until [set_target] is called. *)
Theorem none_ends_navigation self x y m :
  detour_wf self →
  fst (get_next_direction self x y m) = None →
  let self' := snd (get_next_direction self x y m) in
  ¬ navigating self'
  ∧ ∀ x' y' m', get_next_direction self' x' y' m' = (None, self').
Proof.
  intros Hwf Hnone self'.
  assert (Hidle : active self' = false ∨ target self' = None).
  { subst self'. revert Hnone. unfold get_next_direction.
    destruct (target self) as [[tx ty]|] eqn:Htg; [|auto].
    destruct (active self) eqn:Hact; cbn [negb]; [|auto].
    case_decide; [cbn; auto|].
    case_decide; [cbn; auto|].
    destruct (decide (_detour_ticks self > 0)) as [Hrun|Hrun].
    - case_decide.
      + match goal with |- fst (_start_detour ?s ?a ?b) = None → _ =>
          destruct (start_detour_is_Some s a b) as [d Hd]; rewrite Hd end.
        discriminate.
      + cbn [_detour_ticks set_prev set_detour_ticks]. case_decide.
        * cbn. destruct (Hwf Hrun) as [d ->]. discriminate.
        * intros H'. right. apply stuck_detection_None_state, H'.
    - intros H'. right. apply stuck_detection_None_state, H'. }
  split.
  - unfold navigating. intros [Ha Ht]. destruct Hidle; congruence.
  - intros x' y' m'. apply idle_get_next_direction, Hidle.
Qed.

(** The call after fifteen stuck events in the sample walk. *)
Lemma none_ends_navigation_witness :
  let self' := snd (get_next_direction give_up_state (-164) 0 1) in
  ¬ navigating self'
  ∧ ∀ x' y' m', get_next_direction self' x' y' m' = (None, self').
Proof.
  apply (none_ends_navigation give_up_state (-164) 0 1).
  - rewrite give_up_state_fields. unfold detour_wf; cbn. intros _. eexists; reflexivity.
  - rewrite give_up_state_fields. reflexivity.
Defined.

(** X3.  When navigation is under way on the target's map, more than one
    tile from the target, with no detour running, fewer than three calls
    without movement and fewer than 15 stuck events, [get_next_direction]
    answers the direction of the larger gap: RIGHT or LEFT toward the
    target's x when the horizontal gap is strictly larger, DOWN or UP toward
    the target's y otherwise. *)
Theorem greedy_direction self x y m tx ty :
  active self = true →
  target self = Some (tx, ty) →
  m = target_map self →
  chebyshev self x y > 1 →
  _detour_ticks self <= 0 →
  stuck_count_after self x y < 3 →
  _total_stuck self < 15 →
  ∃ d, fst (get_next_direction self x y m) = Some d
    ∧ match d with
      | RIGHT => x < tx ∧ Z.abs (ty - y) < Z.abs (tx - x)
      | LEFT => tx < x ∧ Z.abs (ty - y) < Z.abs (tx - x)
      | DOWN => y < ty ∧ Z.abs (tx - x) <= Z.abs (ty - y)
      | UP => ty < y ∧ Z.abs (tx - x) <= Z.abs (ty - y)
      end.
Proof.
  intros Hact Htg Hm Hfar Hnodet Hcnt Htot.
  unfold get_next_direction, chebyshev in *. rewrite Htg in *. rewrite Hact. cbn [negb].
  rewrite decide_False by (intros Hne; apply Hne, Hm).
  rewrite decide_False by lia.
  rewrite decide_False by lia.
  unfold stuck_detection, stuck_count_after in *.
  set (self1 := set_prev x y _).
  assert (H1 : _stuck_count self1 =
               (if decide (x = _prev_x self ∧ y = _prev_y self)
                then _stuck_count self + 1 else 0)
               ∧ _total_stuck self1 = _total_stuck self)
    by (subst self1; case_decide; cbn; auto).
  destruct H1 as [Hc1 Ht1]. clearbody self1.
  rewrite decide_False by lia. rewrite decide_False by lia.
  eexists. split; [reflexivity|].
  unfold greedy_step. repeat case_decide; lia.
Qed.

(** The first call of the sample walk: the target is ten tiles to the
    right. *)
Lemma greedy_direction_witness :
  ∃ d, fst (get_next_direction demo_start 0 0 1) = Some d
    ∧ match d with
      | RIGHT => 0 < 10 ∧ Z.abs (0 - 0) < Z.abs (10 - 0)
      | LEFT => 10 < 0 ∧ Z.abs (0 - 0) < Z.abs (10 - 0)
      | DOWN => 0 < 0 ∧ Z.abs (10 - 0) <= Z.abs (0 - 0)
      | UP => 0 < 0 ∧ Z.abs (10 - 0) <= Z.abs (0 - 0)
      end.
Proof.
  apply (greedy_direction demo_start 0 0 1 10 0); vm_compute; congruence.
Defined.

Lemma start_detour_frame self dx dy :
  let self' := snd (_start_detour self dx dy) in
  active self' = active self ∧ target self' = target self
  ∧ target_map self' = target_map self
  ∧ _prev_x self' = _prev_x self ∧ _prev_y self' = _prev_y self
  ∧ _stuck_dir_idx self' = _stuck_dir_idx self.
Proof. cbn. auto 10. Qed.

(** One call at an unchanged position. *)
Lemma standing_step self x y m :
  standing self x y m →
  is_Some (fst (get_next_direction self x y m))
  ∧ standing (snd (get_next_direction self x y m)) x y m.
Proof.
  unfold standing, navigating, chebyshev.
  intros ((Hact & Htg) & Hm & Hfar & Hmode).
  unfold get_next_direction.
  destruct (target self) as [[tx ty]|] eqn:Htg'; [|congruence].
  rewrite Hact. cbn [negb].
  rewrite decide_False by (intros Hne; apply Hne, Hm).
  rewrite decide_False by lia.
  assert (Hkeep : ∀ s' : Navigator,
            active s' = true → target s' = Some (tx, ty) →
            target_map s' = target_map self →
            _prev_x s' = x → _prev_y s' = y → _total_stuck s' <= 15 →
            (_detour_ticks s' <= 0 → _total_stuck s' < 15) →
            (active s' = true ∧ target s' ≠ None)
            ∧ m = target_map s'
            ∧ match target s' with
              | Some (tx, ty) => Z.max (Z.abs (tx - x)) (Z.abs (ty - y))
              | None => 0
              end > 1
            ∧ (_detour_ticks s' <= 0 ∧ _total_stuck s' < 15
               ∨ _detour_ticks s' > 0 ∧ x = _prev_x s' ∧ y = _prev_y s')).
  { intros s' Ha Ht Hmap Hpx Hpy Hle Hlt. rewrite Ht.
    split; [split; [exact Ha | discriminate]|]. split; [congruence|].
    split; [exact Hfar|].
    destruct (decide (_detour_ticks s' > 0)); [right; auto | left; lia]. }
  destruct Hmode as [[Hnodet Htot]|(Hrun & Hx & Hy)].
  - rewrite decide_False by lia.
    unfold stuck_detection. set (self1 := set_prev x y _).
    assert (H1 : _total_stuck self1 = _total_stuck self
                 ∧ _detour_ticks self1 = _detour_ticks self
                 ∧ active self1 = true ∧ target self1 = Some (tx, ty)
                 ∧ target_map self1 = target_map self
                 ∧ _prev_x self1 = x ∧ _prev_y self1 = y)
      by (subst self1; case_decide; cbn; auto 10).
    destruct H1 as (Ht1 & Hd1 & Ha1 & Htg1 & Hm1 & Hx1 & Hy1). clearbody self1.
    destruct (decide (_stuck_count self1 >= 3)).
    + split; [apply start_detour_is_Some|].
      apply Hkeep; cbn; try assumption; lia.
    + rewrite decide_False by lia. split; [eexists; reflexivity|].
      apply Hkeep; cbn; try assumption; lia.
  - rewrite decide_True by exact Hrun.
    rewrite decide_True by (split; assumption).
    split; [apply start_detour_is_Some|].
    destruct (decide (_total_stuck self <= 15)) as [Hle|Hgt].
    + apply Hkeep; cbn; try assumption; try reflexivity.
      unfold detour_length. lia.
    + (* more than 15 stuck events: the restarted detour has 12 ticks *)
      cbn. rewrite Htg'. split; [split; [exact Hact | discriminate]|].
      split; [exact Hm|]. split; [exact Hfar|]. right. lia.
Qed.

Lemma standing_walk self x y m (n : nat) :
  standing self x y m →
  is_Some (fst (walk self m (replicate (S n) (x, y))))
  ∧ standing (snd (walk self m (replicate (S n) (x, y)))) x y m.
Proof.
  revert self. induction n as [|n IH]; intros self Hst.
  - cbn [replicate]. rewrite walk_one. apply standing_step, Hst.
  - change (replicate (S (S n)) (x, y)) with ((x, y) :: (x, y) :: replicate n (x, y)).
    rewrite walk_cons. apply IH. apply standing_step, Hst.
Qed.

(** The stuck events counted by one call at an unchanged position. *)
Lemma standing_still_step self x y m :
  standing_still self x y m →
  standing_still (snd (get_next_direction self x y m)) x y m.
Proof.
  intros (Hst & Htot & Hnone).
  split; [apply standing_step, Hst|].
  destruct Hst as ((Hact & Htg) & Hm & Hfar & Hmode).
  unfold chebyshev in Hfar. unfold get_next_direction.
  destruct (target self) as [[tx ty]|] eqn:Htg'; [|congruence].
  rewrite Hact. cbn [negb].
  rewrite decide_False by (intros Hne; apply Hne, Hm).
  rewrite decide_False by lia.
  destruct Hmode as [[Hnodet _]|(Hrun & Hx & Hy)].
  - rewrite decide_False by lia.
    destruct (decide (stuck_count_after self x y >= 3)) as [H3|H3].
    + rewrite stuck_detection_starts by exact H3.
      rewrite start_detour_ticks, start_detour_total. cbn.
      specialize (Hnone Hnodet). unfold detour_length. lia.
    + unfold stuck_detection, stuck_count_after in *.
      set (self1 := set_prev x y _).
      assert (H1 : _stuck_count self1 =
                   (if decide (x = _prev_x self ∧ y = _prev_y self)
                    then _stuck_count self + 1 else 0)
                   ∧ _detour_ticks self1 = _detour_ticks self
                   ∧ _total_stuck self1 = _total_stuck self)
        by (subst self1; case_decide; cbn; auto).
      destruct H1 as (Hc & Ht & Hs). rewrite <- Hc in H3. clearbody self1.
      rewrite decide_False by exact H3.
      specialize (Hnone Hnodet).
      rewrite decide_False by lia. cbn. lia.
  - rewrite decide_True by exact Hrun.
    rewrite decide_True by (split; assumption).
    rewrite start_detour_ticks, start_detour_total. cbn. unfold detour_length. lia.
Qed.

Lemma standing_still_walk self x y m (n : nat) :
  standing_still self x y m →
  standing_still (snd (walk self m (replicate (S n) (x, y)))) x y m.
Proof.
  revert self. induction n as [|n IH]; intros self Hst.
  - cbn [replicate]. rewrite walk_one. apply standing_still_step, Hst.
  - change (replicate (S (S n)) (x, y)) with ((x, y) :: (x, y) :: replicate n (x, y)).
    rewrite walk_cons. apply IH. apply standing_still_step, Hst.
Qed.

(** X4.  A player that stands still is not given up on.  After a
    [set_target] that succeeds, let [get_next_direction] be called any
    number of times with one position of the target's map, more than one
    tile from the target.  The last call answers a direction, navigation is
    still under way, and at most one stuck event is counted: a detour that
    is blocked is restarted without counting a stuck event, so the give-up
    threshold of 15 is not reached. *)
Theorem standing_never_gives_up self map_id landmark_key x y (n : nat) :
  fst (set_target self map_id landmark_key) = true →
  chebyshev (snd (set_target self map_id landmark_key)) x y > 1 →
  let result :=
    walk (snd (set_target self map_id landmark_key)) map_id (replicate (S n) (x, y)) in
  is_Some (fst result)
  ∧ navigating (snd result)
  ∧ 0 <= _total_stuck (snd result) <= 1.
Proof.
  intros Hok Hfar.
  assert (Hstart : standing_still (snd (set_target self map_id landmark_key)) x y map_id).
  { revert Hok Hfar. unfold set_target, standing_still, standing, navigating, chebyshev.
    destruct (warp_data self !! py.str map_id) as [md|]; [|discriminate].
    destruct (map_data_falsy md); [discriminate|].
    destruct (default ∅ (md_landmarks md) !! landmark_key) as [lm|]; [|discriminate].
    cbn. intros _ Hfar. repeat split; try lia; discriminate. }
  cbn zeta. split; [apply standing_walk, Hstart|].
  destruct (standing_still_walk _ x y map_id n Hstart) as ((Hnav & _) & Htot & _).
  split; [exact Hnav | exact Htot].
Qed.

(** A hundred calls at the starting position of the sample walk. *)
Lemma standing_never_gives_up_witness :
  is_Some (fst (walk demo_start 1 (replicate 100 (0, 0))))
  ∧ navigating (snd (walk demo_start 1 (replicate 100 (0, 0))))
  ∧ 0 <= _total_stuck (snd (walk demo_start 1 (replicate 100 (0, 0)))) <= 1.
Proof.
  apply (standing_never_gives_up (init demo_registry) 1 "lab" 0 0 99).
  - vm_compute. reflexivity.
  - vm_compute. reflexivity.
Defined.

Lemma option_pair_alternates (i : Z) (a b : Direction) :
  [a; b] !! Z.to_nat ((i + 1) `mod` 2)
  = Some (if bool_decide ((i + 1) `mod` 2 = 0) then a else b)
  ∧ [a; b] !! Z.to_nat ((i + 1 + 1) `mod` 2)
    = Some (if bool_decide ((i + 1) `mod` 2 = 0) then b else a).
Proof.
  assert (H : (i + 1) `mod` 2 = 0 ∧ (i + 1 + 1) `mod` 2 = 1
            ∨ (i + 1) `mod` 2 = 1 ∧ (i + 1 + 1) `mod` 2 = 0)
    by (Z.to_euclidean_division_equations; lia).
  destruct H as [[-> ->]|[-> ->]]; cbn; auto.
Qed.

(** X5.  A blocked detour alternates.  When a detour is running during
    navigation on the target's map, more than one tile from the target, and
    the player has not moved since the previous call, the call answers a
    direction perpendicular to the larger gap: UP or DOWN when the
    horizontal gap is at least the vertical one, LEFT or RIGHT otherwise,
    the first of the two when the alternation index plus one is even.  A
    second call at the same position answers the opposite direction, and
    the cumulative stuck counter is the same after both calls. *)
Theorem blocked_detour_alternates self x y m tx ty :
  active self = true →
  target self = Some (tx, ty) →
  m = target_map self →
  chebyshev self x y > 1 →
  _detour_ticks self > 0 →
  x = _prev_x self ∧ y = _prev_y self →
  0 <= _total_stuck self →
  let first := get_next_direction self x y m in
  let second := get_next_direction (snd first) x y m in
  let even := bool_decide ((_stuck_dir_idx self + 1) `mod` 2 = 0) in
  let d :=
    if decide (Z.abs (tx - x) >= Z.abs (ty - y))
    then (if even then UP else DOWN)
    else (if even then LEFT else RIGHT) in
  fst first = Some d
  ∧ fst second = Some (opposite d)
  ∧ _total_stuck (snd second) = _total_stuck self.
Proof.
  unfold chebyshev. intros Hact Htg' Hm Hfar Hrun Hpos Htot. rewrite Htg' in Hfar.
  assert (Hstep : ∀ s : Navigator,
            active s = true → target s = Some (tx, ty) → target_map s = target_map self →
            _detour_ticks s > 0 → x = _prev_x s ∧ y = _prev_y s →
            get_next_direction s x y m
            = _start_detour
                (set_prev x y (set_stuck_count 3
                   (set_stuck_dir_idx (_stuck_dir_idx s + 1) (set_detour_ticks 0 s))))
                (tx - x) (ty - y)).
  { intros s Ha Ht Hmap Hr Hp. unfold get_next_direction. rewrite Ht, Ha. cbn [negb].
    rewrite decide_False by (intros Hne; apply Hne; congruence).
    rewrite decide_False by lia.
    rewrite decide_True by exact Hr. rewrite decide_True by exact Hp. reflexivity. }
  cbn zeta. rewrite (Hstep self Hact Htg' eq_refl Hrun Hpos).
  set (s1 := snd (_start_detour _ (tx - x) (ty - y))).
  assert (Hs1 : active s1 = true ∧ target s1 = Some (tx, ty)
                ∧ target_map s1 = target_map self
                ∧ _detour_ticks s1 = detour_length (_total_stuck self)
                ∧ _prev_x s1 = x ∧ _prev_y s1 = y
                ∧ _stuck_dir_idx s1 = _stuck_dir_idx self + 1
                ∧ _total_stuck s1 = _total_stuck self).
  { subst s1. rewrite start_detour_ticks. cbn. auto 10. }
  destruct Hs1 as (Ha1 & Ht1 & Hm1 & Hd1 & Hx1 & Hy1 & Hi1 & Hts1).
  rewrite (Hstep s1 Ha1 Ht1 Hm1) by (rewrite ?Hd1; unfold detour_length; lia).
  rewrite start_detour_total. cbn [_total_stuck set_prev set_stuck_count
                                   set_stuck_dir_idx set_detour_ticks].
  rewrite Hts1, Hi1. clearbody s1.
  unfold _start_detour. cbn.
  destruct (decide (Z.abs (tx - x) >= Z.abs (ty - y))).
  - change (Z.of_nat (length [UP; DOWN])) with 2.
    destruct (option_pair_alternates (_stuck_dir_idx self) UP DOWN) as [H1 H2].
    rewrite H1, H2.
    destruct (bool_decide ((_stuck_dir_idx self + 1) `mod` 2 = 0)); auto.
  - change (Z.of_nat (length [LEFT; RIGHT])) with 2.
    destruct (option_pair_alternates (_stuck_dir_idx self) LEFT RIGHT) as [H1 H2].
    rewrite H1, H2.
    destruct (bool_decide ((_stuck_dir_idx self + 1) `mod` 2 = 0)); auto.
Qed.

(** Two calls at the position where the first detour of the sample walk
    started: DOWN, then UP. *)
Lemma blocked_detour_alternates_witness :
  let self := snd (walk demo_start 1 [(0, 0); (0, 0); (0, 0); (0, 0)]) in
  let first := get_next_direction self 0 0 1 in
  let second := get_next_direction (snd first) 0 0 1 in
  fst first = Some DOWN
  ∧ fst second = Some UP
  ∧ _total_stuck (snd second) = _total_stuck self.
Proof.
  intros self.
  apply (blocked_detour_alternates self 0 0 1 10 0); vm_compute;
    repeat split; congruence.
Defined.

(** X6.  Arrival keeps the target.  When navigation is under way on the
    target's map and the player is within one tile of the target on both
    axes, [get_next_direction] answers [None], deactivates the navigator
    and clears the cumulative stuck counter, but keeps the target: the
    Manhattan distance that [distance_remaining] reports is unchanged by the
    call and at most 2.  After [cancel] it reports 0. *)
Theorem arrival_keeps_target self x y m :
  navigating self →
  m = target_map self →
  chebyshev self x y <= 1 →
  let self' := snd (get_next_direction self x y m) in
  fst (get_next_direction self x y m) = None
  ∧ active self' = false
  ∧ _total_stuck self' = 0
  ∧ target self' = target self
  ∧ distance_remaining self' x y = distance_remaining self x y
  ∧ 0 <= distance_remaining self x y <= 2
  ∧ distance_remaining (cancel self') x y = 0.
Proof.
  unfold navigating, chebyshev, distance_remaining.
  intros (Hact & Htg) Hm Hnear.
  unfold get_next_direction.
  destruct (target self) as [[tx ty]|] eqn:Htg'; [|congruence].
  rewrite Hact. cbn [negb].
  rewrite decide_False by (intros Hne; apply Hne, Hm).
  rewrite decide_True by lia.
  cbn. rewrite Htg'. repeat split; lia.
Qed.

(** The sample target, approached to one tile diagonally. *)
Lemma arrival_keeps_target_witness :
  let self' := snd (get_next_direction demo_start 9 1 1) in
  fst (get_next_direction demo_start 9 1 1) = None
  ∧ active self' = false
  ∧ _total_stuck self' = 0
  ∧ target self' = target demo_start
  ∧ distance_remaining self' 9 1 = distance_remaining demo_start 9 1
  ∧ 0 <= distance_remaining demo_start 9 1 <= 2
  ∧ distance_remaining (cancel self') 9 1 = 0.
Proof.
  apply (arrival_keeps_target demo_start 9 1 1); vm_compute;
    repeat split; congruence.
Defined.

End navigator_extra.

(** ** battle_manager.py *)

Module battle_manager_extra.
Import float_order float_order_facts battle_manager battle_manager_facts.

#[local] Opaque MOVE_TYPES SPECIES_TYPES.

Lemma count_events_cons key events log :
  count_events key (events :: log) = count_events key [events] + count_events key log.
Proof.
  unfold count_events. rewrite !filter_cons, filter_nil.
  destruct (decide (is_Some (events !! key))); cbn [length]; lia.
Qed.

(** What one [update] does to the counters and to the events. *)
Lemma update_accounting self game_state :
  let events := fst (update self game_state) in
  let self' := snd (update self game_state) in
  Z.b2z (in_battle self') - Z.b2z (in_battle self)
  = count_events "battle_start" [events] - count_events "battle_end" [events]
  ∧ (battles_won self' + whiteouts self') - (battles_won self + whiteouts self)
    = count_events "battle_end" [events]
  ∧ battles_won self <= battles_won self'
  ∧ whiteouts self <= whiteouts self'
  ∧ battles_fled self' = battles_fled self
  ∧ type_chart self' = type_chart self.
Proof.
  unfold update.
  destruct (in_battle self) eqn:Hin; cbn [negb andb].
  - case_bool_decide.
    + destruct (all_fainted (gs_party game_state) || _); cbn [fst snd];
        cbn [in_battle battles_won whiteouts battles_fled type_chart];
        rewrite ?Hin; repeat split; vm_compute (count_events _ _); cbn; lia.
    + cbn [fst snd in_battle battles_won whiteouts battles_fled type_chart].
      repeat split; vm_compute (count_events _ _); cbn; lia.
  - case_bool_decide;
      cbn [fst snd in_battle battles_won whiteouts battles_fled type_chart];
      rewrite ?Hin; repeat split; try lia;
      try (vm_compute (count_events _ _); cbn; lia);
      case_decide; vm_compute (count_events _ _); cbn; lia.
Qed.

Lemma run_accounting snapshots :
  ∀ self,
    let log := fst (run self snapshots) in
    let self' := snd (run self snapshots) in
    Z.b2z (in_battle self') - Z.b2z (in_battle self)
    = count_events "battle_start" log - count_events "battle_end" log
    ∧ (battles_won self' + whiteouts self') - (battles_won self + whiteouts self)
      = count_events "battle_end" log
    ∧ battles_won self <= battles_won self'
    ∧ whiteouts self <= whiteouts self'
    ∧ battles_fled self' = battles_fled self
    ∧ type_chart self' = type_chart self.
Proof.
  induction snapshots as [|game_state rest IH]; intros self; cbn [run].
  - cbn [fst snd]. change (count_events "battle_start" []) with 0.
    change (count_events "battle_end" []) with 0. repeat split; lia.
  - pose proof (update_accounting self game_state) as Hu.
    destruct (update self game_state) as [events self1]. cbn [fst snd] in Hu.
    specialize (IH self1).
    destruct (run self1 rest) as [more self2]. cbn [fst snd] in *.
    rewrite (count_events_cons "battle_start"), (count_events_cons "battle_end").
    destruct Hu as (H1 & H2 & H3 & H4 & H5 & H6), IH as (I1 & I2 & I3 & I4 & I5 & I6).
    repeat split; try congruence; lia.
Qed.

(** X8.  Over any run of snapshots fed to a new tracker, every finished
    battle is counted once: the won and whiteout counters add up to the
    number of calls that reported a battle end, the number of calls that
    reported a battle start exceeds it by one exactly while the tracker is
    in battle, the fled counter stays 0 and the type chart is the one the
    tracker was built with. *)
Theorem battles_accounted chart snapshots :
  let log := fst (run (init chart) snapshots) in
  let self := snd (run (init chart) snapshots) in
  battles_won self + whiteouts self = count_events "battle_end" log
  ∧ count_events "battle_start" log
    = count_events "battle_end" log + Z.b2z (in_battle self)
  ∧ 0 <= battles_won self ∧ 0 <= whiteouts self
  ∧ battles_fled self = 0
  ∧ type_chart self = chart.
Proof.
  pose proof (run_accounting snapshots (init chart)) as H. cbn in H.
  destruct H as (H1 & H2 & H3 & H4 & H5 & H6). cbn zeta.
  repeat split; try assumption; lia.
Qed.

(** X9.  [update] leaves the tracker exactly as it was if and only if the
    tracker is not in battle and the snapshot's battle code is not
    positive; it then reports no event. *)
Theorem update_unchanged_iff self game_state :
  (snd (update self game_state) = self
   ↔ in_battle self = false ∧ gs_in_battle game_state <= 0)
  ∧ (in_battle self = false → gs_in_battle game_state <= 0 →
     fst (update self game_state) = ∅).
Proof.
  unfold update. destruct (in_battle self) eqn:Hin; cbn [negb andb].
  - split; [|discriminate]. split; [|intros [? _]; discriminate].
    case_bool_decide.
    + destruct (all_fainted (gs_party game_state) || _); cbn;
        intros He; apply (f_equal in_battle) in He; cbn in He; congruence.
    + cbn. intros He. apply (f_equal battle_turns) in He. cbn in He. lia.
  - case_bool_decide as Hpos; cbn.
    + split; [|intros; lia]. split; [|intros [_ ?]; lia].
      intros He. apply (f_equal in_battle) in He. cbn in He. congruence.
    + split; [|reflexivity]. split; [intros _; split; [reflexivity | lia] | reflexivity].
Qed.

Lemma run_turns rest :
  ∀ self,
    in_battle self = true →
    Forall (λ game_state, gs_in_battle game_state ≠ 0) rest →
    let self' := snd (run self rest) in
    in_battle self' = true
    ∧ battle_turns self' = battle_turns self + Z.of_nat (length rest)
    ∧ battles_won self' = battles_won self ∧ whiteouts self' = whiteouts self.
Proof.
  induction rest as [|game_state rest IH]; intros self Hin Hall; cbn [run].
  - cbn. repeat split; [exact Hin | lia].
  - apply Forall_cons in Hall as [Hne Hall].
    assert (Hu : update self game_state
                 = (∅, {| in_battle := in_battle self; battle_type := battle_type self;
                          battle_turns := battle_turns self + 1;
                          battles_won := battles_won self;
                          battles_fled := battles_fled self;
                          whiteouts := whiteouts self;
                          prev_money := prev_money self;
                          prev_party_hp := prev_party_hp self;
                          type_chart := type_chart self |})).
    { unfold update. rewrite Hin. cbn [negb andb].
      rewrite bool_decide_eq_false_2 by exact Hne. reflexivity. }
    rewrite Hu.
    match goal with |- context [run ?s rest] =>
      specialize (IH s); destruct (run s rest) as [more self2] end.
    cbn [fst snd] in *. destruct (IH Hin Hall) as (I1 & I2 & I3 & I4).
    repeat split; try assumption. rewrite I2. cbn [battle_turns length]. lia.
Qed.

(** X10.  The turn counter counts the snapshots of a battle.  When a
    tracker that is not in battle receives a snapshot with a positive battle
    code and then any number of snapshots whose code is not 0, it is in
    battle with a turn counter equal to the number of those later snapshots,
    and neither the won nor the whiteout counter has changed. *)
Theorem turns_count_battle_snapshots self start rest :
  in_battle self = false →
  gs_in_battle start > 0 →
  Forall (λ game_state, gs_in_battle game_state ≠ 0) rest →
  let self' := snd (run self (start :: rest)) in
  in_battle self' = true
  ∧ battle_turns self' = Z.of_nat (length rest)
  ∧ battles_won self' = battles_won self
  ∧ whiteouts self' = whiteouts self.
Proof.
  intros Hin Hpos Hall. cbn [run].
  destruct (update self start) as [events self1] eqn:Hu.
  assert (H1 : in_battle self1 = true ∧ battle_turns self1 = 0
               ∧ battles_won self1 = battles_won self
               ∧ whiteouts self1 = whiteouts self).
  { revert Hu. unfold update. rewrite Hin. cbn [negb andb].
    rewrite bool_decide_eq_true_2 by exact Hpos. intros [= <- <-]. cbn. auto. }
  destruct H1 as (Hin1 & Ht1 & Hw1 & Hwh1).
  pose proof (run_turns rest self1 Hin1 Hall) as Hr.
  destruct (run self1 rest) as [more self2]. cbn [fst snd] in *.
  destruct Hr as (R1 & R2 & R3 & R4). repeat split; try congruence. lia.
Qed.

(** A wild battle of three turns. *)
Lemma turns_count_battle_snapshots_witness :
  let snapshot code := {| gs_in_battle := code; gs_party := []; gs_money := 0 |} in
  let self' := snd (run (init ∅) [snapshot 1; snapshot 1; snapshot 1; snapshot 1]) in
  in_battle self' = true
  ∧ battle_turns self' = 3
  ∧ battles_won self' = 0
  ∧ whiteouts self' = 0.
Proof.
  intros snapshot.
  apply (turns_count_battle_snapshots (init ∅) (snapshot 1)
           [snapshot 1; snapshot 1; snapshot 1]).
  - reflexivity.
  - reflexivity.
  - repeat constructor; discriminate.
Defined.

(** X11.  When no defending type has an entry in the table for the attack
    type, [get_type_effectiveness] answers exactly 1.0; in particular for
    an attack type without a row, for an empty table and for an empty list
    of defending types. *)
Theorem get_type_effectiveness_neutral self attack_type defend_types :
  Forall (λ dtype, table_factor (type_chart self) attack_type dtype = None) defend_types →
  get_type_effectiveness self attack_type defend_types = 1%float.
Proof.
  intros Hall. destruct (decide (attack_type = "")) as [->|Hne].
  - unfold get_type_effectiveness. cbn. rewrite orb_true_r. reflexivity.
  - rewrite get_type_effectiveness_product by exact Hne.
    replace (omap (table_factor (type_chart self) attack_type) defend_types) with (@nil float);
      [reflexivity|].
    induction Hall as [|d ds Hd _ IH]; cbn; [reflexivity|].
    rewrite Hd. exact IH.
Qed.

(** An attack type that the two-entry table has no row for. *)
Lemma get_type_effectiveness_neutral_witness :
  get_type_effectiveness (init water_chart) "Ghost" ["Fire"; "Flying"] = 1%float.
Proof.
  apply (get_type_effectiveness_neutral (init water_chart) "Ghost" ["Fire"; "Flying"]).
  repeat constructor.
Defined.

(** [recommend_move] answers nothing when no rated slot exceeds 1.0. *)
Lemma recommend_move_None_intro self party_pokemon enemy_name :
  (∀ m e, m ∈ moves party_pokemon →
     rating self (default [] (SPECIES_TYPES !! enemy_name)) m = Some e →
     (1 <? e)%float = false) →
  recommend_move self party_pokemon enemy_name = None.
Proof.
  intros Hlow. unfold recommend_move.
  set (enemy_types := default [] (SPECIES_TYPES !! enemy_name)) in *.
  destruct enemy_types as [|t ts] eqn:Het; [reflexivity|]. rewrite <- Het in Hlow |- *.
  pose proof (best_so_far_loop self enemy_types (moves party_pokemon) []
                (None, 0%float) (best_so_far_start self enemy_types)) as Hinv.
  cbn [app] in Hinv.
  destruct (fold_left (consider_move self enemy_types) (moves party_pokemon)
              (None, 0%float)) as [[name|] be]; [|reflexivity].
  destruct Hinv as (_ & before & after & Hmoves & Hname & _). cbn [fst snd] in *.
  rewrite (Hlow name be); [rewrite andb_false_r; reflexivity| |exact Hname].
  rewrite Hmoves. apply elem_of_app. right. left.
Qed.

(** X12.  [recommend_move] answers nothing when the type chart is empty
    (the file could not be read), when the opponent's species has no entry
    in [SPECIES_TYPES], and when the move list is empty. *)
Theorem recommend_move_nothing self party_pokemon enemy_name :
  type_chart self = ∅ ∨ SPECIES_TYPES !! enemy_name = None ∨ moves party_pokemon = [] →
  recommend_move self party_pokemon enemy_name = None.
Proof.
  intros [Hchart|[Hspecies|Hmoves]].
  - apply recommend_move_None_intro. intros m e _ Hr.
    unfold rating in Hr. destruct (_ && _); [|discriminate].
    destruct (MOVE_TYPES !! m) as [t|]; cbn in Hr; [|discriminate].
    destruct (py.truthy t); [|discriminate].
    injection Hr as <-.
    rewrite get_type_effectiveness_neutral; [reflexivity|].
    apply Forall_forall. intros d _. unfold table_factor.
    rewrite Hchart, lookup_empty. reflexivity.
  - unfold recommend_move. rewrite Hspecies. reflexivity.
  - apply recommend_move_None_intro. rewrite Hmoves. intros m e Hm. inversion Hm.
Qed.

(** A party member with moves, against a species without entry. *)
Lemma recommend_move_nothing_witness :
  recommend_move (init water_chart)
    {| species_name := "Squirtle"; hp_current := 20; hp_max := 20;
       moves := ["Water Gun"; "Tackle"] |} "Missingno" = None.
Proof.
  apply recommend_move_nothing. right. left. vm_compute. reflexivity.
Defined.

End battle_manager_extra.

(** ** memory_reader.py *)

Module memory_reader_extra.
Import memory_reader.

Lemma land_255_split b :
  Z.land b 255 = 0 ↔
  Z.land b 7 = 0 ∧ Z.land b 8 = 0 ∧ Z.land b 16 = 0 ∧ Z.land b 32 = 0
  ∧ Z.land b 64 = 0 ∧ Z.land b 128 = 0.
Proof.
  change 255 with (Z.lor 7 (Z.lor 8 (Z.lor 16 (Z.lor 32 (Z.lor 64 128))))).
  rewrite !Z.land_lor_distr_r, !Z.lor_eq_0_iff. tauto.
Qed.

(** X13.  [_decode_status] answers "OK" exactly for the status bytes whose
    low eight bits are all clear, and "SLP" exactly for those with one of
    the low three bits set, whatever the other bits are; every answer is
    one of the seven labels. *)
Theorem decode_status_spec status_byte :
  (_decode_status status_byte = "OK" ↔ Z.land status_byte 255 = 0)
  ∧ (_decode_status status_byte = "SLP" ↔ Z.land status_byte 7 ≠ 0)
  ∧ _decode_status status_byte ∈ ["OK"; "SLP"; "PSN"; "BRN"; "FRZ"; "PAR"; "TOX"].
Proof.
  rewrite land_255_split. unfold _decode_status.
  destruct (decide (status_byte = 0)) as [->|Hnz].
  { cbn. repeat split; try discriminate; try tauto; try reflexivity.
    repeat constructor. }
  repeat case_decide;
    (split; [split; [try discriminate; tauto | try tauto; intros; exfalso; tauto]|]);
    (split; [split; [try discriminate; try tauto | try tauto; try discriminate]|]);
    try (intros; exfalso; tauto);
    rewrite !elem_of_cons; tauto.
Qed.

End memory_reader_extra.

(** ** player_stats.py *)

Module player_stats_extra.
Import player_stats.

Lemma track_highest_level_spec party highest :
  highest <= track_highest_level highest party
  ∧ Forall (λ p, memory_reader.level p <= track_highest_level highest party) party
  ∧ (track_highest_level highest party = highest
     ∨ ∃ p, p ∈ party ∧ track_highest_level highest party = memory_reader.level p).
Proof.
  unfold track_highest_level. revert highest.
  induction party as [|p party IH]; intros highest; cbn [fold_left].
  - split; [lia|]. split; [constructor | left; reflexivity].
  - set (h := if decide (memory_reader.level p > highest) then _ else _).
    assert (Hh : highest <= h ∧ memory_reader.level p <= h
                 ∧ (h = highest ∨ h = memory_reader.level p))
      by (subst h; case_decide; lia).
    destruct Hh as (Hh1 & Hh2 & Hh3), (IH h) as (I1 & I2 & I3).
    split; [lia|]. split; [constructor; [lia | exact I2]|].
    destruct I3 as [I3|(q & Hq & I3)].
    + rewrite I3. destruct Hh3 as [->| ->]; [left; reflexivity|].
      right. exists p. split; [left | reflexivity].
    + right. exists q. split; [right; exact Hq | exact I3].
Qed.

(** X14.  After [update], the highest level is at least what it was and at
    least the level of every party member of the snapshot, and it is either
    what it was or the level of one of those members. *)
Theorem highest_level_is_maximum self game_state :
  let self' := update self game_state in
  highest_level self <= highest_level self'
  ∧ Forall (λ p, memory_reader.level p <= highest_level self')
           (memory_reader.party game_state)
  ∧ (highest_level self' = highest_level self
     ∨ ∃ p, p ∈ memory_reader.party game_state
          ∧ highest_level self' = memory_reader.level p).
Proof. cbn. apply track_highest_level_spec. Qed.






(** X16.  [log_action] appends one entry and keeps at most the last 30: the
    history never has more than 30 entries, its last entry is the new one,
    and the observation stored is the given observation cut to its first
    120 characters (code points), whole if it has no more. *)
Theorem log_action_bounded self tick action observation game_phase :
  let self' := log_action self tick action observation game_phase in
  (length (action_history self') <= 30)%nat
  ∧ (length (action_history self) <= 30 →
     length (action_history self')
     = Nat.min 30 (S (length (action_history self))))%nat
  ∧ ∃ entry, last (action_history self') = Some entry
      ∧ ae_tick entry = tick ∧ ae_action entry = action ∧ ae_phase entry = game_phase
      ∧ ae_observation entry `prefix_of` observation
      ∧ length (ae_observation entry) = Nat.min 120 (length observation).
Proof.
  cbn zeta. unfold log_action. cbn [action_history].
  set (entry := {| ae_tick := tick |}).
  set (history := action_history self ++ [entry]).
  assert (Hlen : length history = S (length (action_history self)))
    by (subst history; rewrite length_app; cbn; lia).
  split; [|split].
  - case_decide; [|lia]. unfold last_items. rewrite length_drop. lia.
  - intros Hle. case_decide; [|lia]. unfold last_items. rewrite length_drop. lia.
  - exists entry. split; [|repeat split].
    + case_decide.
      * unfold last_items. subst history. rewrite drop_app_le by lia.
        apply last_snoc.
      * subst history. apply last_snoc.
    + apply prefix_take.
    + apply length_take.
Qed.

End player_stats_extra.

(** ** game_loop.py *)

Module game_loop_extra.
Import game_loop.

Lemma update_won_event self game_state :
  let events := fst (battle_manager.update self game_state) in
  let self' := snd (battle_manager.update self game_state) in
  (events !! "battle_end" = Some "won" →
     battle_manager.battles_won self' = battle_manager.battles_won self + 1
     ∧ battle_manager.all_fainted (battle_manager.gs_party game_state) = false)
  ∧ (events !! "battle_end" ≠ Some "won" →
     battle_manager.battles_won self' = battle_manager.battles_won self).
Proof.
  unfold battle_manager.update.
  destruct (battle_manager.in_battle self); cbn [negb andb].
  - case_bool_decide.
    + destruct (battle_manager.all_fainted (battle_manager.gs_party game_state)) eqn:Hf;
        cbn [orb].
      * cbn. split; [intros H'; vm_compute in H'; discriminate | reflexivity].
      * case_bool_decide; cbn; (split; [intros H'|intros H']);
          try (vm_compute in H'; discriminate); auto.
        exfalso. apply H'. reflexivity.
    + cbn. split; [intros H'; vm_compute in H'; discriminate | reflexivity].
  - case_bool_decide; cbn; (split; [intros H'|reflexivity]).
    + case_decide; vm_compute in H'; discriminate.
    + vm_compute in H'. discriminate.
Qed.

Lemma forallb_fainted_view (l : list memory_reader.PartyEntry) :
  forallb (λ p, bool_decide (battle_manager.hp_current p = 0))
          (battle_manager.gs_party
             (memory_reader.battle_view
                {| memory_reader.player_x := 0; memory_reader.player_y := 0;
                   memory_reader.money := 0; memory_reader.badge_count := 0;
                   memory_reader.party := l; memory_reader.in_battle := false;
                   memory_reader.pokedex_seen := 0; memory_reader.pokedex_caught := 0 |}))
  = forallb (λ p, bool_decide (memory_reader.hp_current p = 0)) l.
Proof.
  cbn. induction l as [|q l IH]; cbn; [reflexivity|]. rewrite IH. reflexivity.
Qed.

Lemma all_fainted_view game_state :
  battle_manager.all_fainted (battle_manager.gs_party (memory_reader.battle_view game_state))
  = false →
  ∀ stats, player_stats.whiteout_detected stats game_state = false.
Proof.
  unfold player_stats.whiteout_detected, battle_manager.all_fainted.
  pose proof (forallb_fainted_view (memory_reader.party game_state)) as Hv.
  cbn in Hv |- *.
  destruct (memory_reader.party game_state) as [|p party]; [reflexivity|].
  cbn [map] in Hv |- *. rewrite Hv. intros -> stats. reflexivity.
Qed.

(** X17.  One snapshot is never counted twice by the statistics: in steps
    2 and 3 of a tick, the won counter and the whiteout counter of
    [PlayerStats] grow together by at most one, and when the battle tracker
    reports a won battle the statistics count no whiteout for that
    snapshot. *)
Theorem track_counts_once stats battle game_state :
  let stats' := fst (track stats battle game_state) in
  0 <= player_stats.battles_won stats' - player_stats.battles_won stats
  ∧ 0 <= player_stats.whiteouts stats' - player_stats.whiteouts stats
  ∧ (player_stats.battles_won stats' - player_stats.battles_won stats)
    + (player_stats.whiteouts stats' - player_stats.whiteouts stats) <= 1.
Proof.
  cbn zeta. unfold track.
  pose proof (update_won_event battle (memory_reader.battle_view game_state)) as Hw.
  destruct (battle_manager.update battle (memory_reader.battle_view game_state))
    as [events battle'].
  cbn [fst snd] in Hw. destruct Hw as [Hwon _].
  case_decide as He; cbn [fst].
  - destruct (Hwon He) as [_ Hf].
    cbn. rewrite (all_fainted_view game_state Hf stats). lia.
  - cbn. destruct (player_stats.whiteout_detected stats game_state); lia.
Qed.

Lemma track_all_won snapshots :
  ∀ stats battle,
    player_stats.battles_won stats = battle_manager.battles_won battle →
    player_stats.battles_won (fst (track_all stats battle snapshots))
    = battle_manager.battles_won (snd (track_all stats battle snapshots)).
Proof.
  unfold track_all.
  induction snapshots as [|g rest IH]; intros stats battle Heq; cbn [fold_left].
  - exact Heq.
  - cbn [fst snd]. rewrite (surjective_pairing (track stats battle g)).
    apply IH. unfold track.
    pose proof (update_won_event battle (memory_reader.battle_view g)) as Hw.
    destruct (battle_manager.update battle (memory_reader.battle_view g))
      as [events battle'].
    cbn [fst snd] in *. destruct Hw as [Hwon Hnot].
    case_decide as He; cbn.
    + destruct (Hwon He) as [-> _]. lia.
    + rewrite (Hnot He). exact Heq.
Qed.

(** X18.  The two won counters agree.  Over any run of snapshots handled
    by steps 2 and 3 of the tick, starting from new statistics and a new
    battle tracker, [PlayerStats.battles_won] equals
    [BattleManager.battles_won]. *)
Theorem won_counters_agree chart snapshots :
  let result := track_all player_stats.init (battle_manager.init chart) snapshots in
  player_stats.battles_won (fst result) = battle_manager.battles_won (snd result).
Proof. apply track_all_won. reflexivity. Qed.

(** X19.  Snapshots that come from [GameState.read] carry [in_battle] as a
    [bool], which [BattleManager.update] compares with the integers 0 and
    1: such a snapshot never makes it report the start of a trainer battle,
    and the battle type it records is 0 or 1, or what it was. *)
Theorem trainer_battle_never_reported battle game_state :
  let result := battle_manager.update battle (memory_reader.battle_view game_state) in
  fst result !! "battle_start" ≠ Some "trainer"
  ∧ (memory_reader.in_battle game_state = true → battle_manager.in_battle battle = false →
     fst result !! "battle_start" = Some "wild")
  ∧ (battle_manager.battle_type (snd result) = 0
     ∨ battle_manager.battle_type (snd result) = 1
     ∨ battle_manager.battle_type (snd result) = battle_manager.battle_type battle).
Proof.
  cbn zeta. unfold battle_manager.update, memory_reader.battle_view.
  cbn [battle_manager.gs_in_battle].
  destruct (memory_reader.in_battle game_state), (battle_manager.in_battle battle);
    cbn [Z.b2z negb andb].
  - rewrite bool_decide_eq_false_2 by discriminate. cbn.
    split; [discriminate|]. split; [discriminate | auto].
  - rewrite bool_decide_eq_true_2 by reflexivity. rewrite decide_True by reflexivity.
    cbn. split; [vm_compute; discriminate|]. split; [reflexivity | auto].
  - rewrite bool_decide_eq_true_2 by reflexivity.
    destruct (_ || _); cbn; (split; [vm_compute; discriminate|]);
      (split; [discriminate | auto]).
  - rewrite bool_decide_eq_false_2 by lia. cbn.
    split; [discriminate|]. split; [discriminate | auto].
Qed.

End game_loop_extra.

(** ** goal_planner.py *)

Module goal_planner_extra.
Import goal_planner goal_planner_facts.

(** *** Goal ids *)

Lemma to_int_proper (n : Z) :
  Z.to_int n ≠ Decimal.Pos Decimal.Nil ∧ Z.to_int n ≠ Decimal.Neg Decimal.Nil.
Proof.
  destruct n; cbn; split; try discriminate; intros [= H];
    try (revert H; apply DecimalPos.Unsigned.to_uint_nonnil).
Qed.

(** [str] of an integer determines the integer. *)
Lemma str_inj a b : py.str a = py.str b → a = b.
Proof.
  unfold py.str. intros H. apply DecimalZ.to_int_inj.
  destruct (to_int_proper a) as [Ha1 Ha2], (to_int_proper b) as [Hb1 Hb2].
  pose proof (NilZero.isi _ Ha1 Ha2) as Ia. pose proof (NilZero.isi _ Hb1 Hb2) as Ib.
  rewrite H in Ia. congruence.
Qed.

Lemma goal_id_inj a b : "goal_" +:+ py.str a = "goal_" +:+ py.str b → a = b.
Proof. cbn. intros [= H]. apply str_inj, H. Qed.

Lemma goal_id_truthy a : py.truthy ("goal_" +:+ py.str a) = true.
Proof. reflexivity. Qed.

(** *** Goals persist *)

Lemma persists_refl g : persists g g.
Proof. unfold persists. repeat split; reflexivity || lia. Qed.

Lemma persists_trans g1 g2 g3 : persists g1 g2 → persists g2 g3 → persists g1 g3.
Proof.
  unfold persists.
  intros (A1 & A2 & A3 & A4 & A5 & A6 & A7 & A8 & A9 & A10 & A11)
         (B1 & B2 & B3 & B4 & B5 & B6 & B7 & B8 & B9 & B10 & B11).
  repeat split; try congruence; try lia; etrans; eassumption.
Qed.

Lemma all_persist_refl gs : all_persist gs gs.
Proof. intros key g Hg. exists g. split; [exact Hg | apply persists_refl]. Qed.

Lemma all_persist_trans gs1 gs2 gs3 :
  all_persist gs1 gs2 → all_persist gs2 gs3 → all_persist gs1 gs3.
Proof.
  intros H12 H23 key g1 Hg1.
  destruct (H12 key g1 Hg1) as (g2 & Hg2 & P12).
  destruct (H23 key g2 Hg2) as (g3 & Hg3 & P23).
  exists g3. split; [exact Hg3 | eapply persists_trans; eassumption].
Qed.

Lemma all_persist_insert gs key g g' :
  gs !! key = Some g → persists g g' → all_persist gs (<[key := g']> gs).
Proof.
  intros Hg Hp k g0 Hg0. rewrite lookup_insert. case_decide as Hk.
  - subst k. exists g'. split; [reflexivity | congruence].
  - exists g0. split; [exact Hg0 | apply persists_refl].
Qed.

Lemma all_persist_insert_fresh gs key g' :
  gs !! key = None → all_persist gs (<[key := g']> gs).
Proof.
  intros Hg k g0 Hg0. rewrite lookup_insert. case_decide as Hk.
  - subst k. congruence.
  - exists g0. split; [exact Hg0 | apply persists_refl].
Qed.

Lemma persists_set_status s g : persists g (set_status s g).
Proof. unfold persists; cbn. repeat split; reflexivity || lia. Qed.

Lemma persists_append_note n g : persists g (append_note n g).
Proof.
  unfold persists; cbn. repeat split; try (reflexivity || lia).
  all: apply prefix_app_r; reflexivity.
Qed.

Lemma persists_append_child c g : persists g (append_child c g).
Proof.
  unfold persists; cbn. repeat split; try (reflexivity || lia).
  all: apply prefix_app_r; reflexivity.
Qed.

Lemma persists_set_completed_at t g : persists g (set_completed_at t g).
Proof. unfold persists; cbn. repeat split; reflexivity || lia. Qed.

Lemma persists_set_attempts n g : attempts g <= n → persists g (set_attempts n g).
Proof. unfold persists; cbn. intros H. repeat split; try reflexivity; exact H. Qed.

Lemma fail_goal_persist self goal_id reason :
  all_persist (goals self) (goals (fail_goal self goal_id reason)).
Proof.
  unfold fail_goal. destruct (goals self !! goal_id) as [g|] eqn:Hg;
    [|apply all_persist_refl].
  rewrite save_goals. cbn [goals update_goal].
  apply all_persist_insert with (g := g); [exact Hg|].
  eapply persists_trans; [apply (persists_set_attempts (attempts g + 1)); lia|].
  case_decide;
    (eapply persists_trans; [apply persists_set_status | apply persists_append_note]).
Qed.

Lemma block_goal_persist self goal_id reason :
  all_persist (goals self) (goals (block_goal self goal_id reason)).
Proof.
  unfold block_goal. destruct (goals self !! goal_id) as [g|] eqn:Hg;
    [|apply all_persist_refl].
  rewrite save_goals. cbn [goals update_goal].
  apply all_persist_insert with (g := g); [exact Hg|].
  eapply persists_trans; [apply persists_set_status | apply persists_append_note].
Qed.

Lemma mark_completed_persist self goal_id notes g :
  goals self !! goal_id = Some g →
  all_persist (goals self) (goals (mark_completed self goal_id notes g)).
Proof.
  intros Hg. unfold mark_completed. cbn [time_time goals update_goal].
  apply all_persist_insert with (g := g); [exact Hg|].
  eapply persists_trans; [apply (persists_set_status COMPLETED)|].
  eapply persists_trans; [apply persists_set_completed_at|].
  destruct (py.truthy notes); [apply persists_append_note | apply persists_refl].
Qed.

Lemma complete_goal_persist depth :
  ∀ self goal_id notes self',
    complete_goal depth self goal_id notes = Some self' →
    all_persist (goals self) (goals self').
Proof.
  induction depth as [|depth IH]; intros self goal_id notes self';
    rewrite complete_goal_unfold;
    destruct (goals self !! goal_id) as [g|] eqn:Hg;
    try (intros [= <-]; apply all_persist_refl);
    cbn zeta;
    pose proof (mark_completed_persist self goal_id notes g Hg) as Hm;
    destruct (cascade_target _ g) as [parent|];
    try discriminate;
    try (intros [= <-]; exact Hm).
  destruct (complete_goal depth _ (id parent) _) as [self3|] eqn:Hrec; [|discriminate].
  intros [= <-]. cbn [_save goals].
  eapply all_persist_trans; [exact Hm | eapply IH, Hrec].
Qed.

Lemma get_current_goal_ok depth self r :
  get_current_goal depth self = Some r → descent_ok self r.
Proof.
  destruct r as [[key|] self'].
  - apply get_current_goal_selected.
  - unfold get_current_goal.
    destruct (List.find _ (entries self)) as [[k goal]|].
    + destruct (children_ids goal); [discriminate|].
      destruct (_get_next_child depth self goal) as [[[child|] ?]|]; discriminate.
    + intros [= Hsel]. pose proof (select_next_goal_ok self) as Hok.
      rewrite Hsel in Hok. exact Hok.
Qed.

Lemma promote_persist self key g :
  goals self !! key = Some g → all_persist (goals self) (goals (promote self key g)).
Proof.
  intros Hg. unfold promote. rewrite save_goals. cbn [goals update_goal].
  apply all_persist_insert with (g := g); [exact Hg | apply persists_set_status].
Qed.

Lemma get_current_goal_persist depth self r self' :
  get_current_goal depth self = Some (r, self') →
  all_persist (goals self) (goals self').
Proof.
  intros Hrun. apply get_current_goal_ok in Hrun. destruct r as [key|]; cbn in Hrun.
  - destruct Hrun as [(-> & _)|(g & Hg & _ & _ & ->)];
      [apply all_persist_refl | apply promote_persist, Hg].
  - subst self'. apply all_persist_refl.
Qed.

Lemma add_goal_persist self name description priority parent_id prerequisites :
  goals self !! fst (add_goal self name description priority parent_id prerequisites)
  = None →
  all_persist (goals self)
    (goals (snd (add_goal self name description priority parent_id prerequisites))).
Proof.
  unfold add_goal. cbn [_next_id time_time fst snd].
  set (goal_id := "goal_" +:+ py.str (_id_counter self + 1)).
  intros Hfresh.
  match goal with |- context [dict_set goal_id ?g ?s] => set (self1 := dict_set goal_id g s) end.
  assert (H1 : all_persist (goals self) (goals self1))
    by (subst self1; cbn; apply all_persist_insert_fresh, Hfresh).
  clearbody self1.
  destruct parent_id as [pid|]; [|exact H1].
  destruct (py.truthy pid); [|exact H1].
  destruct (goals self1 !! pid) as [parent|] eqn:Hp; [|exact H1].
  rewrite save_goals. cbn [goals update_goal].
  eapply all_persist_trans; [exact H1|].
  apply all_persist_insert with (g := parent); [exact Hp | apply persists_append_child].
Qed.

(** *** What a call keeps *)

Lemma written_save self : written (_save self).
Proof. reflexivity. Qed.

Lemma written_in_sync self : written self → in_sync self.
Proof. unfold written, in_sync. intros ->. reflexivity. Qed.

Lemma same_tree_refl self : same_tree self self.
Proof.
  unfold same_tree. repeat split. intros key. destruct (goals self !! key); auto.
Qed.

Lemma same_tree_trans s1 s2 s3 : same_tree s1 s2 → same_tree s2 s3 → same_tree s1 s3.
Proof.
  unfold same_tree. intros (A1 & A2 & A3) (B1 & B2 & B3).
  repeat split; try congruence. intros key.
  specialize (A3 key). specialize (B3 key).
  destruct (goals s1 !! key), (goals s2 !! key), (goals s3 !! key);
    try contradiction; auto.
  destruct A3 as (? & ? & ?), B3 as (? & ? & ?). repeat split; congruence.
Qed.

Lemma same_tree_keys self self' key :
  same_tree self self' → is_Some (goals self' !! key) ↔ is_Some (goals self !! key).
Proof.
  intros (_ & _ & H). specialize (H key).
  destruct (goals self !! key), (goals self' !! key); try contradiction;
    split; intros [? ?]; try discriminate; eauto.
Qed.

Lemma same_tree_lookup self self' key g' :
  same_tree self self' → goals self' !! key = Some g' →
  ∃ g, goals self !! key = Some g
    ∧ id g' = id g ∧ parent_id g' = parent_id g ∧ children_ids g' = children_ids g.
Proof.
  intros (_ & _ & H) Hg. specialize (H key). rewrite Hg in H.
  destruct (goals self !! key) as [g|]; [eauto | contradiction].
Qed.

Lemma same_tree_update self k g g' :
  goals self !! k = Some g →
  id g' = id g → parent_id g' = parent_id g → children_ids g' = children_ids g →
  same_tree self (update_goal k g' self).
Proof.
  intros Hg Hi Hp Hc. unfold same_tree. cbn. repeat split. intros key.
  rewrite lookup_insert. case_decide as Hk.
  - subst key. rewrite Hg. auto.
  - destruct (goals self !! key); auto.
Qed.

Lemma same_tree_save self : same_tree self (_save self).
Proof. apply (same_tree_refl self). Qed.

Lemma fail_goal_frame self goal_id reason :
  same_tree self (fail_goal self goal_id reason)
  ∧ (fail_goal self goal_id reason = self ∨ written (fail_goal self goal_id reason)).
Proof.
  unfold fail_goal. destruct (goals self !! goal_id) as [g|] eqn:Hg.
  - split; [|right; apply written_save].
    eapply same_tree_trans; [|apply same_tree_save].
    eapply same_tree_update; [exact Hg | ..]; case_decide; reflexivity.
  - split; [apply same_tree_refl | left; reflexivity].
Qed.

Lemma block_goal_frame self goal_id reason :
  same_tree self (block_goal self goal_id reason)
  ∧ (block_goal self goal_id reason = self ∨ written (block_goal self goal_id reason)).
Proof.
  unfold block_goal. destruct (goals self !! goal_id) as [g|] eqn:Hg.
  - split; [|right; apply written_save].
    eapply same_tree_trans; [|apply same_tree_save].
    eapply same_tree_update; [exact Hg | ..]; reflexivity.
  - split; [apply same_tree_refl | left; reflexivity].
Qed.

Lemma mark_completed_same_tree self goal_id notes g :
  goals self !! goal_id = Some g →
  same_tree self (mark_completed self goal_id notes g).
Proof.
  intros Hg. unfold mark_completed, same_tree. cbn.
  repeat split. intros key. rewrite lookup_insert. case_decide as Hk.
  - subst key. rewrite Hg. destruct (py.truthy notes); auto.
  - destruct (goals self !! key); auto.
Qed.

Lemma complete_goal_frame depth :
  ∀ self goal_id notes self',
    complete_goal depth self goal_id notes = Some self' →
    same_tree self self' ∧ (self' = self ∨ written self').
Proof.
  induction depth as [|depth IH]; intros self goal_id notes self';
    rewrite complete_goal_unfold;
    destruct (goals self !! goal_id) as [g|] eqn:Hg;
    try (intros [= <-]; split; [apply same_tree_refl | left; reflexivity]);
    cbn zeta;
    pose proof (mark_completed_same_tree self goal_id notes g Hg) as Hm;
    destruct (cascade_target _ g) as [parent|];
    try discriminate;
    try (intros [= <-]; split; [exact Hm | right; apply written_save]).
  destruct (complete_goal depth _ (id parent) _) as [self3|] eqn:Hrec; [|discriminate].
  intros [= <-]. split; [|right; apply written_save].
  eapply same_tree_trans; [exact Hm|].
  eapply same_tree_trans; [eapply IH, Hrec | apply same_tree_save].
Qed.

Lemma promote_frame self key g :
  goals self !! key = Some g →
  same_tree self (promote self key g) ∧ written (promote self key g).
Proof.
  intros Hg. split; [|apply written_save].
  unfold promote.
  eapply same_tree_trans; [|apply same_tree_save].
  eapply same_tree_update; [exact Hg | ..]; reflexivity.
Qed.

Lemma get_current_goal_frame depth self r self' :
  get_current_goal depth self = Some (r, self') →
  same_tree self self' ∧ (self' = self ∨ written self').
Proof.
  intros Hrun. apply get_current_goal_ok in Hrun. destruct r as [key|]; cbn in Hrun.
  - destruct Hrun as [(-> & _)|(g & Hg & _ & _ & ->)].
    + split; [apply same_tree_refl | left; reflexivity].
    + destruct (promote_frame self key g Hg). auto.
  - subst self'. split; [apply same_tree_refl | left; reflexivity].
Qed.

(** What [add_goal] stores: the new goal under the next id, and the id
    appended to the children of the parent if the parent is a goal. *)
Lemma add_goal_spec self name description priority parent_id prerequisites :
  let goal_id := "goal_" +:+ py.str (_id_counter self + 1) in
  let goal := new_goal self name description priority parent_id prerequisites in
  let gs := <[goal_id := goal]> (goals self) in
  let self' := snd (add_goal self name description priority parent_id prerequisites) in
  fst (add_goal self name description priority parent_id prerequisites) = goal_id
  ∧ _id_counter self' = _id_counter self + 1
  ∧ clock self' = S (clock self)
  ∧ written self'
  ∧ goals self' =
      match parent_id with
      | Some pid =>
        if py.truthy pid then
          match gs !! pid with
          | Some parent => <[pid := append_child goal_id parent]> gs
          | None => gs
          end
        else gs
      | None => gs
      end.
Proof.
  unfold add_goal, new_goal. cbn [_next_id time_time fst snd].
  destruct parent_id as [pid|]; [|repeat split].
  destruct (py.truthy pid); [|repeat split].
  cbn [dict_set goals].
  destruct (<[_ := _]> (goals self) !! pid); repeat split.
Qed.

(** *** Reachable states *)

Lemma numbered_empty : numbered empty.
Proof.
  split; [cbn; lia|]. intros key [g Hg]. cbn in Hg.
  rewrite lookup_empty in Hg. discriminate.
Qed.

Lemma numbered_same_tree self self' : same_tree self self' → numbered self → numbered self'.
Proof.
  intros Hsame (H0 & Hn). pose proof Hsame as (Hc & _ & _).
  split; [lia|]. intros key Hs. rewrite Hc.
  apply Hn, (same_tree_keys _ _ _ Hsame), Hs.
Qed.

(** The next id is the key of no goal. *)
Lemma numbered_fresh self :
  numbered self → goals self !! ("goal_" +:+ py.str (_id_counter self + 1)) = None.
Proof.
  intros (_ & Hn).
  destruct (goals self !! ("goal_" +:+ py.str (_id_counter self + 1))) eqn:Hg;
    [|reflexivity].
  destruct (Hn _ (ex_intro _ _ Hg)) as (n & Hr & He).
  apply goal_id_inj in He. lia.
Qed.

Lemma add_goal_keys self name description priority parent_id prerequisites key :
  is_Some (goals (snd (add_goal self name description priority parent_id prerequisites))
           !! key)
  ↔ key = "goal_" +:+ py.str (_id_counter self + 1) ∨ is_Some (goals self !! key).
Proof.
  destruct (add_goal_spec self name description priority parent_id prerequisites)
    as (_ & _ & _ & _ & ->).
  set (k := "goal_" +:+ py.str (_id_counter self + 1)).
  set (g := new_goal _ _ _ _ _ _).
  assert (Hgs : is_Some (<[k := g]> (goals self) !! key)
                ↔ key = k ∨ is_Some (goals self !! key)).
  { rewrite lookup_insert. case_decide as Hk.
    - subst key. split; eauto.
    - split; [auto | intros [?|?]; [congruence | assumption]]. }
  destruct parent_id as [pid|]; [|exact Hgs].
  destruct (py.truthy pid); [|exact Hgs].
  destruct (<[k := g]> (goals self) !! pid) as [parent|] eqn:Hp; [|exact Hgs].
  rewrite <- Hgs. rewrite lookup_insert. case_decide as Hk; [|reflexivity].
  subst key. rewrite Hp. split; eauto.
Qed.

Lemma numbered_add_goal self name description priority parent_id prerequisites :
  numbered self →
  numbered (snd (add_goal self name description priority parent_id prerequisites)).
Proof.
  intros (H0 & Hn).
  destruct (add_goal_spec self name description priority parent_id prerequisites)
    as (_ & Hc & _).
  split; [lia|]. intros key Hs. rewrite Hc.
  apply add_goal_keys in Hs as [->|Hs].
  - exists (_id_counter self + 1). split; [lia | reflexivity].
  - destruct (Hn key Hs) as (n & Hr & He). exists n. split; [lia | exact He].
Qed.

Lemma numbered_step self self' : step self self' → numbered self → numbered self'.
Proof.
  intros [self0 name description priority parent_id prerequisites
         |depth self0 goal_id notes self1 Hrun
         |self0 goal_id reason
         |self0 goal_id reason
         |depth self0 result self1 Hrun].
  - apply numbered_add_goal.
  - apply numbered_same_tree, (complete_goal_frame _ _ _ _ _ Hrun).
  - apply numbered_same_tree, fail_goal_frame.
  - apply numbered_same_tree, block_goal_frame.
  - apply numbered_same_tree, (get_current_goal_frame _ _ _ _ Hrun).
Qed.

Lemma reachable_numbered self : reachable self → numbered self.
Proof.
  induction 1 as [|self self' _ IH Hstep]; [apply numbered_empty|].
  eapply numbered_step; eassumption.
Qed.

Lemma in_sync_step self self' : step self self' → in_sync self → in_sync self'.
Proof.
  intros [self0 name description priority parent_id prerequisites
         |depth self0 goal_id notes self1 Hrun
         |self0 goal_id reason
         |self0 goal_id reason
         |depth self0 result self1 Hrun] Hsync.
  - apply written_in_sync.
    apply (add_goal_spec self0 name description priority parent_id prerequisites).
  - destruct (complete_goal_frame _ _ _ _ _ Hrun) as [_ [->|Hw]];
      [exact Hsync | apply written_in_sync, Hw].
  - destruct (fail_goal_frame self0 goal_id reason) as [_ [->|Hw]];
      [exact Hsync | apply written_in_sync, Hw].
  - destruct (block_goal_frame self0 goal_id reason) as [_ [->|Hw]];
      [exact Hsync | apply written_in_sync, Hw].
  - destruct (get_current_goal_frame _ _ _ _ Hrun) as [_ [->|Hw]];
      [exact Hsync | apply written_in_sync, Hw].
Qed.

Lemma reachable_one_goal : reachable one_goal.
Proof. eapply reachable_step; [apply reachable_empty | apply step_add_goal]. Qed.

(** X20.  Goals are never lost or replaced.  In a planner that started
    without plans file, every call of [add_goal], [complete_goal],
    [fail_goal], [block_goal] or [get_current_goal] that returns keeps every
    goal under its key, with the same id, name, description, priority,
    parent, prerequisites, attempt limit and creation time; the attempts do
    not decrease, and the children and the notes are only appended to. *)
Theorem calls_keep_goals self self' :
  reachable self → step self self' → all_persist (goals self) (goals self').
Proof.
  intros Hreach Hstep. apply reachable_numbered in Hreach.
  destruct Hstep as [self0 name description priority parent_id prerequisites
         |depth self0 goal_id notes self1 Hrun
         |self0 goal_id reason
         |self0 goal_id reason
         |depth self0 result self1 Hrun].
  - apply add_goal_persist.
    destruct (add_goal_spec self0 name description priority parent_id prerequisites)
      as (-> & _).
    apply numbered_fresh, Hreach.
  - eapply complete_goal_persist, Hrun.
  - apply fail_goal_persist.
  - apply block_goal_persist.
  - eapply get_current_goal_persist, Hrun.
Qed.

(** A failure of the single goal keeps it. *)
Lemma calls_keep_goals_witness :
  all_persist (goals one_goal) (goals (fail_goal one_goal "goal_1" "lost")).
Proof.
  apply calls_keep_goals; [apply reachable_one_goal | apply step_fail_goal].
Defined.

(** X21.  The plans file is never stale.  In a planner that started
    without plans file, after every sequence of calls that return the file
    holds the counter and the goals as they are in memory; it is missing
    only while no goal has been added. *)
Theorem plans_file_in_sync self : reachable self → in_sync self.
Proof.
  induction 1 as [|self self' _ IH Hstep].
  - cbn. auto.
  - eapply in_sync_step; eassumption.
Qed.

(** The file after the first goal is added. *)
Lemma plans_file_in_sync_witness : in_sync one_goal.
Proof. apply plans_file_in_sync, reachable_one_goal. Defined.

Lemma ids_consistent_same_tree self self' :
  same_tree self self' → ids_consistent self → ids_consistent self'.
Proof.
  intros Hsame Hids key g' Hg'.
  destruct (same_tree_lookup _ _ _ _ Hsame Hg') as (g & Hg & Hi & _).
  rewrite Hi. apply Hids, Hg.
Qed.

Lemma ids_consistent_step self self' :
  step self self' → ids_consistent self → ids_consistent self'.
Proof.
  intros [self0 name description priority parent_id prerequisites
         |depth self0 goal_id notes self1 Hrun
         |self0 goal_id reason
         |self0 goal_id reason
         |depth self0 result self1 Hrun].
  - apply ids_consistent_add_goal.
  - apply ids_consistent_same_tree, (complete_goal_frame _ _ _ _ _ Hrun).
  - apply ids_consistent_same_tree, fail_goal_frame.
  - apply ids_consistent_same_tree, block_goal_frame.
  - apply ids_consistent_same_tree, (get_current_goal_frame _ _ _ _ Hrun).
Qed.

Lemma reachable_ids_consistent self : reachable self → ids_consistent self.
Proof.
  induction 1 as [|self self' _ IH Hstep]; [apply ids_consistent_empty|].
  eapply ids_consistent_step; eassumption.
Qed.

(** X22.  Ids are the numbers handed out.  In a planner that started
    without plans file, every goal is stored under its own id, and that id
    is [goal_n] for a number [n] from 1 to the counter; different numbers
    give different ids. *)
Theorem goal_ids_numbered self key goal :
  reachable self → goals self !! key = Some goal →
  id goal = key
  ∧ ∃ n, 1 <= n <= _id_counter self ∧ key = "goal_" +:+ py.str n
      ∧ ∀ m, key = "goal_" +:+ py.str m → m = n.
Proof.
  intros Hreach Hg. split; [apply (reachable_ids_consistent _ Hreach), Hg|].
  destruct (reachable_numbered _ Hreach) as (_ & Hn).
  destruct (Hn key (ex_intro _ _ Hg)) as (n & Hr & He).
  exists n. repeat split; try lia; [exact He|].
  intros m Hm. rewrite He in Hm. symmetry. apply goal_id_inj, Hm.
Qed.

(** The id of the single goal. *)
Lemma goal_ids_numbered_witness :
  ∃ goal, goals one_goal !! "goal_1" = Some goal ∧ id goal = "goal_1".
Proof.
  assert (Hg : ∃ goal, goals one_goal !! "goal_1" = Some goal)
    by (eexists; vm_compute; reflexivity).
  destruct Hg as (goal & Hg). exists goal. split; [exact Hg|].
  apply (goal_ids_numbered one_goal "goal_1" goal reachable_one_goal Hg).
Defined.

(** *** Children and parents *)

Lemma children_linked_same_tree self self' :
  same_tree self self' → children_linked (goals self) → children_linked (goals self').
Proof.
  intros Hsame Hl pid p' cid Hp' Hc.
  destruct (same_tree_lookup _ _ _ _ Hsame Hp') as (p & Hp & _ & _ & Hch).
  rewrite Hch in Hc. destruct (Hl pid p cid Hp Hc) as (child & Hchild & Hpar).
  destruct Hsame as (_ & _ & Hk). specialize (Hk cid). rewrite Hchild in Hk.
  destruct (goals self' !! cid) as [child'|]; [|contradiction].
  exists child'. split; [reflexivity|]. destruct Hk as (_ & -> & _). exact Hpar.
Qed.

Lemma children_linked_insert_new gs k g :
  gs !! k = None → children_ids g = [] →
  children_linked gs → children_linked (<[k := g]> gs).
Proof.
  intros Hfresh Hnil Hl pid p cid. rewrite lookup_insert. case_decide as Hk.
  - intros [= <-]. rewrite Hnil. intros Hc. apply elem_of_nil in Hc. contradiction.
  - intros Hp Hc. destruct (Hl pid p cid Hp Hc) as (child & Hchild & Hpar).
    exists child. split; [|exact Hpar].
    rewrite lookup_insert_ne; [exact Hchild | congruence].
Qed.

Lemma children_linked_append gs pid parent k g :
  gs !! pid = Some parent → gs !! k = Some g → parent_id g = Some pid →
  children_linked gs → children_linked (<[pid := append_child k parent]> gs).
Proof.
  intros Hparent Hg Hpar Hl.
  assert (Hkeep : ∀ cid child p0,
            gs !! cid = Some child → parent_id child = Some p0 →
            ∃ child', <[pid := append_child k parent]> gs !! cid = Some child'
              ∧ parent_id child' = Some p0).
  { intros cid child p0 Hc Hp0. rewrite lookup_insert. case_decide as Hk.
    - subst cid. rewrite Hparent in Hc. injection Hc as <-.
      eexists. split; [reflexivity | exact Hp0].
    - eauto. }
  intros pid0 p cid. rewrite lookup_insert. case_decide as Hk.
  - subst pid0. intros [= <-]. cbn. rewrite elem_of_app, list_elem_of_singleton.
    intros [Hc| ->].
    + destruct (Hl pid parent cid Hparent Hc) as (child & Hchild & Hp0). eauto.
    + eauto.
  - intros Hp Hc. destruct (Hl pid0 p cid Hp Hc) as (child & Hchild & Hp0). eauto.
Qed.

Lemma children_linked_add_goal self name description priority parent_id prerequisites :
  numbered self → children_linked (goals self) →
  children_linked
    (goals (snd (add_goal self name description priority parent_id prerequisites))).
Proof.
  intros Hnum Hl. apply numbered_fresh in Hnum.
  destruct (add_goal_spec self name description priority parent_id prerequisites)
    as (_ & _ & _ & _ & ->).
  set (k := "goal_" +:+ py.str (_id_counter self + 1)) in *.
  set (g := new_goal _ _ _ _ _ _).
  assert (Hgs : children_linked (<[k := g]> (goals self)))
    by (apply children_linked_insert_new; [exact Hnum | reflexivity | exact Hl]).
  destruct parent_id as [pid|]; [|exact Hgs].
  destruct (py.truthy pid); [|exact Hgs].
  destruct (<[k := g]> (goals self) !! pid) as [parent|] eqn:Hp; [|exact Hgs].
  apply children_linked_append with (g := g);
    [exact Hp | apply lookup_insert_eq | reflexivity | exact Hgs].
Qed.

(** X23.  Children lists and parents agree.  In a planner that started
    without plans file, every id in the children of a goal is the key of a
    goal of the tree, and the parent of that goal is the goal that lists
    it. *)
Theorem children_are_goals self pid parent cid :
  reachable self →
  goals self !! pid = Some parent → cid ∈ children_ids parent →
  ∃ child, goals self !! cid = Some child ∧ parent_id child = Some pid.
Proof.
  intros Hreach. revert pid parent cid.
  change (children_linked (goals self)).
  induction Hreach as [|self self' Hreach IH Hstep].
  - intros pid parent cid Hp. cbn in Hp. rewrite lookup_empty in Hp. discriminate.
  - apply reachable_numbered in Hreach.
    destruct Hstep as [self0 name description priority parent_id prerequisites
         |depth self0 goal_id notes self1 Hrun
         |self0 goal_id reason
         |self0 goal_id reason
         |depth self0 result self1 Hrun].
    + apply children_linked_add_goal; assumption.
    + eapply children_linked_same_tree; [apply (complete_goal_frame _ _ _ _ _ Hrun) | exact IH].
    + eapply children_linked_same_tree; [apply fail_goal_frame | exact IH].
    + eapply children_linked_same_tree; [apply block_goal_frame | exact IH].
    + eapply children_linked_same_tree; [apply (get_current_goal_frame _ _ _ _ Hrun) | exact IH].
Qed.

(** A sub-goal added to the single goal is a child of it. *)
Lemma children_are_goals_witness :
  ∃ child,
    goals (snd (add_goal one_goal "B" "second" 5 (Some "goal_1") [])) !! "goal_2"
    = Some child
    ∧ parent_id child = Some "goal_1".
Proof.
  set (self := snd (add_goal one_goal "B" "second" 5 (Some "goal_1") [])).
  assert (Hreach : reachable self)
    by (eapply reachable_step; [apply reachable_one_goal | apply step_add_goal]).
  assert (Hp : ∃ parent, goals self !! "goal_1" = Some parent
                 ∧ children_ids parent = ["goal_2"])
    by (eexists; split; vm_compute; reflexivity).
  destruct Hp as (parent & Hp & Hc).
  apply (children_are_goals self "goal_1" parent "goal_2" Hreach Hp).
  rewrite Hc. left.
Defined.

(** *** The order of the dictionary *)

Lemma add_goal_order self name description priority parent_id prerequisites :
  order (snd (add_goal self name description priority parent_id prerequisites))
  = match goals self !! ("goal_" +:+ py.str (_id_counter self + 1)) with
    | Some _ => order self
    | None => order self ++ ["goal_" +:+ py.str (_id_counter self + 1)]
    end.
Proof.
  unfold add_goal. cbn [_next_id time_time fst snd].
  destruct parent_id as [pid|]; [|reflexivity].
  destruct (py.truthy pid); [|reflexivity].
  cbn [dict_set goals].
  destruct (<[_ := _]> (goals self) !! pid); reflexivity.
Qed.

Lemma listed_same_tree self self' : same_tree self self' → listed self → listed self'.
Proof.
  intros Hsame (Hnd & Hk). pose proof Hsame as (_ & Ho & _).
  split; rewrite Ho; [exact Hnd|].
  intros key. rewrite Hk. symmetry. apply same_tree_keys, Hsame.
Qed.

Lemma listed_add_goal self name description priority parent_id prerequisites :
  numbered self → listed self →
  listed (snd (add_goal self name description priority parent_id prerequisites)).
Proof.
  intros Hnum (Hnd & Hk). apply numbered_fresh in Hnum.
  unfold listed. rewrite add_goal_order, Hnum. split.
  - apply NoDup_app. repeat split; [exact Hnd | | apply NoDup_singleton].
    intros key Hin. rewrite list_elem_of_singleton. intros ->.
    apply Hk in Hin as [g Hg]. congruence.
  - intros key. rewrite add_goal_keys, elem_of_app, list_elem_of_singleton, Hk. tauto.
Qed.

Lemma reachable_listed self : reachable self → listed self.
Proof.
  induction 1 as [|self self' Hreach IH Hstep].
  - split; [apply NoDup_nil_2|]. intros key. cbn. rewrite lookup_empty.
    split; [intros H; apply elem_of_nil in H; contradiction | intros [? ?]; discriminate].
  - apply reachable_numbered in Hreach.
    destruct Hstep as [self0 name description priority parent_id prerequisites
         |depth self0 goal_id notes self1 Hrun
         |self0 goal_id reason
         |self0 goal_id reason
         |depth self0 result self1 Hrun].
    + apply listed_add_goal; assumption.
    + eapply listed_same_tree; [apply (complete_goal_frame _ _ _ _ _ Hrun) | exact IH].
    + eapply listed_same_tree; [apply fail_goal_frame | exact IH].
    + eapply listed_same_tree; [apply block_goal_frame | exact IH].
    + eapply listed_same_tree; [apply (get_current_goal_frame _ _ _ _ Hrun) | exact IH].
Qed.

(** The values of the dictionary are the goals of its keys. *)
Lemma entries_complete self key goal :
  listed self → goals self !! key = Some goal → (key, goal) ∈ entries self.
Proof.
  intros (_ & Hk) Hg. unfold entries. rewrite list_elem_of_omap.
  exists key. split; [apply Hk; eauto|]. rewrite Hg. reflexivity.
Qed.

(** *** The answers of [get_current_goal] *)

(** X24.  What [get_current_goal] answers and changes.  The goal returned
    was pending, active or in progress before the call (never completed,
    failed or blocked) and is active or in progress after it; the call
    changes nothing but the status of that goal, from pending to active,
    and no other goal. *)
Theorem get_current_goal_answer depth self key self' :
  get_current_goal depth self = Some (Some key, self') →
  ∃ goal goal',
    goals self !! key = Some goal ∧ goals self' !! key = Some goal'
    ∧ (status goal = PENDING ∨ status goal = ACTIVE ∨ status goal = IN_PROGRESS)
    ∧ (status goal' = ACTIVE ∨ status goal' = IN_PROGRESS)
    ∧ (goal' = goal ∨ (status goal = PENDING ∧ goal' = set_status ACTIVE goal))
    ∧ ∀ other, other ≠ key → goals self' !! other = goals self !! other.
Proof.
  intros Hrun.
  destruct (get_current_goal_selected _ _ _ _ Hrun)
    as [(-> & g & Hg & Hact)|(g & Hg & Hpend & _ & ->)].
  - exists g, g. unfold is_active in Hact.
    apply orb_true_iff in Hact as [Hact|Hact]; apply bool_decide_eq_true in Hact;
      repeat split; auto.
  - exists g, (set_status ACTIVE g). unfold promote. rewrite save_goals.
    cbn [update_goal goals]. rewrite lookup_insert_eq.
    repeat split; auto.
    intros other Hne. apply lookup_insert_ne. congruence.
Qed.

(** The first call on the single-goal tree. *)
Lemma get_current_goal_answer_witness :
  ∃ self' goal',
    get_current_goal 10 one_goal = Some (Some "goal_1", self')
    ∧ goals self' !! "goal_1" = Some goal'
    ∧ (status goal' = ACTIVE ∨ status goal' = IN_PROGRESS).
Proof.
  assert (Hrun : ∃ self', get_current_goal 10 one_goal = Some (Some "goal_1", self'))
    by (eexists; vm_compute; reflexivity).
  destruct Hrun as (self' & Hrun).
  destruct (get_current_goal_answer 10 one_goal "goal_1" self' Hrun)
    as (goal & goal' & _ & Hg' & _ & Hact & _).
  exists self', goal'. auto.
Defined.

Lemma insert_by_priority_not_nil x sorted : insert_by_priority x sorted ≠ [].
Proof. destruct sorted; cbn; [discriminate|]. case_decide; discriminate. Qed.

Lemma sort_by_priority_nil l : sort_by_priority l = [] → l = [].
Proof.
  destruct l as [|x l]; [reflexivity|]. cbn. intros H.
  apply insert_by_priority_not_nil in H. contradiction.
Qed.

Lemma select_next_goal_eligible self :
  _select_next_goal self =
  match sort_by_priority (filter (λ kg, eligible self kg) (entries self)) with
  | [] => (None, self)
  | (key, best) :: _ => (Some key, promote self key best)
  end.
Proof. reflexivity. Qed.

(** X25.  When there is nothing to do.  In a planner that started without
    plans file, [get_current_goal] answers [None] exactly when no goal is
    active or in progress and no pending goal without parent has all its
    prerequisites completed; the planner is then unchanged. *)
Theorem get_current_goal_none_iff depth self self' :
  reachable self →
  get_current_goal depth self = Some (None, self')
  ↔ self' = self
    ∧ ∀ key goal, goals self !! key = Some goal →
        is_active goal = false ∧ eligible self (key, goal) = false.
Proof.
  intros Hreach. apply reachable_listed in Hreach. split.
  - intros Hrun. pose proof (get_current_goal_ok _ _ _ Hrun) as Hok. cbn in Hok.
    subst self'. split; [reflexivity|].
    intros key goal Hg. apply (entries_complete _ _ _ Hreach) in Hg.
    revert Hrun. unfold get_current_goal.
    destruct (List.find _ (entries self)) as [[k g]|] eqn:Hfind.
    + destruct (children_ids g); [discriminate|].
      destruct (_get_next_child depth self g) as [[[child|] ?]|]; discriminate.
    + rewrite select_next_goal_eligible.
      destruct (sort_by_priority _) as [|[k best] rest] eqn:Hsort; [|discriminate].
      intros _. split.
      * apply list_elem_of_In in Hg. apply (find_none _ _ Hfind _ Hg).
      * apply sort_by_priority_nil in Hsort.
        destruct (eligible self (key, goal)) eqn:He; [|reflexivity].
        assert (Hin : (key, goal) ∈ filter (λ kg, eligible self kg) (entries self))
          by (apply list_elem_of_filter; split; [rewrite He; exact I | exact Hg]).
        rewrite Hsort in Hin. apply elem_of_nil in Hin. contradiction.
  - intros (-> & Hnone). unfold get_current_goal.
    destruct (List.find _ (entries self)) as [[k g]|] eqn:Hfind.
    + apply find_some in Hfind as [Hin Hact]. cbn in Hact.
      apply list_elem_of_In, entries_lookup in Hin.
      destruct (Hnone k g Hin) as [Hna _]. congruence.
    + rewrite select_next_goal_eligible.
      destruct (filter _ (entries self)) as [|[k g] rest] eqn:Hfilter; [reflexivity|].
      assert (Hin : (k, g) ∈ filter (λ kg, eligible self kg) (entries self))
        by (rewrite Hfilter; left).
      apply list_elem_of_filter in Hin as [He Hin].
      apply entries_lookup in Hin. destruct (Hnone k g Hin) as [_ Hne].
      rewrite Hne in He. contradiction.
Qed.

(** A planner without goals has nothing to do. *)
Lemma get_current_goal_none_iff_witness :
  get_current_goal 0 empty = Some (None, empty).
Proof.
  apply (get_current_goal_none_iff 0 empty empty reachable_empty).
  split; [reflexivity|]. intros key goal Hg. cbn in Hg.
  rewrite lookup_empty in Hg. discriminate.
Defined.

(** *** The choice of [_select_next_goal] *)

(** The head of the sorted list is the first of the elements of lowest
    priority value. *)
Lemma sort_by_priority_head l key best rest :
  sort_by_priority l = (key, best) :: rest →
  ∃ before after,
    l = before ++ (key, best) :: after
    ∧ Forall (λ kg, priority best < priority (snd kg)) before
    ∧ Forall (λ kg, priority best <= priority (snd kg)) after.
Proof.
  revert key best rest. induction l as [|x l IH]; intros key best rest; [discriminate|].
  cbn [sort_by_priority foldr].
  change (foldr insert_by_priority [] l) with (sort_by_priority l).
  destruct (sort_by_priority l) as [|[k b] sorted] eqn:Hsort.
  - apply sort_by_priority_nil in Hsort. subst l. cbn. intros [= -> <-].
    exists [], []. repeat split; constructor.
  - destruct (IH k b sorted eq_refl) as (before & after & Hl & Hb & Ha).
    cbn [insert_by_priority]. case_decide as Hle.
    + intros [= -> <-]. cbn in Hle. exists [], l. repeat split; [constructor|].
      rewrite Hl. apply Forall_app. split; [|constructor].
      * eapply Forall_impl; [exact Hb|]. cbn. intros; lia.
      * cbn. exact Hle.
      * eapply Forall_impl; [exact Ha|]. cbn. intros; lia.
    + intros [= <- <- <-]. cbn in Hle. exists (x :: before), after.
      rewrite Hl. repeat split; [|exact Ha].
      constructor; [lia | exact Hb].
Qed.

(** X26.  The choice among the roots.  When [_select_next_goal] selects a
    goal, that goal is, among the pending goals without parent whose
    prerequisites are completed, one of lowest priority value, and the
    first of these in the order of the dictionary; it is made active and
    the plans are saved. *)
Theorem select_next_goal_lowest self key self' :
  _select_next_goal self = (Some key, self') →
  ∃ best before after,
    filter (λ kg, eligible self kg) (entries self) = before ++ (key, best) :: after
    ∧ Forall (λ kg, priority best < priority (snd kg)) before
    ∧ Forall (λ kg, priority best <= priority (snd kg)) after
    ∧ self' = promote self key best.
Proof.
  rewrite select_next_goal_eligible.
  destruct (sort_by_priority _) as [|[k best] rest] eqn:Hsort; [discriminate|].
  intros [= <- <-].
  destruct (sort_by_priority_head _ _ _ _ Hsort) as (before & after & Hl & Hb & Ha).
  exists best, before, after. auto.
Qed.

(** Of two roots, the one of lower priority value is selected. *)
Lemma select_next_goal_lowest_witness :
  ∃ best before after self',
    _select_next_goal (snd (add_goal one_goal "B" "second" 3 None []))
    = (Some "goal_2", self')
    ∧ filter (λ kg, eligible (snd (add_goal one_goal "B" "second" 3 None [])) kg)
             (entries (snd (add_goal one_goal "B" "second" 3 None [])))
      = before ++ ("goal_2", best) :: after
    ∧ Forall (λ kg, priority best < priority (snd kg)) before.
Proof.
  set (self := snd (add_goal one_goal "B" "second" 3 None [])).
  assert (Hrun : ∃ self', _select_next_goal self = (Some "goal_2", self'))
    by (eexists; vm_compute; reflexivity).
  destruct Hrun as (self' & Hrun).
  destruct (select_next_goal_lowest self "goal_2" self' Hrun)
    as (best & before & after & Hl & Hb & _).
  exists best, before, after, self'. auto.
Defined.

(** *** [complete_goal] and the parent *)

Lemma children_completed_false gs parent cid child :
  cid ∈ children_ids parent → gs !! cid = Some child → status child ≠ COMPLETED →
  children_completed gs parent = false.
Proof.
  intros Hin Hc Hs. unfold children_completed.
  apply not_true_iff_false. intros Hall.
  rewrite forallb_forall in Hall. apply list_elem_of_In in Hin.
  specialize (Hall cid Hin). rewrite Hc in Hall.
  apply bool_decide_eq_true in Hall. contradiction.
Qed.

(** X27.  No early cascade.  If the parent of a goal lists another goal of
    the tree that is not completed, [complete_goal] on the goal returns at
    every depth of recursion left, marks the goal completed, and leaves
    every other goal, the parent included, as it was. *)
Theorem complete_goal_leaves_parent depth self goal_id notes goal pid parent cid child :
  goals self !! goal_id = Some goal →
  parent_id goal = Some pid →
  goals self !! pid = Some parent →
  cid ∈ children_ids parent → cid ≠ goal_id →
  goals self !! cid = Some child → status child ≠ COMPLETED →
  ∃ self',
    complete_goal depth self goal_id notes = Some self'
    ∧ status_of self' goal_id = Some COMPLETED
    ∧ ∀ other, other ≠ goal_id → goals self' !! other = goals self !! other.
Proof.
  intros Hg Hpid Hparent Hin Hne Hchild Hs.
  exists (_save (mark_completed self goal_id notes goal)).
  destruct (mark_completed_goals self goal_id notes goal)
    as (goal' & Hgoals & _ & _ & Hch & Hst).
  split; [|split].
  - rewrite complete_goal_unfold, Hg. cbn zeta.
    assert (Hnone : cascade_target (mark_completed self goal_id notes goal) goal = None).
    { unfold cascade_target. rewrite Hpid. destruct (py.truthy pid); [|reflexivity].
      rewrite Hgoals. rewrite lookup_insert. case_decide as Hk.
      - subst pid. rewrite Hg in Hparent. injection Hparent as <-.
        rewrite (children_completed_false _ goal' cid child); [reflexivity | | | exact Hs].
        + rewrite Hch. exact Hin.
        + rewrite lookup_insert_ne; [exact Hchild | congruence].
      - rewrite Hparent.
        rewrite (children_completed_false _ parent cid child);
          [reflexivity | exact Hin | | exact Hs].
        rewrite lookup_insert_ne; [exact Hchild | congruence]. }
    rewrite Hnone. reflexivity.
  - unfold status_of. rewrite save_goals, Hgoals, lookup_insert_eq. cbn. congruence.
  - intros other Ho. rewrite save_goals, Hgoals. apply lookup_insert_ne. congruence.
Qed.

(** The first leaf of the three-level tree is completed while the second
    is pending. *)
Lemma complete_goal_leaves_parent_witness :
  ∃ self',
    complete_goal 0 three_levels "goal_3" "done" = Some self'
    ∧ status_of self' "goal_3" = Some COMPLETED
    ∧ status_of self' "goal_2" = Some PENDING.
Proof.
  assert (H : ∃ goal parent child,
            goals three_levels !! "goal_3" = Some goal
            ∧ parent_id goal = Some "goal_2"
            ∧ goals three_levels !! "goal_2" = Some parent
            ∧ children_ids parent = ["goal_3"; "goal_4"]
            ∧ goals three_levels !! "goal_4" = Some child
            ∧ status child = PENDING)
    by (do 3 eexists; repeat (split; [vm_compute; reflexivity|]);
        vm_compute; reflexivity).
  destruct H as (goal & parent & child & Hg & Hpid & Hparent & Hch & Hchild & Hs).
  destruct (complete_goal_leaves_parent 0 three_levels "goal_3" "done"
              goal "goal_2" parent "goal_4" child)
    as (self' & Hrun & Hdone & Hother);
    [exact Hg | exact Hpid | exact Hparent | rewrite Hch; right; left | discriminate
    | exact Hchild | rewrite Hs; discriminate |].
  exists self'. repeat split; [exact Hrun | exact Hdone|].
  unfold status_of. rewrite Hother by discriminate. vm_compute. reflexivity.
Defined.

(** X28.  A goal that is its own parent cannot be completed.  If a goal
    has its own id as parent and its other children in the tree are
    completed, [complete_goal] on it does not return, whatever depth of
    recursion is left: each call completes the goal and calls itself on
    the parent, the same goal. *)
Theorem complete_goal_own_parent depth self goal_id notes goal :
  goals self !! goal_id = Some goal →
  id goal = goal_id → parent_id goal = Some goal_id → py.truthy goal_id = true →
  (∀ cid child, cid ∈ children_ids goal → cid ≠ goal_id →
     goals self !! cid = Some child → status child = COMPLETED) →
  complete_goal depth self goal_id notes = None.
Proof. apply complete_goal_loops. Qed.

(** The first goal of a planner, added with the id it is about to get as
    parent. *)
Lemma complete_goal_own_parent_witness :
  complete_goal 1000 own_parent "goal_1" "done" = None.
Proof.
  assert (H : ∃ goal, goals own_parent !! "goal_1" = Some goal
                ∧ id goal = "goal_1" ∧ parent_id goal = Some "goal_1"
                ∧ children_ids goal = ["goal_1"])
    by (eexists; repeat (split; [vm_compute; reflexivity|]);
        vm_compute; reflexivity).
  destruct H as (goal & Hg & Hid & Hpid & Hch).
  apply (complete_goal_own_parent 1000 own_parent "goal_1" "done" goal Hg Hid Hpid);
    [reflexivity|].
  intros cid child Hin Hne. rewrite Hch in Hin.
  apply list_elem_of_singleton in Hin. contradiction.
Defined.

(** *** What [add_goal] registers *)

Lemma numbered_truthy self key :
  numbered self → is_Some (goals self !! key) → py.truthy key = true.
Proof.
  intros (_ & Hn) Hs. destruct (Hn key Hs) as (n & _ & ->). apply goal_id_truthy.
Qed.

(** X29.  What [add_goal] registers.  In a planner that started without
    plans file, [add_goal] returns an id that was the key of no goal, the
    text [goal_] followed by the new value of the counter; it stores under
    that id a pending goal with no attempts and the name, description,
    priority, parent and prerequisites given, appends the id to the
    children of the parent if the parent is a goal of the tree, and leaves
    the other goals as they were. *)
Theorem add_goal_registers self name description priority parent_id prerequisites :
  reachable self →
  let goal_id := fst (add_goal self name description priority parent_id prerequisites) in
  let self' := snd (add_goal self name description priority parent_id prerequisites) in
  goals self !! goal_id = None
  ∧ _id_counter self' = _id_counter self + 1
  ∧ goal_id = "goal_" +:+ py.str (_id_counter self')
  ∧ (∃ goal, goals self' !! goal_id = Some goal
       ∧ id goal = goal_id ∧ status goal = PENDING ∧ attempts goal = 0
       ∧ goal_planner.name goal = name ∧ goal_planner.description goal = description
       ∧ goal_planner.priority goal = priority
       ∧ goal_planner.parent_id goal = parent_id
       ∧ goal_planner.prerequisites goal = prerequisites)
  ∧ (∀ pid parent, parent_id = Some pid → goals self !! pid = Some parent →
       goals self' !! pid = Some (append_child goal_id parent))
  ∧ (∀ other, other ≠ goal_id → parent_id ≠ Some other →
       goals self' !! other = goals self !! other).
Proof.
  intros Hreach. apply reachable_numbered in Hreach.
  pose proof (numbered_fresh _ Hreach) as Hfresh.
  destruct (add_goal_spec self name description priority parent_id prerequisites)
    as (Hid & Hc & _ & _ & Hgoals).
  cbn zeta. rewrite Hid, Hc, Hgoals. clear Hid Hgoals.
  set (k := "goal_" +:+ py.str (_id_counter self + 1)) in *.
  set (g := new_goal self name description priority parent_id prerequisites).
  split; [exact Hfresh|]. split; [reflexivity|]. split; [reflexivity|].
  destruct parent_id as [pid|].
  - destruct (py.truthy pid) eqn:Htruthy.
    + rewrite lookup_insert. case_decide as Hk.
      * subst pid. split; [|split].
        -- rewrite lookup_insert_eq. eexists. split; [reflexivity|]. cbn. auto 10.
        -- intros pid parent [= <-] Hp. congruence.
        -- intros other Ho _. rewrite !lookup_insert_ne by congruence. reflexivity.
      * destruct (goals self !! pid) as [parent|] eqn:Hp.
        -- split; [|split].
           ++ rewrite lookup_insert_ne by congruence. rewrite lookup_insert_eq.
              exists g. cbn. auto 10.
           ++ intros pid' parent' [= <-] Hp'. rewrite Hp in Hp'. injection Hp' as <-.
              apply lookup_insert_eq.
           ++ intros other Ho Hne. rewrite !lookup_insert_ne by congruence. reflexivity.
        -- split; [|split].
           ++ rewrite lookup_insert_eq. exists g. cbn. auto 10.
           ++ intros pid' parent' [= <-] Hp'. congruence.
           ++ intros other Ho _. apply lookup_insert_ne. congruence.
    + split; [|split].
      * rewrite lookup_insert_eq. exists g. cbn. auto 10.
      * intros pid' parent' [= <-] Hp'.
        rewrite (numbered_truthy self pid Hreach) in Htruthy by eauto. discriminate.
      * intros other Ho _. apply lookup_insert_ne. congruence.
  - split; [|split].
    + rewrite lookup_insert_eq. exists g. cbn. auto 10.
    + intros pid parent [=].
    + intros other Ho _. apply lookup_insert_ne. congruence.
Qed.

(** A sub-goal added to the single goal. *)
Lemma add_goal_registers_witness :
  fst (add_goal one_goal "B" "second" 5 (Some "goal_1") []) = "goal_2"
  ∧ goals one_goal !! "goal_2" = None.
Proof.
  split; [vm_compute; reflexivity|].
  replace "goal_2" with (fst (add_goal one_goal "B" "second" 5 (Some "goal_1") []))
    by (vm_compute; reflexivity).
  apply (add_goal_registers one_goal "B" "second" 5 (Some "goal_1") []
           reachable_one_goal).
Defined.

(** *** Finished goals *)

Lemma complete_goal_status depth self goal_id notes self' :
  is_Some (goals self !! goal_id) →
  complete_goal depth self goal_id notes = Some self' →
  status_of self' goal_id = Some COMPLETED.
Proof.
  intros [g Hg]. rewrite complete_goal_unfold, Hg. cbn zeta.
  pose proof (mark_completed_status self goal_id notes g) as Hm.
  destruct (cascade_target _ g) as [parent|].
  - destruct depth as [|depth]; [discriminate|].
    destruct (complete_goal depth _ (id parent) _) as [self3|] eqn:Hrec; [|discriminate].
    intros [= <-]. unfold status_of. rewrite save_goals.
    apply (completes_only_stays_completed (mark_completed self goal_id notes g));
      [eapply complete_goal_completes_only, Hrec | exact Hm].
  - intros [= <-]. unfold status_of. rewrite save_goals. exact Hm.
Qed.

(** X30.  Blocked and completed goals are not selected.  Right after
    [block_goal] or a [complete_goal] that returns on a goal of the tree,
    [get_current_goal] does not answer that goal. *)
Theorem finished_goal_not_returned depth self goal_id text self1 key self2 :
  is_Some (goals self !! goal_id) →
  self1 = block_goal self goal_id text
  ∨ (∃ d, complete_goal d self goal_id text = Some self1) →
  get_current_goal depth self1 = Some (Some key, self2) →
  key ≠ goal_id.
Proof.
  intros Hs Hcall Hrun ->.
  assert (Hst : status_of self1 goal_id = Some BLOCKED
                ∨ status_of self1 goal_id = Some COMPLETED).
  { destruct Hcall as [->|(d & Hc)].
    - left. destruct Hs as [g Hg]. unfold status_of, block_goal. rewrite Hg.
      rewrite save_goals. cbn [update_goal goals]. rewrite lookup_insert_eq.
      reflexivity.
    - right. eapply complete_goal_status; eassumption. }
  unfold status_of in Hst.
  destruct (get_current_goal_selected _ _ _ _ Hrun)
    as [(_ & g & Hg & Hact)|(g & Hg & Hpend & _)];
    rewrite Hg in Hst; cbn in Hst.
  - unfold is_active in Hact.
    destruct Hst as [[= Hst]|[= Hst]]; rewrite Hst in Hact; discriminate.
  - destruct Hst as [[= Hst]|[= Hst]]; congruence.
Qed.

(** Of two roots, the first is blocked and the second is selected. *)
Lemma finished_goal_not_returned_witness :
  ∃ self2,
    get_current_goal 10
      (block_goal (snd (add_goal one_goal "B" "second" 5 None [])) "goal_1" "stuck")
    = Some (Some "goal_2", self2)
    ∧ "goal_2" ≠ "goal_1".
Proof.
  set (self := snd (add_goal one_goal "B" "second" 5 None [])).
  assert (Hrun : ∃ self2, get_current_goal 10 (block_goal self "goal_1" "stuck")
                          = Some (Some "goal_2", self2))
    by (eexists; vm_compute; reflexivity).
  destruct Hrun as (self2 & Hrun). exists self2. split; [exact Hrun|].
  apply (finished_goal_not_returned 10 self "goal_1" "stuck"
           (block_goal self "goal_1" "stuck") "goal_2" self2);
    [vm_compute; eauto | left; reflexivity | exact Hrun].
Defined.

End goal_planner_extra.
